(** * Image conversion pipeline: a shallow embedding of the pixel code

    The development follows the TypeScript sources
    - [src/hooks/useImageProcessor.ts]  (conversion pipeline, batch conversion),
    - [src/hooks/usePreviewEffect.ts]   (preview pipeline),
    - [src/components/BackgroundRemoval.tsx] (segmentation),
    - [src/components/MatrixBackground.tsx]  (the [AdvancedEffects] component
      and its [applyAdvancedEffects]).

    JavaScript numbers are IEEE-754 binary64 values; they are modelled by
    Rocq's primitive floats, whose operations are the same correctly
    rounded binary64 operations.  Typed arrays ([Uint8ClampedArray],
    [Uint8Array]) are lists of integers in [0, 255]; a store converts the
    number with the conversion the array type prescribes, a store outside
    the array is dropped and a load outside the array yields [undefined],
    which arithmetic turns into NaN. *)

From Stdlib Require Import ZArith List Bool Lia String Ascii Floats Uint63.
From stdpp Require Import base list.

Set Warnings "-inexact-float".
Local Open Scope Z_scope.

(** ** JavaScript numbers *)
Module JS.

Definition Number := float.
Bind Scope float_scope with Number.

(** An integer as a number (exact below 2^53 in absolute value). *)
Definition ofZ (z : Z) : Number :=
  if z <? 0 then PrimFloat.opp (PrimFloat.of_uint63 (Uint63.of_Z (- z)))
  else PrimFloat.of_uint63 (Uint63.of_Z z).

Definition ofNat (n : nat) : Number := ofZ (Z.of_nat n).

(** The value [(-1)^s * m * 2^e] of a finite float, rounded down to an
    integer, and rounded toward zero. *)
Definition signed (s : bool) (m : positive) : Z :=
  if s then Z.neg m else Z.pos m.

Definition floorSF (s : bool) (m : positive) (e : Z) : Z :=
  if 0 <=? e then signed s m * 2 ^ e else signed s m / 2 ^ (- e).

Definition truncSF (s : bool) (m : positive) (e : Z) : Z :=
  if 0 <=? e then signed s m * 2 ^ e else Z.quot (signed s m) (2 ^ (- e)).

(** [floor(x + 1/2)] computed exactly. *)
Definition roundSF (s : bool) (m : positive) (e : Z) : Z :=
  if 0 <=? e then signed s m * 2 ^ e
  else (2 * signed s m + 2 ^ (- e)) / 2 ^ (- e + 1).

(** [Math.floor], [Math.round], [Math.abs], [Math.sqrt], [Math.min],
    [Math.max]. *)
Definition Math_floor (x : Number) : Number :=
  match Prim2SF x with
  | S754_finite s m e =>
      if 0 <=? e then x (* an integer already *) else ofZ (floorSF s m e)
  | _ => x
  end.

Definition Math_round (x : Number) : Number :=
  match Prim2SF x with
  | S754_finite s m e =>
      if 0 <=? e then x (* an integer already *)
      else
        let z := roundSF s m e in
        if (z =? 0) && s then (-0)%float else ofZ z
  | _ => x
  end.

Definition Math_abs (x : Number) : Number := PrimFloat.abs x.
Definition Math_sqrt (x : Number) : Number := PrimFloat.sqrt x.

Definition isNegZero (x : Number) : bool :=
  match classify x with NZero => true | _ => false end.

Definition Math_min (a b : Number) : Number :=
  if is_nan a || is_nan b then nan
  else if (a <? b)%float then a
  else if (b <? a)%float then b
  else if isNegZero a then a else b.

Definition Math_max (a b : Number) : Number :=
  if is_nan a || is_nan b then nan
  else if (a <? b)%float then b
  else if (b <? a)%float then a
  else if isNegZero a then b else a.

(** [a > b] and [a !== b] on numbers. *)
Definition gt (a b : Number) : bool := (b <? a)%float.
Definition neq (a b : Number) : bool := negb (a =? b)%float.

(** The integer a number denotes after truncation ([None]: NaN or
    infinite). *)
Definition truncZ (x : Number) : option Z :=
  match Prim2SF x with
  | S754_zero _ => Some 0
  | S754_finite s m e => Some (truncSF s m e)
  | _ => None
  end.

Definition floorZ (x : Number) : option Z :=
  match Prim2SF x with
  | S754_zero _ => Some 0
  | S754_finite s m e => Some (floorSF s m e)
  | _ => None
  end.

(** Store conversion of [Uint8Array]: truncate, then reduce modulo 256;
    NaN and the infinities become 0. *)
Definition ToUint8 (x : Number) : Z :=
  match truncZ x with
  | Some z => z mod 256
  | None => 0
  end.

(** Store conversion of [Uint8ClampedArray]: NaN becomes 0, the value is
    clamped to [0, 255] and rounded to the nearest integer, ties to
    even. *)
Definition ToUint8Clamp (x : Number) : Z :=
  if is_nan x then 0
  else if (x <=? 0)%float then 0
  else if (255 <=? x)%float then 255
  else
    match floorZ x with
    | Some f =>
        let half := (ofZ f + 0.5)%float in
        if (x <? half)%float then f
        else if (half <? x)%float then f + 1
        else if Z.even f then f else f + 1
    | None => 0
    end.

End JS.

(** ** Typed arrays *)
Module TypedArray.
Import JS.

(** The content of a [Uint8ClampedArray] or of a [Uint8Array]. *)
Abbreviation bytes := (list Z).

(** [a[i]] read as a number: [undefined] becomes NaN in arithmetic. *)
Definition get (a : bytes) (i : nat) : Number :=
  match a !! i with
  | Some v => ofZ v
  | None => nan
  end.

(** [a[i] = x] on a [Uint8ClampedArray] and on a [Uint8Array]; a store
    past the end is dropped. *)
Definition setClamped (a : bytes) (i : nat) (x : Number) : bytes :=
  <[i := ToUint8Clamp x]> a.

Definition setUint8 (a : bytes) (i : nat) (x : Number) : bytes :=
  <[i := ToUint8 x]> a.

(** [new Uint8Array(n)]. *)
Definition newUint8Array (n : nat) : bytes := replicate n 0.

End TypedArray.

Import JS TypedArray.

(** ** Loops over the pixels of an image buffer *)
Module Loop.

(** [for (let i = 0; i < a.length; i += 4) body]: the iteration of pixel
    [k] runs the body at [i = 4 * k]; [n] iterations remain. *)
Fixpoint forPixelsFrom {St : Type} (n k : nat) (body : nat -> St -> St)
    (s : St) : St :=
  match n with
  | O => s
  | S n' => forPixelsFrom n' (S k) body (body (4 * k)%nat s)
  end.

(** The number of iterations: the least [n] with [4 * n >= a.length]. *)
Definition pixelCount (a : bytes) : nat := ((length a + 3) / 4)%nat.

Definition eachPixel (body : nat -> bytes -> bytes) (a : bytes) : bytes :=
  forPixelsFrom (pixelCount a) 0 body a.

(** [for (let v = lo; v < hi; v++) body]. *)
Definition forRange {St : Type} (lo hi : nat) (body : nat -> St -> St)
    (s : St) : St :=
  foldl (fun s v => body v s) s (seq lo (hi - lo)).

(** A body that stores only to the three colour bytes of its pixel. *)
Definition storesColourOnly (body : nat -> bytes -> bytes) : Prop :=
  forall (i : nat) (a : bytes) (j : nat),
    (j < i \/ i + 3 <= j)%nat -> body i a !! j = a !! j.

(** A body whose stores depend on the bytes of its own pixel only. *)
Definition readsOwnPixel (body : nat -> bytes -> bytes) : Prop :=
  forall (i : nat) (a a' : bytes),
    (forall j : nat, (i <= j < i + 4)%nat -> a !! j = a' !! j) ->
    forall j : nat, (i <= j < i + 4)%nat -> body i a !! j = body i a' !! j.

Lemma forPixelsFrom_invariant {St : Type} (P : St -> Prop)
    (body : nat -> St -> St) :
  (forall (k : nat) (s : St), P s -> P (body (4 * k)%nat s)) ->
  forall (n k : nat) (s : St), P s -> P (forPixelsFrom n k body s).
Proof.
  intros Hstep n. induction n as [|n IH]; intros k s Hs; cbn [forPixelsFrom].
  - exact Hs.
  - apply IH, Hstep, Hs.
Qed.

Lemma forPixelsFrom_add {St : Type} (body : nat -> St -> St) (n m k : nat)
    (s : St) :
  forPixelsFrom (n + m) k body s =
  forPixelsFrom m (k + n) body (forPixelsFrom n k body s).
Proof.
  revert k s. induction n as [|n IH]; intros k s; cbn [forPixelsFrom Nat.add].
  - by rewrite Nat.add_0_r.
  - rewrite IH. by replace (S k + n)%nat with (k + S n)%nat by lia.
Qed.

Lemma forPixelsFrom_length (body : nat -> bytes -> bytes) :
  (forall i a, length (body i a) = length a) ->
  forall n k a, length (forPixelsFrom n k body a) = length a.
Proof.
  intros Hlen n k a.
  apply (forPixelsFrom_invariant (fun b => length b = length a)); [|done].
  intros k' s Hs. by rewrite Hlen.
Qed.

Section Frame.
Variable body : nat -> bytes -> bytes.
Hypothesis Hframe : storesColourOnly body.

(** Bytes before the first pixel of the remaining iterations stay. *)
Lemma forPixelsFrom_before (n k : nat) (a : bytes) (j : nat) :
  (j < 4 * k)%nat -> forPixelsFrom n k body a !! j = a !! j.
Proof.
  revert k a. induction n as [|n IH]; intros k a Hj; cbn [forPixelsFrom]; [done|].
  rewrite IH by lia. apply Hframe. lia.
Qed.

(** Bytes after the last pixel of the iterations stay. *)
Lemma forPixelsFrom_after (n k : nat) (a : bytes) (j : nat) :
  (4 * (k + n) <= j)%nat -> forPixelsFrom n k body a !! j = a !! j.
Proof.
  revert k a. induction n as [|n IH]; intros k a Hj; cbn [forPixelsFrom]; [done|].
  rewrite IH by lia. apply Hframe. lia.
Qed.

(** The alpha byte of every pixel stays. *)
Lemma forPixelsFrom_alpha (n k : nat) (a : bytes) (j : nat) :
  (j mod 4 = 3)%nat -> forPixelsFrom n k body a !! j = a !! j.
Proof.
  intros Hj. revert k a. induction n as [|n IH]; intros k a; cbn [forPixelsFrom]; [done|].
  rewrite IH. apply Hframe.
  pose proof (Nat.div_mod_eq j 4). lia.
Qed.

(** The bytes of pixel [p] are those its own iteration leaves. *)
Lemma forPixelsFrom_at (n p : nat) (a : bytes) (j : nat) :
  (p < n)%nat -> (4 * p <= j < 4 * p + 4)%nat ->
  forPixelsFrom n 0 body a !! j =
  body (4 * p)%nat (forPixelsFrom p 0 body a) !! j.
Proof.
  intros Hp Hj.
  replace n with (p + S (n - S p))%nat by lia.
  rewrite forPixelsFrom_add. cbn [forPixelsFrom Nat.add].
  apply forPixelsFrom_before. lia.
Qed.

(** A body that reads its own pixel only sees the input there. *)
Lemma forPixelsFrom_own (n p : nat) (a : bytes) (j : nat) :
  readsOwnPixel body ->
  (p < n)%nat -> (4 * p <= j < 4 * p + 4)%nat ->
  forPixelsFrom n 0 body a !! j = body (4 * p)%nat a !! j.
Proof.
  intros Hown Hp Hj. rewrite (forPixelsFrom_at n p) by done.
  apply Hown; [|done].
  intros j' Hj'. apply forPixelsFrom_after. lia.
Qed.

End Frame.

End Loop.

Import Loop.

(** ** Raster buffers and the browser's canvas *)

(** The pixels of a canvas, of a decoded bitmap or of an [ImageData]:
    [data] holds four bytes (R, G, B, A) per pixel, row by row. *)
Record Raster := mkRaster {
  width : nat;
  height : nat;
  data : bytes
}.

Definition isByte (v : Z) : Prop := 0 <= v <= 255.

(** The invariant of [ImageData]. *)
Definition wellFormed (r : Raster) : Prop :=
  (0 < width r)%nat /\ (0 < height r)%nat /\
  length (data r) = (4 * (width r * height r))%nat /\
  Forall isByte (data r).

(** The entries of a CSS filter list, as the pipelines build it. *)
Inductive Filter :=
| Brightness (percent : Number)
| Contrast (percent : Number)
| Blur (px : Number)
| Saturate (percent : Number)
| Sepia (percent : Number)
| HueRotate (deg : Number)
| Invert100
| Grayscale100.

Inductive MirrorAxis := vertical | horizontal | both.

(** A [Blob] or [File] as the browser hands it out: its MIME type and its
    bytes. *)
Record Blob := {
  blobType : string;
  blobBytes : bytes
}.

(** What the code asks of the browser, of the JavaScript engine and of the
    package [browser-image-compression].  Each field stands for the calls
    named in its comment; the repository contributes their arguments only.
    A call that can raise returns an option. *)
Class Host := {
  (** [document.createElement('canvas').getContext('2d')]: whether a fresh
      canvas yields a context rather than [null]. *)
  getContext2d : bool;
  (** [ctx.clearRect]; [ctx.save]; [translate(w/2, h/2)];
      [rotate(rotation * PI / 180)]; [scale(flipX ? -1 : 1, flipY ? -1 : 1)];
      [translate(-w/2, -h/2)]; [drawImage(img, 0, 0)]; [restore], on a canvas
      of the size of the image. *)
  drawTransformed : Number -> bool -> bool -> Raster -> Raster;
  (** [drawImage] into a temporary canvas of size [w / pixelate] by
      [h / pixelate], [clearRect], and [drawImage] of it back at full size;
      raises when the temporary canvas is empty. *)
  drawPixelated : Number -> Raster -> option Raster;
  (** [tempCtx.filter = filters; tempCtx.drawImage(canvas, 0, 0)] on a fresh
      canvas of the same size. *)
  drawFiltered : list Filter -> Raster -> Raster;
  (** [fillStyle = colour; globalCompositeOperation = 'multiply';
      globalAlpha = alpha; fillRect(0, 0, w, h)] on a context whose
      [filter] is the given list (the empty list for a context whose filter
      was never set): a canvas filter applies to whatever is drawn, a filled
      rectangle included. *)
  fillMultiply : list Filter -> string -> Number -> Raster -> Raster;
  (** The kaleidoscope block: [segments] rotated [drawImage]s of the canvas
      into a temporary canvas, drawn back with [ctx.drawImage(tempCanvas, 0, 0)]. *)
  drawKaleidoscope : Number -> Raster -> Raster;
  (** The mirror block: [ctx.scale(-1, 1); ctx.drawImage(canvas, -w, 0)]
      and/or [ctx.scale(1, -1); ctx.drawImage(canvas, 0, -h)]. *)
  drawMirrored : MirrorAxis -> Raster -> Raster;
  (** [ctx.putImageData(ctx.getImageData(0, y, w, sliceHeight), offset, y)];
      [getImageData] raises on an empty rectangle. *)
  moveSlice : Number -> Number -> Number -> Raster -> option Raster;
  (** [Math.pow]. *)
  Math_pow : Number -> Number -> Number;
  (** [canvas.toBlob(callback, type, quality)]: the blob the callback is
      called with, [None] for [null].  The browser chooses the encoding
      and with it the type of the blob. *)
  toBlob : Raster -> string -> option Number -> option Blob;
  (** [imageCompression(file, { maxSizeMB: 25, maxWidthOrHeight: 4096,
      useWebWorker: true, fileType, quality })]: the compressed file, or
      [None] when the promise is rejected. *)
  imageCompression : Blob -> string -> Number -> option Blob
}.

(** [ctx.getImageData(0, 0, canvas.width, canvas.height).data], a copy of
    the pixels, and [ctx.putImageData(imageData, 0, 0)], which replaces every
    pixel of the canvas whatever the transform and compositing state.

    A [Raster] that stands for a canvas holds the array a call of
    [getImageData] returns, and after [putImageData] the array that was
    written.  What a browser keeps of a written array is its own matter: a
    canvas that stores premultiplied colours gives back changed colour
    bytes where alpha is below 255 (and 0, 0, 0 where alpha is 0).  The
    facts below about a function of the repository are therefore facts
    about the array it reads and the array it writes in one call. *)
Definition getImageData (canvas : Raster) : bytes := data canvas.

Definition putImageData (canvas : Raster) (pixels : bytes) : Raster :=
  mkRaster (width canvas) (height canvas) pixels.

(** ** The stage library shared by conversion and preview *)
Module Stages.

(** [i % m === 0]; the remainder by 0 is NaN. *)
Definition remIsZero (i m : nat) : bool :=
  negb (m =? 0)%nat && (i mod m =? 0)%nat.

(** [pixels[i - back]]: a negative index reads [undefined]. *)
Definition getBefore (a : bytes) (i back : nat) : Number :=
  if (back <=? i)%nat then get a (i - back) else nan.

(** The body of the emboss loop at byte offset [i]. *)
Definition embossBody (width : nat) (i : nat) (pixels : bytes) : bytes :=
  if remIsZero i (width * 4) then pixels
  else
    let factor := 2%float in
    let r := (get pixels i - getBefore pixels i 4)%float in
    let g := (get pixels (i + 1) - getBefore pixels i 3)%float in
    let b := (get pixels (i + 2) - getBefore pixels i 2)%float in
    let pixels := setClamped pixels i (128 + factor * r) in
    let pixels := setClamped pixels (i + 1) (128 + factor * g) in
    let pixels := setClamped pixels (i + 2) (128 + factor * b) in
    pixels.

(** [if (emboss) { getImageData; for ...; putImageData }]. *)
Definition emboss (canvas : Raster) : Raster :=
  let pixels := getImageData canvas in
  let pixels := eachPixel (embossBody (width canvas)) pixels in
  putImageData canvas pixels.

(** The filter list: six entries always, [invert] and [grayscale] when
    set ([filter(Boolean)] drops the empty strings). *)
Definition filterList (brightness contrast blur saturation sepia hueRotate : Number)
    (invert grayscale : bool) : list Filter :=
  [Brightness brightness; Contrast contrast; Blur blur; Saturate saturation;
   Sepia sepia; HueRotate hueRotate]
  ++ (if invert then [Invert100] else [])
  ++ (if grayscale then [Grayscale100] else []).

End Stages.

(** ** Results of code that can raise *)

Inductive Error :=
| InvalidImage | NoCanvasContext | UndecodableImage | CanvasError.

(** A settled promise: rejected with an error or fulfilled with a value. *)
Definition Promise (A : Type) : Type := Error + A.

Definition bindPromise {A B : Type} (p : Promise A) (k : A -> Promise B)
    : Promise B :=
  match p with
  | inl e => inl e
  | inr a => k a
  end.

Notation "'await' x <- p ;; k" := (bindPromise p (fun x => k))
  (at level 10, x name, p at level 99, k at level 200).

Definition orRaise {A : Type} (e : Error) (o : option A) : Promise A :=
  match o with
  | Some a => inr a
  | None => inl e
  end.

(** What becomes of a promise that is awaited: it is fulfilled, it is
    rejected, or it stays pending for ever because nothing resolves it. *)
Inductive Async (A : Type) : Type :=
| Fulfilled (value : A)
| Rejected (reason : Error)
| NeverSettles.

Arguments Fulfilled {A} value.
Arguments Rejected {A} reason.
Arguments NeverSettles {A}.

Definition isRejected {A : Type} (p : Async A) : bool :=
  match p with
  | Rejected _ => true
  | _ => false
  end.

Definition isPending {A : Type} (p : Async A) : bool :=
  match p with
  | NeverSettles => true
  | _ => false
  end.

(** ** Conversion: [useImageProcessor] *)
Module ImageProcessor.

Record ProcessingOptions := {
  format : string;
  quality : Number;
  brightness : Number;
  contrast : Number;
  rotation : Number;
  flipX : bool;
  flipY : bool;
  blur : Number;
  saturation : Number;
  sepia : Number;
  hueRotate : Number;
  invert : bool;
  grayscale : bool;
  pixelate : Number;
  emboss : bool;
  tintColor : string;
  tintIntensity : Number
}.

(** A [File]: its name, byte size and MIME type, and what
    [createImageBitmap] makes of its bytes ([None]: it rejects). *)
Record File := {
  name : string;
  size : Z;
  type : string;
  bitmap : option Raster
}.

Definition MAX_FILE_SIZE : Z := 25 * 1024 * 1024.

(** The test [!file] of the source has no counterpart: a [File] record
    is never [null]. *)
Definition validateImage (file : File) : bool :=
  if MAX_FILE_SIZE <? size file then false
  else if negb (String.prefix "image/" (type file)) then false
  else true.

Section WithHost.
Context {host : Host}.

(** The canvas work of [processImage], from the decoded bitmap to the
    canvas that is encoded. *)
Definition render (options : ProcessingOptions) (img : Raster)
    : Promise Raster :=
  (* Apply transformations, draw the image *)
  let canvas :=
    drawTransformed (rotation options) (flipX options) (flipY options) img in
  (* Apply pixelation *)
  await canvas <- (if gt (pixelate options) 1
             then orRaise CanvasError (drawPixelated (pixelate options) canvas)
             else inr canvas) ;;
  (* Apply emboss effect *)
  let canvas := if emboss options then Stages.emboss canvas else canvas in
  (* Apply filters *)
  let filters :=
    Stages.filterList (brightness options) (contrast options) (blur options)
      (saturation options) (sepia options) (hueRotate options)
      (invert options) (grayscale options) in
  let tempCanvas := drawFiltered filters canvas in
  (* Apply color tint: [tempCtx.filter] is still set *)
  let tempCanvas :=
    if negb (String.eqb (tintColor options) "none")
    then fillMultiply filters (tintColor options) (tintIntensity options / 100)
           tempCanvas
    else tempCanvas in
  inr tempCanvas.

(** The callback handed to [tempCanvas.toBlob], an [async] function
    inside [new Promise((resolve) => ...)].  When the blob is [null] the
    callback throws, and when [imageCompression] is rejected its [await]
    throws: either way the promise of the callback is rejected, which
    nothing observes, and [resolve] is never called. *)
Definition toBlobCallback (options : ProcessingOptions) (blob : option Blob)
    : Async Blob :=
  match blob with
  | None => NeverSettles
  | Some blob =>
      (* Compress the image if needed *)
      if negb (String.eqb (format options) "png")
         && (quality options <? 100)%float
      then
        let file := {| blobType := "image/" ++ format options;
                       blobBytes := blobBytes blob |} in
        match imageCompression file ("image/" ++ format options)
                (quality options / 100) with
        | Some compressedFile => Fulfilled compressedFile
        | None => NeverSettles
        end
      else Fulfilled blob
  end.

(** [tempCanvas.toBlob(callback, `image/${format}`, quality)], the quality
    being [undefined] for PNG. *)
Definition encode (options : ProcessingOptions) (tempCanvas : Raster)
    : Async Blob :=
  toBlobCallback options
    (toBlob tempCanvas ("image/" ++ format options)
       (if String.eqb (format options) "png" then None
        else Some (quality options / 100)%float)).

(** [createImageBitmap] rejects on bytes it cannot decode.  The two
    contexts asked for with [getContext('2d')!] further down, which the
    source does not test, are those of fresh canvases as well and are taken
    to exist when the first one does. *)
Definition processImage (sourceImage : File) (options : ProcessingOptions)
    : Async Blob :=
  if negb (validateImage sourceImage) then Rejected InvalidImage
  else
    (* try: whatever is thrown is thrown again by the catch block *)
    if negb getContext2d then Rejected NoCanvasContext
    else
      match bitmap sourceImage with
      | None => Rejected UndecodableImage
      | Some img =>
          match render options img with
          | inl e => Rejected e
          | inr tempCanvas => encode options tempCanvas
          end
      end.

(** [name.split('.')[0]]. *)
Fixpoint beforeDot (s : string) : string :=
  match s with
  | EmptyString => EmptyString
  | String c rest =>
      if Ascii.eqb c "." then EmptyString else String c (beforeDot rest)
  end.

Definition memberName (file : File) (options : ProcessingOptions) : string :=
  beforeDot (name file) ++ "-converted." ++ format options.

(** What the user sees of [convertImage]: the download of the processed
    blob under [link.download]; the toast [Failed to convert image] of the
    catch block; or nothing at all when the awaited promise never settles,
    in which case the [finally] block is not reached either and
    [isProcessing] stays [true]. *)
Inductive ConvertOutcome :=
| Downloaded (download : string) (content : Blob)
| ConvertFailed
| ConvertPending.

Definition convertImage (sourceImage : File) (options : ProcessingOptions)
    : ConvertOutcome :=
  (* try *)
  match processImage sourceImage options with
  | Fulfilled processedBlob =>
      let originalName := beforeDot (name sourceImage) in
      Downloaded (originalName ++ "-converted." ++ format options) processedBlob
  | Rejected _ => (* catch *) ConvertFailed
  | NeverSettles => ConvertPending
  end.

(** A [JSZip] archive: its members in the order they were added;
    [zip.file(name, data)] replaces a member of the same name. *)
Definition Zip := list (string * Blob).

Fixpoint zipFile (member : string) (content : Blob) (zip : Zip) : Zip :=
  match zip with
  | [] => [(member, content)]
  | (m, c) :: rest =>
      if String.eqb m member then (m, content) :: rest
      else (m, c) :: zipFile member content rest
  end.

(** What the user sees of [convertBatch]: the archive
    [converted-images.zip] is downloaded and a success toast counts the
    files; the catch block shows the toast [Failed to convert images]; or
    nothing happens because [Promise.all] never settles. *)
Inductive BatchOutcome :=
| BatchDownloaded (archive : Zip) (converted : nat)
| BatchFailed
| BatchPending.

(** The rest of the callback of [files.map] once its [processImage] is
    fulfilled: it adds the member to the shared [zip]. *)
Definition addMember (options : ProcessingOptions) (zip : Zip) (file : File)
    : Zip :=
  match processImage file options with
  | Fulfilled processedBlob => zipFile (memberName file options) processedBlob zip
  | _ => zip
  end.

(** [files.map] starts one callback per file, in the order of [files];
    the callbacks run concurrently and each adds its member when its own
    conversion is done.  [settled] lists the files in the order in which
    that happens: the browser decides it, and it is a permutation of
    [files].

    [await Promise.all(processPromises)] is rejected as soon as one promise
    is, whatever becomes of the others, and then the catch block runs; it
    is fulfilled when every promise is; otherwise it stays pending.
    [zip.generateAsync] is taken to write the archive it is asked for. *)
Definition convertBatch (settled files : list File) (options : ProcessingOptions)
    : BatchOutcome :=
  (* try *)
  let processPromises := map (fun file => processImage file options) files in
  if existsb isRejected processPromises then (* catch *) BatchFailed
  else if existsb isPending processPromises then BatchPending
  else
    let zip := foldl (addMember options) [] settled in
    BatchDownloaded zip (length files).

End WithHost.
End ImageProcessor.

(** ** Preview: [usePreviewEffect] *)
Module PreviewEffect.

Record PreviewEffectProps := {
  brightness : Number;
  contrast : Number;
  rotation : Number;
  flipX : bool;
  flipY : bool;
  blur : Number;
  saturation : Number;
  sepia : Number;
  hueRotate : Number;
  invert : bool;
  grayscale : bool;
  pixelate : Number;
  emboss : bool;
  tintColor : string;
  tintIntensity : Number
}.

Section WithHost.
Context {host : Host}.

(** The canvas work of [generatePreview], up to the canvas whose data URL
    is returned. *)
Definition generatePreview (props : PreviewEffectProps) (img : Raster)
    : Promise Raster :=
  (* Apply transformations, draw image *)
  let canvas :=
    drawTransformed (rotation props) (flipX props) (flipY props) img in
  (* Apply pixelation if needed *)
  await canvas <- (if gt (pixelate props) 1
             then orRaise CanvasError (drawPixelated (pixelate props) canvas)
             else inr canvas) ;;
  (* Apply emboss effect if enabled *)
  let canvas := if emboss props then Stages.emboss canvas else canvas in
  (* Apply color tint if enabled *)
  let canvas :=
    if negb (String.eqb (tintColor props) "none")
    then fillMultiply [] (tintColor props) (tintIntensity props / 100) canvas
    else canvas in
  (* Apply other effects *)
  let filters :=
    Stages.filterList (brightness props) (contrast props) (blur props)
      (saturation props) (sepia props) (hueRotate props)
      (invert props) (grayscale props) in
  let tempCanvas := drawFiltered filters canvas in
  inr tempCanvas.

End WithHost.
End PreviewEffect.

(** ** The application: [App] *)
Module App.
Import ImageProcessor.

(** [prev.filter((_, i) => i !== index)], the elements counted from
    [from]. *)
Fixpoint filterIndexFrom (from index : nat) (prev : list File) : list File :=
  match prev with
  | [] => []
  | file :: rest =>
      if (from =? index)%nat then filterIndexFrom (S from) index rest
      else file :: filterIndexFrom (S from) index rest
  end.

(** [setBatchFiles(prev => [...prev, ...validFiles].slice(0, 10))]. *)
Definition handleBatchAdd (files prev : list File) : list File :=
  let validFiles := List.filter validateImage files in
  take 10 (prev ++ validFiles).

Definition handleBatchRemove (index : nat) (prev : list File) : list File :=
  filterIndexFrom 0 index prev.

(** [if (validateImage(file)) setSourceImage(file)]. *)
Definition handleImageDrop (file : File) (sourceImage : option File)
    : option File :=
  if validateImage file then Some file else sourceImage.

(** What changes [batchFiles]: the drop zone of the batch panel and the
    remove button of an entry. *)
Inductive BatchEvent :=
| FilesAdded (files : list File)
| FileRemoved (index : nat).

Definition batchStep (batchFiles : list File) (event : BatchEvent) : list File :=
  match event with
  | FilesAdded files => handleBatchAdd files batchFiles
  | FileRemoved index => handleBatchRemove index batchFiles
  end.

(** [batchFiles] after a sequence of events, from the initial empty list. *)
Definition batchFilesAfter (events : list BatchEvent) : list File :=
  foldl batchStep [] events.

End App.

(** ** The order of binary64 numbers *)
Module FloatOrder.

Ltac compare_cases :=
  repeat match goal with
  | H : context [Pos.compare_cont Eq ?x ?y] |- _ =>
      change (Pos.compare_cont Eq x y) with (Pos.compare x y) in H
  | |- context [Pos.compare_cont Eq ?x ?y] =>
      change (Pos.compare_cont Eq x y) with (Pos.compare x y)
  | H : context [Z.compare ?x ?y] |- _ =>
      destruct (Z.compare_spec x y); simpl in H
  | H : context [Pos.compare ?x ?y] |- _ =>
      destruct (Pos.compare_spec x y); simpl in H
  | |- context [Z.compare ?x ?y] => destruct (Z.compare_spec x y); simpl
  | |- context [Pos.compare ?x ?y] => destruct (Pos.compare_spec x y); simpl
  end.

Lemma SFltb_trans (x y z : spec_float) :
  SFltb x y = true -> SFltb y z = true -> SFltb x z = true.
Proof.
  unfold SFltb, SFcompare.
  destruct x as [[]|[]| |[] mx ex], y as [[]|[]| |[] my ey],
    z as [[]|[]| |[] mz ez]; simpl; try congruence;
    intros Hxy Hyz; compare_cases; subst; try congruence; try lia.
Qed.

Lemma SFltb_nan_r (x : spec_float) : SFltb x S754_nan = false.
Proof. by destruct x. Qed.

(** Two numbers neither of which is below the other compare alike with
    any third. *)
Lemma SFltb_equiv_r (x y z : spec_float) :
  y <> S754_nan -> z <> S754_nan ->
  SFltb y z = false -> SFltb z y = false -> SFltb x y = SFltb x z.
Proof.
  unfold SFltb, SFcompare.
  destruct x as [[]|[]| |[] mx ex], y as [[]|[]| |[] my ey],
    z as [[]|[]| |[] mz ez]; simpl; try congruence;
    intros _ _ Hyz Hzy; compare_cases; subst; try congruence; try lia.
Qed.

Lemma SFeqb_refl (x : spec_float) : x <> S754_nan -> SFeqb x x = true.
Proof.
  unfold SFeqb, SFcompare. destruct x as [[]|[]| |[] mx ex]; try congruence;
    intros _; rewrite Z.compare_refl;
    change (Pos.compare_cont Eq mx mx) with (Pos.compare mx mx);
    by rewrite Pos.compare_refl.
Qed.

Lemma is_nan_spec (x : float) : is_nan x = true -> Prim2SF x = S754_nan.
Proof.
  unfold is_nan. rewrite FloatAxioms.eqb_spec. intros H.
  destruct (Prim2SF x) eqn:Hx; try done; by rewrite SFeqb_refl in H.
Qed.

Lemma is_nan_false (x : float) : is_nan x = false -> Prim2SF x <> S754_nan.
Proof.
  unfold is_nan. rewrite FloatAxioms.eqb_spec. intros H Hn.
  rewrite Hn in H. discriminate.
Qed.

Lemma ltb_nan_r (t x : float) : is_nan x = true -> (t <? x)%float = false.
Proof.
  intros H. rewrite FloatAxioms.ltb_spec, (is_nan_spec x H).
  apply SFltb_nan_r.
Qed.

Lemma ltb_trans (x y z : float) :
  (x <? y)%float = true -> (y <? z)%float = true -> (x <? z)%float = true.
Proof. rewrite !FloatAxioms.ltb_spec. apply SFltb_trans. Qed.

(** A number is below the least of two exactly when it is below both. *)
Lemma gt_Math_min (a b t : Number) :
  gt (Math_min a b) t = gt a t && gt b t.
Proof.
  unfold gt, Math_min.
  destruct (is_nan a) eqn:Ha.
  { cbn [orb]. rewrite (ltb_nan_r t a Ha). by rewrite (ltb_nan_r t nan). }
  destruct (is_nan b) eqn:Hb.
  { cbn [orb]. rewrite (ltb_nan_r t b Hb), andb_false_r.
    by rewrite (ltb_nan_r t nan). }
  cbn [orb].
  destruct (a <? b)%float eqn:Hab.
  { destruct (t <? a)%float eqn:Hta; [|done].
    by rewrite (ltb_trans t a b Hta Hab). }
  destruct (b <? a)%float eqn:Hba.
  { destruct (t <? b)%float eqn:Htb; [|by rewrite andb_false_r].
    by rewrite (ltb_trans t b a Htb Hba). }
  assert (Heq : (t <? a)%float = (t <? b)%float).
  { rewrite !FloatAxioms.ltb_spec in *.
    apply SFltb_equiv_r; auto using is_nan_false. }
  destruct (isNegZero a); rewrite Heq; by destruct (t <? b)%float.
Qed.

End FloatOrder.

(** ** Checking a property of every byte by evaluation *)
Module Bytes.

Definition byteRange : list Z := map Z.of_nat (seq 0 256).

Definition forBytes (P : Z -> bool) : bool := forallb P byteRange.

(** The integers from [lo] to [hi]. *)
Definition zRange (lo hi : Z) : list Z :=
  map (fun k => lo + Z.of_nat k) (seq 0 (Z.to_nat (hi - lo + 1))).

Definition clampByte (z : Z) : Z := Z.max 0 (Z.min 255 z).

Lemma zRange_complete (lo hi v : Z) : lo <= v <= hi -> In v (zRange lo hi).
Proof.
  intros Hv. unfold zRange. apply in_map_iff.
  exists (Z.to_nat (v - lo)). split; [lia|].
  apply in_seq. lia.
Qed.

Lemma byteRange_complete (v : Z) : isByte v -> In v byteRange.
Proof.
  intros Hv. unfold byteRange. apply in_map_iff.
  exists (Z.to_nat v). unfold isByte in Hv. split; [lia|].
  apply in_seq. lia.
Qed.

Lemma forBytes_spec (P : Z -> bool) :
  forBytes P = true -> forall v, isByte v -> P v = true.
Proof.
  intros HP v Hv. unfold forBytes in HP.
  rewrite forallb_forall in HP. apply HP, byteRange_complete, Hv.
Qed.

Lemma forallb_zRange (P : Z -> bool) (lo hi : Z) :
  forallb P (zRange lo hi) = true -> forall v, lo <= v <= hi -> P v = true.
Proof.
  intros HP v Hv. rewrite forallb_forall in HP.
  apply HP, zRange_complete, Hv.
Qed.

Lemma clampByte_isByte (z : Z) : isByte (clampByte z).
Proof. unfold isByte, clampByte. lia. Qed.

(** Storing a small integer in a clamped array clamps it. *)
Lemma ToUint8Clamp_ofZ (z : Z) :
  -1024 <= z <= 1024 -> ToUint8Clamp (ofZ z) = clampByte z.
Proof.
  intros Hz.
  assert (H : forallb (fun z => ToUint8Clamp (ofZ z) =? clampByte z)
                (zRange (-1024) 1024) = true) by (vm_compute; reflexivity).
  apply Z.eqb_eq. revert z Hz. apply forallb_zRange, H.
Qed.

End Bytes.

Import Bytes.

(** ** Facts about the emboss stage *)
Module EmbossFacts.
Import Stages.

(** The arithmetic of one channel is exact on bytes. *)
Lemma emboss_arith_exact (cur prev : Z) :
  isByte cur -> isByte prev ->
  (128 + 2 * (ofZ cur - ofZ prev))%float = ofZ (128 + 2 * (cur - prev)).
Proof.
  intros Hc Hp.
  assert (H : forBytes (fun c => forBytes (fun p =>
                PrimFloat.Leibniz.eqb (128 + 2 * (ofZ c - ofZ p))
                  (ofZ (128 + 2 * (c - p))))) = true)
    by (vm_compute; reflexivity).
  apply FloatAxioms.Leibniz.eqb_spec.
  apply (forBytes_spec _ (forBytes_spec _ H cur Hc) prev Hp).
Qed.

Lemma emboss_store (cur prev : Z) :
  isByte cur -> isByte prev ->
  ToUint8Clamp (128 + 2 * (ofZ cur - ofZ prev)) =
  clampByte (128 + 2 * (cur - prev)).
Proof.
  intros Hc Hp. rewrite emboss_arith_exact by done.
  apply ToUint8Clamp_ofZ. unfold isByte in *. lia.
Qed.

Lemma embossBody_length (w i : nat) (a : bytes) :
  length (embossBody w i a) = length a.
Proof.
  unfold embossBody, setClamped. destruct (remIsZero i (w * 4)); [done|].
  cbv zeta. by rewrite !length_insert.
Qed.

Lemma embossBody_frame (w : nat) : storesColourOnly (embossBody w).
Proof.
  intros i a j Hj. unfold embossBody, setClamped.
  destruct (remIsZero i (w * 4)); [done|].
  cbv zeta. rewrite !list_lookup_insert_ne by lia. done.
Qed.

Lemma remIsZero_first (w p : nat) :
  (0 < w)%nat -> (p mod w = 0)%nat -> remIsZero (4 * p) (w * 4) = true.
Proof.
  intros Hw Hp. unfold remIsZero.
  rewrite (Nat.mul_comm w 4), Nat.Div0.mul_mod_distr_l, Hp.
  apply andb_true_iff. split; [apply negb_true_iff|]; apply Nat.eqb_neq || apply Nat.eqb_eq; lia.
Qed.

Lemma remIsZero_inner (w p : nat) :
  (p mod w <> 0)%nat -> remIsZero (4 * p) (w * 4) = false.
Proof.
  intros Hp. unfold remIsZero.
  rewrite (Nat.mul_comm w 4), Nat.Div0.mul_mod_distr_l.
  apply andb_false_iff. right. apply Nat.eqb_neq. lia.
Qed.

(** One channel of a pixel that is not first in its row: the stored byte
    is computed from the byte itself and the byte four places before, as
    the buffer holds them when the pixel is reached. *)
Lemma embossBody_channel (w p c : nat) (a : bytes) (cur prev : Z) :
  (p mod w <> 0)%nat -> (c < 3)%nat -> (0 < p)%nat ->
  a !! (4 * p + c)%nat = Some cur ->
  a !! (4 * (p - 1) + c)%nat = Some prev ->
  embossBody w (4 * p) a !! (4 * p + c)%nat =
  Some (ToUint8Clamp (128 + 2 * (ofZ cur - ofZ prev))).
Proof.
  intros Hp Hc Hp0 Hcur Hprev.
  unfold embossBody. rewrite remIsZero_inner by done.
  unfold setClamped, getBefore, get. cbv zeta.
  assert (Hlen : (4 * p + c < length a)%nat) by (by eapply lookup_lt_Some).
  destruct c as [|[|[|c]]]; [| | |lia].
  - rewrite Nat.add_0_r in *.
    rewrite !list_lookup_insert_ne by lia.
    rewrite list_lookup_insert_eq by lia.
    rewrite Hcur.
    replace (4 * p - 4)%nat with (4 * (p - 1))%nat by lia.
    rewrite Hprev.
    by replace (4 <=? 4 * p)%nat with true by (symmetry; apply Nat.leb_le; lia).
  - rewrite !list_lookup_insert_ne by lia.
    rewrite list_lookup_insert_eq by (rewrite length_insert; lia).
    rewrite Hcur.
    replace (4 * p - 3)%nat with (4 * (p - 1) + 1)%nat by lia.
    rewrite Hprev.
    by replace (3 <=? 4 * p)%nat with true by (symmetry; apply Nat.leb_le; lia).
  - rewrite list_lookup_insert_eq by (rewrite !length_insert; lia).
    rewrite Hcur.
    replace (4 * p - 2)%nat with (4 * (p - 1) + 2)%nat by lia.
    rewrite Hprev.
    by replace (2 <=? 4 * p)%nat with true by (symmetry; apply Nat.leb_le; lia).
Qed.

Section Loop.
Variable w : nat.
Variable a : bytes.
Let out : bytes := eachPixel (embossBody w) a.

(** The buffer when the loop reaches pixel [p] holds the final bytes
    before the pixel and the input bytes from the pixel on. *)
Lemma emboss_reached_before (p j : nat) :
  (p <= pixelCount a)%nat -> (j < 4 * p)%nat ->
  forPixelsFrom p 0 (embossBody w) a !! j = out !! j.
Proof.
  intros Hp Hj. unfold out, eachPixel.
  replace (pixelCount a) with (p + (pixelCount a - p))%nat by lia.
  rewrite forPixelsFrom_add. symmetry.
  apply forPixelsFrom_before; [apply embossBody_frame | lia].
Qed.

Lemma emboss_reached_after (p j : nat) :
  (4 * p <= j)%nat -> forPixelsFrom p 0 (embossBody w) a !! j = a !! j.
Proof.
  intros Hj. apply forPixelsFrom_after; [apply embossBody_frame | lia].
Qed.

(** The first pixel of a row keeps its bytes. *)
Lemma emboss_first_of_row (p j : nat) :
  (0 < w)%nat -> (p mod w = 0)%nat -> (4 * p <= j < 4 * p + 4)%nat ->
  out !! j = a !! j.
Proof.
  intros Hw Hp Hj. unfold out, eachPixel.
  destruct (decide (p < pixelCount a)%nat) as [Hlt|Hge].
  - rewrite (forPixelsFrom_at _ (embossBody_frame w) _ p) by done.
    unfold embossBody. rewrite remIsZero_first by done.
    apply emboss_reached_after. lia.
  - apply forPixelsFrom_after; [apply embossBody_frame | lia].
Qed.

(** Every alpha byte stays. *)
Lemma emboss_alpha (j : nat) : (j mod 4 = 3)%nat -> out !! j = a !! j.
Proof. apply forPixelsFrom_alpha, embossBody_frame. Qed.

(** A colour byte of a pixel that is not first in its row: computed from
    the input byte and from the byte the loop left in the pixel before. *)
Lemma emboss_inner (p c : nat) (cur prev : Z) :
  (p mod w <> 0)%nat -> (c < 3)%nat ->
  a !! (4 * p + c)%nat = Some cur ->
  out !! (4 * (p - 1) + c)%nat = Some prev ->
  out !! (4 * p + c)%nat =
  Some (ToUint8Clamp (128 + 2 * (ofZ cur - ofZ prev))).
Proof.
  intros Hp Hc Hcur Hprev.
  assert (Hp0 : (0 < p)%nat).
  { destruct p; [|lia]. by rewrite Nat.Div0.mod_0_l in Hp. }
  assert (Hn : (p < pixelCount a)%nat).
  { apply lookup_lt_Some in Hcur. unfold pixelCount.
    pose proof (Nat.div_mod_eq (length a + 3) 4).
    pose proof (Nat.mod_upper_bound (length a + 3) 4). lia. }
  unfold out, eachPixel.
  rewrite (forPixelsFrom_at _ (embossBody_frame w) _ p) by (done || lia).
  apply embossBody_channel; try done.
  - rewrite emboss_reached_after by lia. done.
  - rewrite emboss_reached_before by lia. done.
Qed.

End Loop.

Lemma wellFormed_byte (canvas : Raster) (j : nat) (v : Z) :
  wellFormed canvas -> data canvas !! j = Some v -> isByte v.
Proof.
  intros (_ & _ & _ & Hb) Hj. by eapply Forall_lookup_1.
Qed.

(** C5, as amended: the emboss stage leaves the first pixel of every row
    and every alpha byte as they were, and maps each colour channel of the
    pixel that follows the first pixel of a row to 128 + 2 * (cur - prev)
    clamped to [0, 255], where cur and prev are the input values of the
    pixel and of its left neighbour. *)
Theorem emboss_clamped (canvas : Raster) :
  wellFormed canvas ->
  let inp := data canvas in
  let out := data (emboss canvas) in
  (forall p j : nat, (p mod width canvas = 0)%nat ->
     (4 * p <= j < 4 * p + 4)%nat -> out !! j = inp !! j) /\
  (forall j : nat, (j mod 4 = 3)%nat -> out !! j = inp !! j) /\
  (forall (p c : nat) (cur prev : Z),
     (p mod width canvas = 1)%nat -> (c < 3)%nat ->
     inp !! (4 * p + c)%nat = Some cur ->
     inp !! (4 * (p - 1) + c)%nat = Some prev ->
     out !! (4 * p + c)%nat = Some (clampByte (128 + 2 * (cur - prev)))).
Proof.
  intros Hwf inp out.
  assert (Hw : (0 < width canvas)%nat) by apply Hwf.
  split; [|split].
  - intros p j Hp Hj. by apply emboss_first_of_row with (p := p).
  - intros j Hj. by apply emboss_alpha.
  - intros p c cur prev Hp Hc Hcur Hprev.
    assert (Hfirst : ((p - 1) mod width canvas = 0)%nat).
    { pose proof (Nat.div_mod_eq p (width canvas)) as Hdm.
      replace (p - 1)%nat with (p / width canvas * width canvas)%nat by lia.
      apply Nat.Div0.mod_mul. }
    rewrite <- emboss_store by (by eapply wellFormed_byte).
    apply emboss_inner; [lia | done | done |].
    unfold getImageData.
    rewrite (emboss_first_of_row _ _ (p - 1)) by (done || lia). done.
Qed.

Definition sampleRow : Raster :=
  mkRaster 3 1 [10; 20; 30; 255;  20; 40; 60; 255;  30; 60; 90; 255].

Lemma sampleRow_wellFormed : wellFormed sampleRow.
Proof.
  repeat split; simpl; try lia.
  repeat constructor; unfold isByte; lia.
Defined.

Lemma emboss_clamped_witness :
  data (emboss sampleRow) !! 4%nat = Some 148 /\
  data (emboss sampleRow) !! 7%nat = Some 255.
Proof.
  destruct (emboss_clamped sampleRow sampleRow_wellFormed) as (_ & Ha & Hc).
  split.
  - apply (Hc 1%nat 0%nat 20 10); [reflexivity | lia | reflexivity | reflexivity].
  - rewrite Ha by reflexivity. reflexivity.
Defined.

(** C5, as stated, fails: white after black gives 128 + 2 * 255 = 638 by
    the formula, and the clamped array stores 255. *)
Lemma emboss_saturates :
  let canvas := mkRaster 2 1 [0; 0; 0; 255;  255; 255; 255; 255] in
  data (emboss canvas) !! 4%nat = Some 255 /\
  data (emboss canvas) !! 4%nat <> Some (128 + 2 * (255 - 0)).
Proof.
  cbv zeta. split; [vm_compute; reflexivity|].
  vm_compute. discriminate.
Qed.

(** Further right the loop reads what it has just stored: the third pixel
    of [sampleRow] is computed from the embossed second pixel (148), not
    from its input value (20). *)
Lemma emboss_reads_stored_neighbour :
  data (emboss sampleRow) =
    [10; 20; 30; 255;  148; 168; 188; 255;  0; 0; 0; 255] /\
  clampByte (128 + 2 * (30 - 148)) = 0 /\
  clampByte (128 + 2 * (30 - 20)) = 148.
Proof. repeat split; vm_compute; reflexivity. Qed.

End EmbossFacts.

(** ** Advanced effects: [AdvancedEffects] *)
Module AdvancedEffects.

Record RGB := mkRGB { r : Number; g : Number; b : Number }.

(** The component state read by [applyAdvancedEffects]. *)
Record Settings := {
  noiseAmount : Number;
  kaleidoscope : Number;
  mirror : bool;
  mirrorAxis : MirrorAxis;
  colorSplash : bool;
  targetHue : Number;
  hueTolerance : Number;
  glitchIntensity : Number;
  gamma : Number;
  colorBalance : RGB;
  splitToning : bool;
  highlightColor : string;
  shadowColor : string
}.

(** [Math.max(r, g, b)] and [Math.min(r, g, b)]. *)
Definition Math_max3 (x y z : Number) : Number := Math_max (Math_max x y) z.
Definition Math_min3 (x y z : Number) : Number := Math_min (Math_min x y) z.

Definition rgbToHsl (r g b : Number) : Number * Number * Number :=
  let r := (r / 255)%float in
  let g := (g / 255)%float in
  let b := (b / 255)%float in
  let max := Math_max3 r g b in
  let min := Math_min3 r g b in
  let l := ((max + min) / 2)%float in
  let '(h, s) :=
    if neq max min then
      let d := (max - min)%float in
      let s := if gt l 0.5 then (d / (2 - max - min))%float
               else (d / (max + min))%float in
      let h :=
        (* switch (max) *)
        if (max =? r)%float then
          ((g - b) / d + (if (g <? b)%float then 6 else 0))%float
        else if (max =? g)%float then ((b - r) / d + 2)%float
        else if (max =? b)%float then ((r - g) / d + 4)%float
        else 0%float in
      ((h / 6)%float, s)
    else (0%float, 0%float) in
  ((h * 360)%float, (s * 100)%float, (l * 100)%float).

Definition hexDigit (c : ascii) : option Z :=
  let n := Z.of_nat (nat_of_ascii c) in
  if (48 <=? n) && (n <=? 57) then Some (n - 48)        (* 0-9 *)
  else if (97 <=? n) && (n <=? 102) then Some (n - 87)  (* a-f *)
  else if (65 <=? n) && (n <=? 70) then Some (n - 55)   (* A-F *)
  else None.

(** [/^#?([a-f\d]{2})([a-f\d]{2})([a-f\d]{2})$/i.exec(hex)], and black
    when there is no match. *)
Definition hexToRgb (hex : string) : RGB :=
  let digits :=
    match hex with
    | String "#" rest => rest
    | _ => hex
    end in
  match map hexDigit (list_ascii_of_string digits) with
  | [Some a1; Some a0; Some b1; Some b0; Some c1; Some c0] =>
      mkRGB (ofZ (16 * a1 + a0)) (ofZ (16 * b1 + b0)) (ofZ (16 * c1 + c0))
  | _ => mkRGB 0 0 0
  end.

(** *** The bodies of the loops over [data] *)

(** One [Math.random()] per pixel; [cursor] counts the calls made. *)
Definition noiseBody (random : nat -> Number) (noiseAmount : Number)
    (i : nat) (s : list Z * nat) : list Z * nat :=
  let '(data, cursor) := s in
  let noise := ((random cursor - 0.5) * noiseAmount)%float in
  let data := setClamped data i
                (Math_min 255 (Math_max 0 (get data i + noise))) in
  let data := setClamped data (i + 1)
                (Math_min 255 (Math_max 0 (get data (i + 1) + noise))) in
  let data := setClamped data (i + 2)
                (Math_min 255 (Math_max 0 (get data (i + 2) + noise))) in
  (data, S cursor).

Definition colorSplashBody (targetHue hueTolerance : Number) (i : nat)
    (data : bytes) : bytes :=
  let r := get data i in
  let g := get data (i + 1) in
  let b := get data (i + 2) in
  (* Convert RGB to HSL *)
  let '(h, s, l) := rgbToHsl r g b in
  (* Check if the hue is within the target range *)
  let hueDiff := Math_abs (h - targetHue) in
  if gt hueDiff hueTolerance && gt (360 - hueDiff) hueTolerance then
    (* Convert to grayscale if not in range *)
    let gray := (0.2126 * r + 0.7152 * g + 0.0722 * b)%float in
    let data := setClamped data i gray in
    let data := setClamped data (i + 1) gray in
    let data := setClamped data (i + 2) gray in
    data
  else data.

Definition colorBalanceBody (balance : RGB) (i : nat) (data : bytes) : bytes :=
  let data := setClamped data i
                (Math_min 255 (Math_max 0 (get data i + r balance))) in
  let data := setClamped data (i + 1)
                (Math_min 255 (Math_max 0 (get data (i + 1) + g balance))) in
  let data := setClamped data (i + 2)
                (Math_min 255 (Math_max 0 (get data (i + 2) + b balance))) in
  data.

Definition splitToningBody (highlights shadows : RGB) (i : nat) (data : bytes)
    : bytes :=
  let brightness :=
    ((get data i + get data (i + 1) + get data (i + 2)) / (3 * 255))%float in
  if gt brightness 0.5 then
    let data := setClamped data i ((get data i + r highlights) / 2) in
    let data := setClamped data (i + 1) ((get data (i + 1) + g highlights) / 2) in
    let data := setClamped data (i + 2) ((get data (i + 2) + b highlights) / 2) in
    data
  else
    let data := setClamped data i ((get data i + r shadows) / 2) in
    let data := setClamped data (i + 1) ((get data (i + 1) + g shadows) / 2) in
    let data := setClamped data (i + 2) ((get data (i + 2) + b shadows) / 2) in
    data.

Section WithHost.
Context {host : Host}.

Definition gammaBody (gamma : Number) (i : nat) (data : bytes) : bytes :=
  let data := setClamped data i (Math_pow (get data i / 255) gamma * 255) in
  let data := setClamped data (i + 1)
                (Math_pow (get data (i + 1) / 255) gamma * 255) in
  let data := setClamped data (i + 2)
                (Math_pow (get data (i + 2) / 255) gamma * 255) in
  data.

(** *** The effects, in the order of the source *)

Definition applyNoise (random : nat -> Number) (noiseAmount : Number)
    (s : list Z * nat) : list Z * nat :=
  forPixelsFrom (pixelCount (fst s)) 0 (noiseBody random noiseAmount) s.

Definition applyColorSplash (targetHue hueTolerance : Number) (data : bytes)
    : bytes :=
  eachPixel (colorSplashBody targetHue hueTolerance) data.

Definition applyGamma (gamma : Number) (data : bytes) : bytes :=
  eachPixel (gammaBody gamma) data.

Definition applyColorBalance (balance : RGB) (data : bytes) : bytes :=
  eachPixel (colorBalanceBody balance) data.

Definition applySplitToning (highlightColor shadowColor : string)
    (data : bytes) : bytes :=
  let highlights := hexToRgb highlightColor in
  let shadows := hexToRgb shadowColor in
  eachPixel (splitToningBody highlights shadows) data.

(** The number of iterations of [for (let i = 0; i < n; i++)] for a
    number [n]: the least natural number that is not below [n], and none
    when [n] is NaN.  (The loop would not end for an infinite [n]; the
    intensity slider ranges over 0..10.) *)
Definition iterations (n : Number) : nat :=
  match floorZ n with
  | Some z => if (ofZ z <? n)%float then Z.to_nat (z + 1) else Z.to_nat z
  | None => 0%nat
  end.

(** The glitch loop draws on the canvas; each slice takes two calls of
    [Math.random()]. *)
Fixpoint glitchLoop (random : nat -> Number) (glitchIntensity sliceHeight : Number)
    (numSlices : nat) (s : Raster * nat) : Promise (Raster * nat) :=
  match numSlices with
  | O => inr s
  | S numSlices' =>
      let '(canvas, cursor) := s in
      let y := Math_floor (random cursor * ofNat (height canvas)) in
      let offset :=
        Math_floor ((random (S cursor) - 0.5) * glitchIntensity * 50) in
      await canvas <- orRaise CanvasError (moveSlice y offset sliceHeight canvas) ;;
      glitchLoop random glitchIntensity sliceHeight numSlices'
        (canvas, S (S cursor))
  end.

(** [applyAdvancedEffects]: the pixels of the processed file.  [random]
    lists the values [Math.random()] returns during the call. *)
Definition applyAdvancedEffects (settings : Settings) (random : nat -> Number)
    (img : Raster) : Promise Raster :=
  (* ctx.drawImage(img, 0, 0) on a canvas of the size of the image *)
  let canvas := img in
  (* Get image data *)
  let data := getImageData canvas in
  let cursor := 0%nat in
  (* Apply effects *)
  let '(data, cursor) :=
    if gt (noiseAmount settings) 0
    then applyNoise random (noiseAmount settings) (data, cursor)
    else (data, cursor) in
  (* Apply kaleidoscope effect *)
  let canvas :=
    if gt (kaleidoscope settings) 0 then
      let segments := (Math_floor (kaleidoscope settings * 8) + 2)%float in
      drawKaleidoscope segments canvas
    else canvas in
  (* Apply mirror effect *)
  let canvas :=
    if mirror settings then drawMirrored (mirrorAxis settings) canvas
    else canvas in
  (* Apply color splash effect *)
  let data :=
    if colorSplash settings
    then applyColorSplash (targetHue settings) (hueTolerance settings) data
    else data in
  (* Apply glitch effect *)
  await glitched <-
    (if gt (glitchIntensity settings) 0 then
       let sliceHeight := Math_floor (ofNat (height canvas) / 20) in
       let numSlices := Math_floor (glitchIntensity settings * 5) in
       glitchLoop random (glitchIntensity settings) sliceHeight
         (iterations numSlices) (canvas, cursor)
     else inr (canvas, cursor)) ;;
  let canvas := fst glitched in
  (* Apply gamma correction *)
  let data :=
    if neq (gamma settings) 1 then applyGamma (gamma settings) data
    else data in
  (* Apply color balance *)
  let balance := colorBalance settings in
  let data :=
    if neq (r balance) 0 || neq (g balance) 0 || neq (b balance) 0
    then applyColorBalance balance data
    else data in
  (* Apply split toning *)
  let data :=
    if splitToning settings
    then applySplitToning (highlightColor settings) (shadowColor settings) data
    else data in
  (* Apply the modified image data *)
  let canvas := putImageData canvas data in
  inr canvas.

End WithHost.
End AdvancedEffects.

(** ** Facts about the advanced effects *)
Module AdvancedEffectsFacts.
Import AdvancedEffects.

(** What a load sees after a store depends on what it saw before. *)
Lemma lookup_setClamped (a : bytes) (i : nat) (x : Number) (j : nat) :
  setClamped a i x !! j =
  if decide (i = j)
  then match a !! j with Some _ => Some (ToUint8Clamp x) | None => None end
  else a !! j.
Proof.
  unfold setClamped. destruct (decide (i = j)) as [->|Hne].
  - destruct (a !! j) eqn:Hj.
    + apply list_lookup_insert_eq. by eapply lookup_lt_Some.
    + apply lookup_ge_None. rewrite length_insert. by apply lookup_ge_None.
  - by apply list_lookup_insert_ne.
Qed.

Lemma get_ext (a a' : bytes) (j : nat) : a !! j = a' !! j -> get a j = get a' j.
Proof. unfold get. by intros ->. Qed.

Lemma get_Some (a : bytes) (j : nat) (v : Z) : a !! j = Some v -> get a j = ofZ v.
Proof. unfold get. by intros ->. Qed.

Ltac frame_tac :=
  rewrite ?lookup_setClamped;
  repeat match goal with
  | |- context [decide (?x = ?y)] => destruct (decide (x = y)); [lia|]
  end; try done.

Lemma noiseBody_frame (random : nat -> Number) (amount : Number)
    (i : nat) (s : list Z * nat) (j : nat) :
  (j < i \/ i + 3 <= j)%nat -> fst (noiseBody random amount i s) !! j = fst s !! j.
Proof. intros Hj. destruct s as [a c]. unfold noiseBody. cbn. frame_tac. Qed.

Lemma colorSplashBody_frame (t tol : Number) :
  storesColourOnly (colorSplashBody t tol).
Proof.
  intros i a j Hj. unfold colorSplashBody.
  destruct (rgbToHsl _ _ _) as [[h s] l].
  destruct (_ && _); [|done]. cbv zeta. frame_tac.
Qed.

Lemma colorBalanceBody_frame (bal : RGB) : storesColourOnly (colorBalanceBody bal).
Proof. intros i a j Hj. unfold colorBalanceBody. cbv zeta. frame_tac. Qed.

Lemma splitToningBody_frame (hl sh : RGB) : storesColourOnly (splitToningBody hl sh).
Proof.
  intros i a j Hj. unfold splitToningBody. cbv zeta.
  destruct (gt _ _); frame_tac.
Qed.

Lemma gammaBody_frame `{Host} (gm : Number) : storesColourOnly (gammaBody gm).
Proof. intros i a j Hj. unfold gammaBody. cbv zeta. frame_tac. Qed.

Lemma noise_alpha (random : nat -> Number) (amount : Number) (s : list Z * nat)
    (p : nat) :
  fst (applyNoise random amount s) !! (4 * p + 3)%nat = fst s !! (4 * p + 3)%nat.
Proof.
  unfold applyNoise.
  apply (forPixelsFrom_invariant
           (fun s' => fst s' !! (4 * p + 3)%nat = fst s !! (4 * p + 3)%nat));
    [|done].
  intros k s' Hs'. rewrite noiseBody_frame by lia. done.
Qed.

Lemma alpha_index (p : nat) : ((4 * p + 3) mod 4 = 3)%nat.
Proof.
  rewrite Nat.add_comm, Nat.mul_comm, Nat.Div0.mod_add. reflexivity.
Qed.

(** C10: each of the loops over [data] (noise, colour splash, gamma,
    colour balance, split toning) leaves the alpha byte of every pixel as
    it was. *)
Theorem pixel_effects_keep_alpha `{Host} (random : nat -> Number)
    (cursor : nat) (amount t tol gm : Number) (bal : RGB) (hl sh : string)
    (data : bytes) (p : nat) :
  let alpha (a : bytes) := a !! (4 * p + 3)%nat in
  alpha (fst (applyNoise random amount (data, cursor))) = alpha data /\
  alpha (applyColorSplash t tol data) = alpha data /\
  alpha (applyGamma gm data) = alpha data /\
  alpha (applyColorBalance bal data) = alpha data /\
  alpha (applySplitToning hl sh data) = alpha data.
Proof.
  cbv zeta. pose proof (alpha_index p) as Hp.
  split; [apply noise_alpha|].
  unfold applyColorSplash, applyGamma, applyColorBalance, applySplitToning,
    eachPixel.
  repeat split; apply forPixelsFrom_alpha;
    auto using colorSplashBody_frame, gammaBody_frame, colorBalanceBody_frame,
      splitToningBody_frame.
Qed.

(** *** Colour splash *)

(** The circular distance of two hues in the specification's words:
    [min(|h - target|, 360 - |h - target|)]. *)
Definition circularDistance (h target : Number) : Number :=
  Math_min (Math_abs (h - target)) (360 - Math_abs (h - target)).

(** The hue [rgbToHsl] gives a pixel, and the byte stored for its
    luminance-weighted grey. *)
Definition hueOf (r g b : Z) : Number :=
  fst (fst (rgbToHsl (ofZ r) (ofZ g) (ofZ b))).

Definition grayOf (r g b : Z) : Z :=
  ToUint8Clamp (0.2126 * ofZ r + 0.7152 * ofZ g + 0.0722 * ofZ b).

Lemma colorSplashBody_own (t tol : Number) : readsOwnPixel (colorSplashBody t tol).
Proof.
  intros i a a' Hagree j Hj. unfold colorSplashBody.
  rewrite (get_ext a a' i), (get_ext a a' (i + 1)), (get_ext a a' (i + 2))
    by (apply Hagree; lia).
  destruct (rgbToHsl _ _ _) as [[h s] l].
  destruct (_ && _); [|by apply Hagree]. cbv zeta.
  rewrite !lookup_setClamped.
  repeat match goal with
  | |- context [decide (?x = ?y)] => destruct (decide (x = y))
  end; rewrite ?Hagree by lia; done.
Qed.

Lemma pixelCount_lookup (a : bytes) (p c : nat) (v : Z) :
  a !! (4 * p + c)%nat = Some v -> (p < pixelCount a)%nat.
Proof.
  intros Hv. apply lookup_lt_Some in Hv. unfold pixelCount.
  pose proof (Nat.div_mod_eq (length a + 3) 4).
  pose proof (Nat.mod_upper_bound (length a + 3) 4). lia.
Qed.

(** C6: colour splash stores the grey of a pixel in its three colour
    bytes exactly when the circular distance of its hue from the target
    exceeds the tolerance, and leaves the pixel as it is otherwise. *)
Theorem colorSplash_circular (targetHue hueTolerance : Number) (data : bytes)
    (p : nat) (r g b : Z) :
  data !! (4 * p)%nat = Some r ->
  data !! (4 * p + 1)%nat = Some g ->
  data !! (4 * p + 2)%nat = Some b ->
  let out := applyColorSplash targetHue hueTolerance data in
  let gray := grayOf r g b in
  if gt (circularDistance (hueOf r g b) targetHue) hueTolerance
  then out !! (4 * p)%nat = Some gray /\
       out !! (4 * p + 1)%nat = Some gray /\
       out !! (4 * p + 2)%nat = Some gray
  else out !! (4 * p)%nat = Some r /\
       out !! (4 * p + 1)%nat = Some g /\
       out !! (4 * p + 2)%nat = Some b.
Proof.
  intros Hr Hg Hb out gray.
  assert (Hp : (p < pixelCount data)%nat) by (by eapply (pixelCount_lookup _ p 1)).
  assert (Hout : forall j, (4 * p <= j < 4 * p + 4)%nat ->
            out !! j = colorSplashBody targetHue hueTolerance (4 * p) data !! j).
  { intros j Hj. unfold out, applyColorSplash, eachPixel.
    apply forPixelsFrom_own;
      auto using colorSplashBody_frame, colorSplashBody_own. }
  rewrite !Hout by lia. clear Hout out.
  unfold colorSplashBody, circularDistance, hueOf, gray, grayOf.
  rewrite (get_Some _ _ _ Hr), (get_Some _ _ _ Hg), (get_Some _ _ _ Hb).
  destruct (rgbToHsl _ _ _) as [[h s] l]. cbn [fst].
  rewrite FloatOrder.gt_Math_min.
  destruct (_ && _); [|done]. cbv zeta.
  rewrite !lookup_setClamped.
  repeat match goal with
  | |- context [decide (?x = ?y)] => destruct (decide (x = y)); try lia
  end.
  by rewrite Hr, Hg, Hb.
Qed.

(** C6, the boundary case: a pixel of hue 355 is at circular distance 5
    from the target hue 0 and keeps its colour at tolerance 10. *)
Lemma colorSplash_circular_witness :
  hueOf 240 0 20 = 355%float /\
  circularDistance 355 0 = 5%float /\
  applyColorSplash 0 10 [240; 0; 20; 255] = [240; 0; 20; 255].
Proof.
  pose proof (colorSplash_circular 0 10 [240; 0; 20; 255] 0 240 0 20
                eq_refl eq_refl eq_refl) as H.
  cbv zeta in H.
  assert (E : gt (circularDistance (hueOf 240 0 20) 0) 10 = false)
    by (vm_compute; reflexivity).
  rewrite E in H. destruct H as (H0 & H1 & H2).
  split; [vm_compute; reflexivity|].
  split; [vm_compute; reflexivity|].
  apply list_eq.
  intros [|[|[|[|j]]]]; [exact H0 | exact H1 | exact H2 | |];
    vm_compute; reflexivity.
Defined.

(** At the same setting a pure green pixel (hue 120) turns grey. *)
Lemma colorSplash_green_turns_grey :
  applyColorSplash 0 10 [0; 255; 0; 255] = [182; 182; 182; 255].
Proof. vm_compute. reflexivity. Qed.

End AdvancedEffectsFacts.

(** ** Background removal: [BackgroundRemoval] *)
Module BackgroundRemoval.

(** [a[idx]] for an index computed with signed arithmetic. *)
Definition getZ (a : bytes) (idx : Z) : Number :=
  if idx <? 0 then nan else get a (Z.to_nat idx).

(** [for (let y = y0; y < y1; y++) for (let x = x0; x < x1; x++)
    plane[y * width + x] = value(x, y)] on a [Uint8Array]. *)
Definition fillPlane (width : nat) (value : nat -> nat -> Number)
    (y0 y1 x0 x1 : nat) (plane : bytes) : bytes :=
  forRange y0 y1 (fun y plane =>
    forRange x0 x1 (fun x plane =>
      setUint8 plane (y * width + x) (value x y)) plane) plane.

(** [for (let dy = -half; dy <= half; dy++)
    for (let dx = -half; dx <= half; dx++) step], on the pair of
    accumulators of the loop. *)
Definition windowFold {Acc : Type} (half : Z) (step : Z -> Z -> Acc -> Acc)
    (init : Acc) : Acc :=
  foldl (fun acc dy => foldl (fun acc dx => step dx dy acc) acc
                         (zRange (- half) half))
    init (zRange (- half) half).

(** *** Sobel operator *)

Definition sobelX : list Number := [-1; 0; 1; -2; 0; 2; -1; 0; 1]%float.
Definition sobelY : list Number := [-1; -2; -1; 0; 0; 0; 1; 2; 1]%float.

Definition kernelAt (kernel : list Number) (k : Z) : Number :=
  match kernel !! Z.to_nat k with
  | Some weight => weight
  | None => nan
  end.

(** One of the two kernel loops at pixel [(x, y)], on the red channel. *)
Definition convolve (kernel : list Number) (data : bytes) (width : nat)
    (x y : nat) : Number :=
  windowFold 1 (fun kernelX kernelY acc =>
    let idx := ((Z.of_nat y + kernelY) * Z.of_nat width
                + (Z.of_nat x + kernelX)) * 4 in
    let weight := kernelAt kernel ((kernelY + 1) * 3 + (kernelX + 1)) in
    (acc + getZ data idx * weight)%float) 0%float.

Definition magnitudeAt (data : bytes) (width : nat) (x y : nat) : Number :=
  let pixelX := convolve sobelX data width x y in
  let pixelY := convolve sobelY data width x y in
  Math_sqrt (pixelX * pixelX + pixelY * pixelY).

Definition applySobelOperator (data : bytes) (width height : nat) : bytes :=
  let output := newUint8Array (width * height) in
  fillPlane width (magnitudeAt data width) 1 (height - 1) 1 (width - 1) output.

(** *** Classification *)

(** The distance of a colour from white; [Math.pow(v, 2)] is [v * v]. *)
Definition colorDiffOf (r g b : Number) : Number :=
  Math_sqrt ((255 - r) * (255 - r) + (255 - g) * (255 - g)
             + (255 - b) * (255 - b)).

Definition classifyBody (data sobelData : bytes) (width : nat)
    (threshold tolerance : Number) (i : nat) (mask : bytes) : bytes :=
  if (width =? 0)%nat then mask (* the index is NaN: the store is dropped *)
  else
    let x := ((i / 4) mod width)%nat in
    let y := ((i / 4) / width)%nat in
    let idx := (y * width + x)%nat in
    (* Get edge strength *)
    let edgeStrength := get sobelData idx in
    (* Color difference from potential background *)
    let colorDiff := colorDiffOf (get data i) (get data (i + 1)) (get data (i + 2)) in
    (* Combine edge and color information *)
    let isForeground := gt edgeStrength threshold || gt colorDiff tolerance in
    setUint8 mask idx (if isForeground then 255 else 0).

Definition classify (data sobelData : bytes) (width : nat)
    (threshold tolerance : Number) (mask : bytes) : bytes :=
  forPixelsFrom (pixelCount data) 0
    (classifyBody data sobelData width threshold tolerance) mask.

(** *** Smoothing and feathering *)

Definition inside (width height : nat) (nx ny : Z) : bool :=
  (0 <=? nx) && (nx <? Z.of_nat width) && (0 <=? ny) && (ny <? Z.of_nat height).

Definition smoothValue (mask : bytes) (width height : nat) (x y : nat) : Number :=
  let '(sum, count) :=
    windowFold 1 (fun dx dy '(sum, count) =>
      let nx := Z.of_nat x + dx in
      let ny := Z.of_nat y + dy in
      if inside width height nx ny
      then ((sum + getZ mask (ny * Z.of_nat width + nx))%float, (count + 1)%float)
      else (sum, count)) (0%float, 0%float) in
  Math_round (sum / count).

(** The loop fills [temp]; the closing loop copies [temp] into [mask],
    which has the same length. *)
Definition smoothMask (mask : bytes) (width height : nat) : bytes :=
  let temp := newUint8Array (length mask) in
  fillPlane width (smoothValue mask width height) 0 height 0 width temp.

(** [size] is the integer the feather slider yields. *)
Definition featherValue (mask : bytes) (width height : nat) (size : Z)
    (x y : nat) : Number :=
  let '(sum, count) :=
    windowFold size (fun dx dy '(sum, count) =>
      let nx := Z.of_nat x + dx in
      let ny := Z.of_nat y + dy in
      if inside width height nx ny then
        let distance := Math_sqrt (ofZ dx * ofZ dx + ofZ dy * ofZ dy) in
        if (distance <=? ofZ size)%float then
          let weight := (1 - distance / ofZ size)%float in
          ((sum + getZ mask (ny * Z.of_nat width + nx) * weight)%float,
           (count + weight)%float)
        else (sum, count)
      else (sum, count)) (0%float, 0%float) in
  Math_round (sum / count).

Definition featherMask (mask : bytes) (width height : nat) (size : Z) : bytes :=
  let temp := newUint8Array (length mask) in
  fillPlane width (featherValue mask width height size) 0 height 0 width temp.

(** *** The whole of [processImage] *)

(** The mask written to the alpha channel.  [smoothing] and [featherSize]
    are the integers of their sliders. *)
Definition deriveMask (img : Raster) (threshold tolerance : Number)
    (smoothing featherSize : Z) : bytes :=
  let data := getImageData img in
  (* Create mask for background removal *)
  let mask := newUint8Array (width img * height img) in
  (* Edge detection using Sobel operator *)
  let sobelData := applySobelOperator data (width img) (height img) in
  (* Combine edge detection with color-based segmentation *)
  let mask := classify data sobelData (width img) threshold tolerance mask in
  (* Apply smoothing *)
  let mask :=
    if 0 <? smoothing
    then Nat.iter (Z.to_nat smoothing)
           (fun mask => smoothMask mask (width img) (height img)) mask
    else mask in
  (* Apply feathering *)
  if 0 <? featherSize
  then featherMask mask (width img) (height img) featherSize
  else mask.

(** [const idx = Math.floor(i / 4); data[i + 3] = mask[idx]]. *)
Definition applyMaskBody (mask : bytes) (i : nat) (data : bytes) : bytes :=
  let idx := (i / 4)%nat in
  let alpha := get mask idx in
  setClamped data (i + 3) alpha.

Definition processImage (img : Raster) (threshold tolerance : Number)
    (smoothing featherSize : Z) : Raster :=
  (* Draw original image, get image data *)
  let canvas := img in
  let data := getImageData canvas in
  let mask := deriveMask img threshold tolerance smoothing featherSize in
  (* Apply mask to image *)
  let data := eachPixel (applyMaskBody mask) data in
  (* Update canvas with processed image *)
  putImageData canvas data.

(** *** The name of the processed file *)

(** [[^/.]+$]: one or more characters up to the end of the name, none of
    them a slash or a dot. *)
Fixpoint isExtension (s : string) : bool :=
  match s with
  | EmptyString => false
  | String c rest =>
      negb (Ascii.eqb c "/") && negb (Ascii.eqb c ".")
      && match rest with
         | EmptyString => true
         | _ => isExtension rest
         end
  end.

(** [name.replace(/\.[^/.]+$/, '')]: the leftmost match, which reaches to
    the end of the name, is removed. *)
Fixpoint stripExtension (name : string) : string :=
  match name with
  | EmptyString => EmptyString
  | String c rest =>
      if Ascii.eqb c "." && isExtension rest then EmptyString
      else String c (stripExtension rest)
  end.

(** The name of the [File] handed to [onImageProcess]. *)
Definition processedName (sourceName : string) : string :=
  stripExtension sourceName ++ "-nobg.png".

End BackgroundRemoval.

(** ** Facts about the loops of background removal *)
Module PlaneFacts.
Import BackgroundRemoval.

Lemma zRange_sound (lo hi v : Z) : In v (zRange lo hi) -> lo <= v <= hi.
Proof.
  unfold zRange. rewrite in_map_iff. intros (k & <- & Hk).
  apply in_seq in Hk. lia.
Qed.

Lemma foldl_ext_in {A B : Type} (f f' : A -> B -> A) (l : list B) (a : A) :
  (forall a b, In b l -> f a b = f' a b) -> foldl f a l = foldl f' a l.
Proof.
  revert a. induction l as [|b l IH]; intros a Hf; [done|]. cbn [foldl].
  rewrite (Hf a b) by (by left). apply IH. intros a' b' Hb'. apply Hf. by right.
Qed.

Lemma foldl_invariant {A B : Type} (P : A -> Prop) (f : A -> B -> A)
    (l : list B) (a : A) :
  (forall a b, In b l -> P a -> P (f a b)) -> P a -> P (foldl f a l).
Proof.
  revert a. induction l as [|b l IH]; intros a Hf Ha; [done|]. cbn [foldl].
  apply IH; [|apply Hf; [by left | done]].
  intros a' b' Hb'. apply Hf. by right.
Qed.

Lemma windowFold_ext {Acc : Type} (half : Z) (step step' : Z -> Z -> Acc -> Acc)
    (init : Acc) :
  (forall dx dy acc, - half <= dx <= half -> - half <= dy <= half ->
     step dx dy acc = step' dx dy acc) ->
  windowFold half step init = windowFold half step' init.
Proof.
  intros Hstep. unfold windowFold.
  apply foldl_ext_in. intros acc dy Hdy.
  apply foldl_ext_in. intros acc' dx Hdx.
  apply Hstep; by apply zRange_sound.
Qed.

Lemma ToUint8_isByte (x : Number) : isByte (ToUint8 x).
Proof.
  unfold ToUint8, isByte. destruct (truncZ x) as [z|]; [|lia].
  pose proof (Z.mod_pos_bound z 256). lia.
Qed.

(** The index of a pixel determines its row and its column. *)
Lemma index_inj (w x y x' y' : nat) :
  (x < w)%nat -> (x' < w)%nat -> (y * w + x = y' * w + x')%nat ->
  y = y' /\ x = x'.
Proof.
  intros Hx Hx' Heq.
  assert (Hy : y = ((y * w + x) / w)%nat)
    by (apply (Nat.div_unique _ w y x); lia).
  assert (Hy' : y' = ((y' * w + x') / w)%nat)
    by (apply (Nat.div_unique _ w y' x'); lia).
  rewrite Heq in Hy. assert (y = y') by congruence. subst y'. lia.
Qed.

Section Fill.
Variable w : nat.
Variable value : nat -> nat -> Number.

Definition rowFill (y : nat) (xs : list nat) (plane : bytes) : bytes :=
  foldl (fun plane x => setUint8 plane (y * w + x) (value x y)) plane xs.

Definition planeFill (ys xs : list nat) (plane : bytes) : bytes :=
  foldl (fun plane y => rowFill y xs plane) plane ys.

Lemma fillPlane_planeFill (y0 y1 x0 x1 : nat) (plane : bytes) :
  fillPlane w value y0 y1 x0 x1 plane =
  planeFill (seq y0 (y1 - y0)) (seq x0 (x1 - x0)) plane.
Proof. reflexivity. Qed.

Lemma rowFill_length (y : nat) (xs : list nat) (plane : bytes) :
  length (rowFill y xs plane) = length plane.
Proof.
  apply (foldl_invariant (fun p => length p = length plane)); [|done].
  intros a x _ Ha. unfold setUint8. by rewrite length_insert.
Qed.

Lemma planeFill_length (ys xs : list nat) (plane : bytes) :
  length (planeFill ys xs plane) = length plane.
Proof.
  apply (foldl_invariant (fun p => length p = length plane)); [|done].
  intros a y _ Ha. by rewrite rowFill_length.
Qed.

Lemma planeFill_bytes (ys xs : list nat) (plane : bytes) :
  Forall isByte plane -> Forall isByte (planeFill ys xs plane).
Proof.
  intros Hb. apply (foldl_invariant (Forall isByte)); [|done].
  intros a y _ Ha. apply (foldl_invariant (Forall isByte)); [|done].
  intros a' x _ Ha'. apply Forall_insert; [done | apply ToUint8_isByte].
Qed.

Lemma rowFill_other (y : nat) (xs : list nat) (plane : bytes) (j : nat) :
  (forall x, In x xs -> (y * w + x)%nat <> j) ->
  rowFill y xs plane !! j = plane !! j.
Proof.
  intros Hj.
  apply (foldl_invariant (fun p => p !! j = plane !! j)); [|done].
  intros a x Hx Ha. unfold setUint8.
  rewrite list_lookup_insert_ne by (by apply Hj). done.
Qed.

Lemma planeFill_other (ys xs : list nat) (plane : bytes) (j : nat) :
  (forall x y, In y ys -> In x xs -> (y * w + x)%nat <> j) ->
  planeFill ys xs plane !! j = plane !! j.
Proof.
  intros Hj.
  apply (foldl_invariant (fun p => p !! j = plane !! j)); [|done].
  intros a y Hy Ha. rewrite rowFill_other; [done|].
  intros x Hx. by apply Hj.
Qed.

Lemma rowFill_hit (y : nat) (xs : list nat) (plane : bytes) (x : nat) :
  List.NoDup xs -> In x xs -> (y * w + x < length plane)%nat ->
  rowFill y xs plane !! (y * w + x)%nat = Some (ToUint8 (value x y)).
Proof.
  revert plane. induction xs as [|x0 xs IH]; intros plane Hnd Hx Hlen; [done|].
  inversion Hnd as [|? ? Hnotin Hnd']; subst.
  change (rowFill y (x0 :: xs) plane)
    with (rowFill y xs (setUint8 plane (y * w + x0) (value x0 y))).
  destruct (decide (x = x0)) as [->|Hne].
  - rewrite rowFill_other.
    + unfold setUint8. by apply list_lookup_insert_eq.
    + intros x' Hx' Heq. apply Hnotin.
      by replace x0 with x' by lia.
  - destruct Hx as [->|Hx]; [done|].
    apply IH; [done | done |]. unfold setUint8. by rewrite length_insert.
Qed.

Lemma planeFill_hit (ys xs : list nat) (plane : bytes) (x y : nat) :
  List.NoDup ys -> List.NoDup xs -> (forall x', In x' xs -> (x' < w)%nat) ->
  In y ys -> In x xs -> (y * w + x < length plane)%nat ->
  planeFill ys xs plane !! (y * w + x)%nat = Some (ToUint8 (value x y)).
Proof.
  intros Hnd Hndx Hw. revert plane.
  induction ys as [|y0 ys IH]; intros plane Hy Hx Hlen; [done|].
  inversion Hnd as [|? ? Hnotin Hnd']; subst.
  change (planeFill (y0 :: ys) xs plane)
    with (planeFill ys xs (rowFill y0 xs plane)).
  destruct (decide (y = y0)) as [->|Hne].
  - rewrite planeFill_other.
    + by apply rowFill_hit.
    + intros x' y' Hy' Hx' Heq. apply Hnotin.
      destruct (index_inj w x' y' x y0) as [-> _]; auto.
  - destruct Hy as [->|Hy]; [done|].
    apply IH; [done | done | done |]. by rewrite rowFill_length.
Qed.

(** What a full pass over a plane of [w * h] bytes stores at pixel
    [(x, y)]. *)
Lemma fillPlane_full (h : nat) (plane : bytes) (x y : nat) :
  (x < w)%nat -> (y < h)%nat -> length plane = (w * h)%nat ->
  fillPlane w value 0 h 0 w plane !! (y * w + x)%nat
  = Some (ToUint8 (value x y)).
Proof.
  intros Hx Hy Hlen. rewrite fillPlane_planeFill.
  apply planeFill_hit.
  - apply List.seq_NoDup.
  - apply List.seq_NoDup.
  - intros x' Hx'. apply in_seq in Hx'. lia.
  - apply in_seq. lia.
  - apply in_seq. lia.
  - rewrite Hlen. nia.
Qed.

(** A full pass that stores [v] everywhere yields the plane of [v]s. *)
Lemma fillPlane_constant (h : nat) (plane : bytes) (v : Z) :
  length plane = (w * h)%nat ->
  (forall x y, (x < w)%nat -> (y < h)%nat -> ToUint8 (value x y) = v) ->
  fillPlane w value 0 h 0 w plane = replicate (w * h) v.
Proof.
  intros Hlen Hv. apply list_eq. intros j.
  destruct (decide (j < w * h)%nat) as [Hj|Hj].
  - assert (Hw : (0 < w)%nat) by nia.
    pose proof (Nat.div_mod_eq j w) as Hdm.
    pose proof (Nat.mod_upper_bound j w ltac:(lia)) as Hm.
    assert (Hy : (j / w < h)%nat) by (apply Nat.Div0.div_lt_upper_bound; lia).
    replace j with (j / w * w + j mod w)%nat at 1 2 by lia.
    rewrite fillPlane_full by done.
    rewrite Hv by done. symmetry. apply lookup_replicate_2. lia.
  - rewrite (proj2 (lookup_ge_None _ _)).
    + symmetry. apply lookup_replicate_None. lia.
    + rewrite fillPlane_planeFill, planeFill_length. lia.
Qed.

End Fill.

(** A loop over the pixels whose iteration [k] stores one byte [val k]
    at the place [pos k]. *)
Section Tabulate.
Variable body : nat -> bytes -> bytes.
Variable pos : nat -> nat.
Variable val : nat -> Z.
Hypothesis Hbody : forall k a, body (4 * k)%nat a = <[pos k := val k]> a.
Hypothesis Hpos : forall k k', (k < k')%nat -> (pos k < pos k')%nat.

Lemma tabulate_length (n k : nat) (a : bytes) :
  length (forPixelsFrom n k body a) = length a.
Proof.
  apply (forPixelsFrom_invariant (fun b => length b = length a)); [|done].
  intros k' s Hs. by rewrite Hbody, length_insert.
Qed.

Lemma tabulate_other (n k : nat) (a : bytes) (j : nat) :
  (forall q, (k <= q < k + n)%nat -> pos q <> j) ->
  forPixelsFrom n k body a !! j = a !! j.
Proof.
  revert k a. induction n as [|n IH]; intros k a Hj; cbn [forPixelsFrom]; [done|].
  rewrite IH by (intros q Hq; apply Hj; lia).
  rewrite Hbody. apply list_lookup_insert_ne. apply Hj. lia.
Qed.

Lemma tabulate_hit (n k : nat) (a : bytes) (q : nat) :
  (k <= q < k + n)%nat -> (pos q < length a)%nat ->
  forPixelsFrom n k body a !! pos q = Some (val q).
Proof.
  revert k a. induction n as [|n IH]; intros k a Hq Hlen; cbn [forPixelsFrom]; [lia|].
  destruct (decide (q = k)) as [->|Hne].
  - rewrite tabulate_other.
    + rewrite Hbody. by apply list_lookup_insert_eq.
    + intros q' Hq'. pose proof (Hpos k q'). lia.
  - apply IH; [lia|]. by rewrite Hbody, length_insert.
Qed.

End Tabulate.

End PlaneFacts.

(** ** Facts about background removal *)
Module SegmentationFacts.
Import BackgroundRemoval PlaneFacts.

Lemma pixelCount_exact (a : bytes) (n : nat) :
  length a = (4 * n)%nat -> pixelCount a = n.
Proof.
  intros Hlen. unfold pixelCount. rewrite Hlen.
  symmetry. apply (Nat.div_unique _ 4 n 3); lia.
Qed.

Lemma four_div (k : nat) : (4 * k / 4 = k)%nat.
Proof. rewrite Nat.mul_comm. apply Nat.div_mul. lia. Qed.

Lemma row_column (w k : nat) : (0 < w)%nat -> (k / w * w + k mod w = k)%nat.
Proof. intros Hw. pose proof (Nat.div_mod_eq k w). lia. Qed.

(** *** The mask is a plane of bytes, one per pixel *)

Lemma classifyBody_insert (data sobelData : bytes) (w : nat) (th tol : Number)
    (k : nat) (mask : bytes) :
  (0 < w)%nat ->
  classifyBody data sobelData w th tol (4 * k) mask =
  <[k := ToUint8 (if gt (get sobelData k) th
                     || gt (colorDiffOf (get data (4 * k)) (get data (4 * k + 1))
                             (get data (4 * k + 2))) tol
                  then 255 else 0)]> mask.
Proof.
  intros Hw. unfold classifyBody.
  replace (w =? 0)%nat with false by (symmetry; apply Nat.eqb_neq; lia).
  cbv zeta. rewrite four_div, row_column by done. reflexivity.
Qed.

Lemma classify_length (data sobelData : bytes) (w : nat) (th tol : Number)
    (mask : bytes) :
  length (classify data sobelData w th tol mask) = length mask.
Proof.
  apply (forPixelsFrom_invariant (fun m => length m = length mask)); [|done].
  intros k m Hm. unfold classifyBody. destruct (w =? 0)%nat; [done|].
  cbv zeta. unfold setUint8. by rewrite length_insert.
Qed.

Lemma classify_bytes (data sobelData : bytes) (w : nat) (th tol : Number)
    (mask : bytes) :
  Forall isByte mask -> Forall isByte (classify data sobelData w th tol mask).
Proof.
  intros Hb. apply (forPixelsFrom_invariant (Forall isByte)); [|done].
  intros k m Hm. unfold classifyBody. destruct (w =? 0)%nat; [done|].
  cbv zeta. apply Forall_insert; [done | apply ToUint8_isByte].
Qed.

Lemma newUint8Array_bytes (n : nat) : Forall isByte (newUint8Array n).
Proof. apply Forall_replicate. unfold isByte. lia. Qed.

Lemma smoothMask_length (mask : bytes) (w h : nat) :
  length (smoothMask mask w h) = length mask.
Proof.
  unfold smoothMask. rewrite fillPlane_planeFill, planeFill_length.
  apply length_replicate.
Qed.

Lemma smoothMask_bytes (mask : bytes) (w h : nat) :
  Forall isByte (smoothMask mask w h).
Proof.
  unfold smoothMask. rewrite fillPlane_planeFill.
  apply planeFill_bytes, newUint8Array_bytes.
Qed.

Lemma featherMask_length (mask : bytes) (w h : nat) (size : Z) :
  length (featherMask mask w h size) = length mask.
Proof.
  unfold featherMask. rewrite fillPlane_planeFill, planeFill_length.
  apply length_replicate.
Qed.

Lemma featherMask_bytes (mask : bytes) (w h : nat) (size : Z) :
  Forall isByte (featherMask mask w h size).
Proof.
  unfold featherMask. rewrite fillPlane_planeFill.
  apply planeFill_bytes, newUint8Array_bytes.
Qed.

Lemma deriveMask_plane (img : Raster) (th tol : Number) (smoothing featherSize : Z) :
  let mask := deriveMask img th tol smoothing featherSize in
  length mask = (width img * height img)%nat /\ Forall isByte mask.
Proof.
  unfold deriveMask, getImageData.
  set (mask0 := classify _ _ _ _ _ _).
  assert (H0 : length mask0 = (width img * height img)%nat /\ Forall isByte mask0).
  { split.
    - unfold mask0. rewrite classify_length. apply length_replicate.
    - apply classify_bytes, newUint8Array_bytes. }
  set (mask1 := if 0 <? smoothing then _ else mask0).
  assert (H1 : length mask1 = (width img * height img)%nat /\ Forall isByte mask1).
  { unfold mask1. destruct (0 <? smoothing); [|done].
    induction (Z.to_nat smoothing) as [|n IH]; [done|].
    rewrite Nat.iter_succ.
    split; [rewrite smoothMask_length; apply IH|].
    apply smoothMask_bytes. }
  cbv zeta. destruct (0 <? featherSize); [|done].
  split; [rewrite featherMask_length; apply H1 | apply featherMask_bytes].
Qed.

(** *** The mask goes to the alpha channel only *)

Lemma applyMaskBody_insert (mask : bytes) (k : nat) (a : bytes) :
  applyMaskBody mask (4 * k) a = <[(4 * k + 3)%nat := ToUint8Clamp (get mask k)]> a.
Proof. unfold applyMaskBody, setClamped. cbv zeta. by rewrite four_div. Qed.

(** C8: background removal leaves the red, green and blue bytes of every
    pixel as they are and stores the mask value of the pixel in its alpha
    byte. *)
Theorem background_removal_replaces_alpha (img : Raster) (threshold tolerance : Number)
    (smoothing featherSize : Z) (p : nat) :
  wellFormed img -> (p < width img * height img)%nat ->
  let out := data (processImage img threshold tolerance smoothing featherSize) in
  let mask := deriveMask img threshold tolerance smoothing featherSize in
  out !! (4 * p)%nat = data img !! (4 * p)%nat /\
  out !! (4 * p + 1)%nat = data img !! (4 * p + 1)%nat /\
  out !! (4 * p + 2)%nat = data img !! (4 * p + 2)%nat /\
  out !! (4 * p + 3)%nat = mask !! p /\
  is_Some (mask !! p).
Proof.
  intros (Hw & Hh & Hlen & Hbytes) Hp out mask.
  destruct (deriveMask_plane img threshold tolerance smoothing featherSize)
    as [Hmlen Hmbytes]. fold mask in Hmlen, Hmbytes.
  unfold out, processImage, putImageData, getImageData, eachPixel. cbn [data].
  fold mask.
  rewrite (pixelCount_exact _ _ Hlen).
  pose proof (applyMaskBody_insert mask) as Hbody.
  assert (Hpos : forall k k', (k < k')%nat -> (4 * k + 3 < 4 * k' + 3)%nat)
    by (intros; lia).
  assert (Hcol : forall c, (c < 3)%nat ->
            forPixelsFrom (width img * height img) 0 (applyMaskBody mask)
              (data img) !! (4 * p + c)%nat = data img !! (4 * p + c)%nat).
  { intros c Hc. apply (tabulate_other _ _ _ Hbody). intros q _. lia. }
  destruct (lookup_lt_is_Some_2 mask p ltac:(lia)) as [v Hv].
  split; [rewrite <- (Nat.add_0_r (4 * p)); apply Hcol; lia|].
  split; [apply Hcol; lia|].
  split; [apply Hcol; lia|].
  split; [|by exists v].
  rewrite (tabulate_hit _ _ _ Hbody Hpos) by lia.
  rewrite Hv. unfold get. rewrite Hv.
  assert (Hb : isByte v) by (by eapply Forall_lookup_1).
  rewrite ToUint8Clamp_ofZ by (unfold isByte in Hb; lia).
  unfold clampByte, isByte in *. f_equal. lia.
Qed.

Definition samplePixels : Raster :=
  mkRaster 2 1 [250; 250; 250; 255;  10; 20; 30; 255].

Lemma samplePixels_wellFormed : wellFormed samplePixels.
Proof.
  repeat split; simpl; try lia.
  repeat constructor; unfold isByte; lia.
Defined.

(** A light pixel becomes transparent and a dark pixel stays opaque; the
    colours stay. *)
Lemma background_removal_replaces_alpha_witness :
  data (processImage samplePixels 20 30 0 0)
  = [250; 250; 250; 0;  10; 20; 30; 255].
Proof.
  pose proof (background_removal_replaces_alpha samplePixels 20 30 0 0 0
                samplePixels_wellFormed ltac:(simpl; lia)) as H0.
  pose proof (background_removal_replaces_alpha samplePixels 20 30 0 0 1
                samplePixels_wellFormed ltac:(simpl; lia)) as H1.
  cbv zeta in H0, H1.
  destruct H0 as (Hr0 & Hg0 & Hb0 & Ha0 & _).
  destruct H1 as (Hr1 & Hg1 & Hb1 & Ha1 & _).
  apply list_eq.
  intros [|[|[|[|[|[|[|[|j]]]]]]]];
    [exact Hr0 | exact Hg0 | exact Hb0
    | etransitivity; [exact Ha0|]
    | exact Hr1 | exact Hg1 | exact Hb1
    | etransitivity; [exact Ha1|] |];
    vm_compute; reflexivity.
Defined.

(** *** Edge strengths are stored modulo 256 *)

Lemma sobel_interior (data : bytes) (w h x y : nat) :
  (1 <= x)%nat -> (x + 1 < w)%nat -> (1 <= y)%nat -> (y + 1 < h)%nat ->
  applySobelOperator data w h !! (y * w + x)%nat
  = Some (ToUint8 (magnitudeAt data w x y)).
Proof.
  intros Hx1 Hx2 Hy1 Hy2. unfold applySobelOperator.
  rewrite fillPlane_planeFill. apply planeFill_hit.
  - apply List.seq_NoDup.
  - apply List.seq_NoDup.
  - intros x' Hx'. apply in_seq in Hx'. lia.
  - apply in_seq. lia.
  - apply in_seq. lia.
  - unfold newUint8Array. rewrite length_replicate. nia.
Qed.

(** The outermost ring keeps the zero of the fresh array. *)
Lemma sobel_border (data : bytes) (w h x y : nat) :
  (x < w)%nat -> (y < h)%nat ->
  (x = 0 \/ x + 1 = w \/ y = 0 \/ y + 1 = h)%nat ->
  applySobelOperator data w h !! (y * w + x)%nat = Some 0.
Proof.
  intros Hx Hy Hring. unfold applySobelOperator.
  rewrite fillPlane_planeFill, planeFill_other.
  - apply lookup_replicate_2. nia.
  - intros x' y' Hy' Hx' Heq. apply in_seq in Hy', Hx'.
    destruct (index_inj w x' y' x y) as [-> ->]; [lia | lia | done |]. lia.
Qed.

(** *** A solid colour *)

(** Every pixel of the image has the colour [(r, g, b)]. *)
Definition solidColour (img : Raster) (r g b : Z) : Prop :=
  forall p, (p < width img * height img)%nat ->
    data img !! (4 * p)%nat = Some r /\
    data img !! (4 * p + 1)%nat = Some g /\
    data img !! (4 * p + 2)%nat = Some b.

(** The kernel loop when every load yields [v]. *)
Definition convolveUniform (kernel : list Number) (v : Z) : Number :=
  windowFold 1 (fun kernelX kernelY acc =>
    let weight := kernelAt kernel ((kernelY + 1) * 3 + (kernelX + 1)) in
    (acc + ofZ v * weight)%float) 0%float.

Definition magnitudeUniform (v : Z) : Number :=
  let pixelX := convolveUniform sobelX v in
  let pixelY := convolveUniform sobelY v in
  Math_sqrt (pixelX * pixelX + pixelY * pixelY).

Lemma magnitudeUniform_zero (v : Z) : isByte v -> ToUint8 (magnitudeUniform v) = 0.
Proof.
  intros Hv.
  assert (H : forBytes (fun v => ToUint8 (magnitudeUniform v) =? 0) = true)
    by (vm_compute; reflexivity).
  apply Z.eqb_eq. revert v Hv. apply forBytes_spec, H.
Qed.

Lemma convolve_solid (kernel : list Number) (img : Raster) (r g b : Z) (x y : nat) :
  solidColour img r g b ->
  (1 <= x)%nat -> (x + 1 < width img)%nat ->
  (1 <= y)%nat -> (y + 1 < height img)%nat ->
  convolve kernel (data img) (width img) x y = convolveUniform kernel r.
Proof.
  intros Hsolid Hx1 Hx2 Hy1 Hy2. unfold convolve, convolveUniform.
  apply windowFold_ext. intros kx ky acc Hkx Hky. cbv zeta.
  set (P := (Z.of_nat y + ky) * Z.of_nat (width img) + (Z.of_nat x + kx)).
  assert (HP : 0 <= P < Z.of_nat (width img * height img)) by (unfold P; nia).
  unfold getZ. replace (P * 4 <? 0) with false by (symmetry; apply Z.ltb_ge; lia).
  replace (Z.to_nat (P * 4)) with (4 * Z.to_nat P)%nat by lia.
  destruct (Hsolid (Z.to_nat P) ltac:(lia)) as (Hr & _).
  by rewrite (AdvancedEffectsFacts.get_Some _ _ _ Hr).
Qed.

Lemma sobel_solid (img : Raster) (r g b : Z) :
  isByte r -> solidColour img r g b ->
  applySobelOperator (data img) (width img) (height img)
  = replicate (width img * height img) 0.
Proof.
  intros Hr Hsolid. set (w := width img). set (h := height img).
  apply list_eq. intros j.
  destruct (decide (j < w * h)%nat) as [Hj|Hj].
  - assert (Hw : (0 < w)%nat) by nia.
    pose proof (Nat.div_mod_eq j w) as Hdm.
    pose proof (Nat.mod_upper_bound j w ltac:(lia)) as Hm.
    assert (Hy : (j / w < h)%nat) by (apply Nat.Div0.div_lt_upper_bound; lia).
    rewrite lookup_replicate_2 by done.
    replace j with (j / w * w + j mod w)%nat by lia.
    destruct (decide (1 <= j mod w /\ j mod w + 1 < w /\
                      1 <= j / w /\ j / w + 1 < h)%nat) as [Hin|Hout].
    + rewrite sobel_interior by lia. unfold magnitudeAt.
      rewrite !(convolve_solid _ img r g b) by (done || (unfold w, h in *; lia)).
      f_equal. by apply magnitudeUniform_zero.
    + apply sobel_border; lia.
  - rewrite (proj2 (lookup_ge_None _ _)).
    + symmetry. apply lookup_replicate_None. lia.
    + unfold applySobelOperator. rewrite fillPlane_planeFill, planeFill_length.
      unfold newUint8Array. rewrite length_replicate. fold w h. lia.
Qed.

(** The mask value the classification gives a colour when the edge
    strength is 0. *)
Definition flatMaskValue (threshold tolerance : Number) (r g b : Z) : Z :=
  ToUint8 (if gt (ofZ 0) threshold
              || gt (colorDiffOf (ofZ r) (ofZ g) (ofZ b)) tolerance
           then 255 else 0).

Lemma flatMaskValue_cases (threshold tolerance : Number) (r g b : Z) :
  flatMaskValue threshold tolerance r g b = 0 \/
  flatMaskValue threshold tolerance r g b = 255.
Proof.
  unfold flatMaskValue. destruct (_ || _); [right | left]; vm_compute; reflexivity.
Qed.

Lemma classify_solid (img : Raster) (threshold tolerance : Number) (r g b : Z) :
  wellFormed img -> solidColour img r g b ->
  classify (data img) (replicate (width img * height img) 0) (width img)
    threshold tolerance (newUint8Array (width img * height img))
  = replicate (width img * height img) (flatMaskValue threshold tolerance r g b).
Proof.
  intros (Hw & Hh & Hlen & _) Hsolid. unfold classify.
  rewrite (pixelCount_exact _ _ Hlen).
  set (n := (width img * height img)%nat).
  pose proof (fun k a => classifyBody_insert (data img) (replicate n 0) (width img)
                threshold tolerance k a Hw) as Hbody.
  apply list_eq. intros j.
  destruct (decide (j < n)%nat) as [Hj|Hj].
  - rewrite (tabulate_hit _ (fun k => k) _ Hbody) ;
      [| intros; lia | lia | unfold newUint8Array; rewrite length_replicate; lia].
    rewrite lookup_replicate_2 by done. f_equal.
    destruct (Hsolid j Hj) as (Hr & Hg & Hb).
    rewrite (AdvancedEffectsFacts.get_Some _ _ _ Hr),
      (AdvancedEffectsFacts.get_Some _ _ _ Hg),
      (AdvancedEffectsFacts.get_Some _ _ _ Hb).
    unfold get. rewrite lookup_replicate_2 by done. reflexivity.
  - rewrite (proj2 (lookup_ge_None _ _)).
    + symmetry. apply lookup_replicate_None. lia.
    + rewrite (tabulate_length _ (fun k => k) _ Hbody).
      unfold newUint8Array. rewrite length_replicate. lia.
Qed.

(** *** Uniform masks *)

(** The offsets of a window that fall inside the image, by how far the
    image extends to the left, right, top and bottom of the pixel. *)
Definition insidePattern (lx rx ly ry dx dy : Z) : bool :=
  (- lx <=? dx) && (dx <=? rx) && (- ly <=? dy) && (dy <=? ry).

Lemma inside_pattern (w h x y : nat) (half dx dy : Z) :
  (x < w)%nat -> (y < h)%nat ->
  - half <= dx <= half -> - half <= dy <= half ->
  inside w h (Z.of_nat x + dx) (Z.of_nat y + dy) =
  insidePattern (Z.min (Z.of_nat x) half) (Z.min (Z.of_nat w - 1 - Z.of_nat x) half)
    (Z.min (Z.of_nat y) half) (Z.min (Z.of_nat h - 1 - Z.of_nat y) half) dx dy.
Proof.
  intros Hx Hy Hdx Hdy. unfold inside, insidePattern.
  apply eq_iff_eq_true.
  rewrite !andb_true_iff, !Z.leb_le, !Z.ltb_lt. lia.
Qed.

Lemma inside_read (w h : nat) (v nx ny : Z) :
  inside w h nx ny = true ->
  getZ (replicate (w * h) v) (ny * Z.of_nat w + nx) = ofZ v.
Proof.
  unfold inside. rewrite !andb_true_iff, !Z.leb_le, !Z.ltb_lt.
  intros (((Hx0 & Hx1) & Hy0) & Hy1).
  unfold getZ, get.
  replace (ny * Z.of_nat w + nx <? 0) with false
    by (symmetry; apply Z.ltb_ge; nia).
  rewrite lookup_replicate_2; [done|]. nia.
Qed.

(** The two averages over a uniform mask of value [v]. *)
Definition smoothUniform (v lx rx ly ry : Z) : Number :=
  let '(sum, count) :=
    windowFold 1 (fun dx dy '(sum, count) =>
      if insidePattern lx rx ly ry dx dy
      then ((sum + ofZ v)%float, (count + 1)%float)
      else (sum, count)) (0%float, 0%float) in
  Math_round (sum / count).

(** The step of the feathering loop at an offset inside the image. *)
Definition weightStep (size v dx dy : Z) (acc : Number * Number)
    : Number * Number :=
  let '(sum, count) := acc in
  let distance := Math_sqrt (ofZ dx * ofZ dx + ofZ dy * ofZ dy) in
  if (distance <=? ofZ size)%float then
    let weight := (1 - distance / ofZ size)%float in
    ((sum + ofZ v * weight)%float, (count + weight)%float)
  else (sum, count).

Definition average (acc : Number * Number) : Number :=
  Math_round (fst acc / snd acc).

Definition featherUniform (size v lx rx ly ry : Z) : Number :=
  average
    (windowFold size (fun dx dy acc =>
       if insidePattern lx rx ly ry dx dy then weightStep size v dx dy acc
       else acc) (0%float, 0%float)).

Lemma smoothValue_uniform (w h x y : nat) (v : Z) :
  (x < w)%nat -> (y < h)%nat ->
  smoothValue (replicate (w * h) v) w h x y =
  smoothUniform v (Z.min (Z.of_nat x) 1) (Z.min (Z.of_nat w - 1 - Z.of_nat x) 1)
    (Z.min (Z.of_nat y) 1) (Z.min (Z.of_nat h - 1 - Z.of_nat y) 1).
Proof.
  intros Hx Hy. unfold smoothValue, smoothUniform.
  erewrite windowFold_ext; [reflexivity|].
  intros dx dy [sum count] Hdx Hdy. cbv zeta.
  rewrite (inside_pattern w h x y 1) by done.
  destruct (insidePattern _ _ _ _ dx dy) eqn:Hin; [|done].
  rewrite <- (inside_pattern w h x y 1) in Hin by done.
  by rewrite inside_read.
Qed.

Lemma featherValue_uniform (w h x y : nat) (size v : Z) :
  (x < w)%nat -> (y < h)%nat ->
  featherValue (replicate (w * h) v) w h size x y =
  featherUniform size v
    (Z.min (Z.of_nat x) size) (Z.min (Z.of_nat w - 1 - Z.of_nat x) size)
    (Z.min (Z.of_nat y) size) (Z.min (Z.of_nat h - 1 - Z.of_nat y) size).
Proof.
  intros Hx Hy. unfold featherValue.
  match goal with
  | |- context [windowFold size ?f ?i] =>
      assert (E : windowFold size f i =
                  windowFold size (fun dx dy acc =>
                    if insidePattern (Z.min (Z.of_nat x) size)
                         (Z.min (Z.of_nat w - 1 - Z.of_nat x) size)
                         (Z.min (Z.of_nat y) size)
                         (Z.min (Z.of_nat h - 1 - Z.of_nat y) size) dx dy
                    then weightStep size v dx dy acc else acc) i)
  end.
  { apply windowFold_ext. intros dx dy [sum count] Hdx Hdy. cbv zeta.
    rewrite <- (inside_pattern w h x y size dx dy Hx Hy Hdx Hdy).
    destruct (inside w h _ _) eqn:Hin; [|done].
    unfold weightStep. rewrite (inside_read w h v _ _ Hin). reflexivity. }
  rewrite E. unfold featherUniform, average. clear E.
  match goal with |- context [windowFold size ?f ?i] => destruct (windowFold size f i) end.
  reflexivity.
Qed.

(** *** The averages of a uniform mask, checked by evaluation *)

Lemma smoothUniform_value (v lx rx ly ry : Z) :
  isByte v -> 0 <= lx <= 1 -> 0 <= rx <= 1 -> 0 <= ly <= 1 -> 0 <= ry <= 1 ->
  ToUint8 (smoothUniform v lx rx ly ry) = v.
Proof.
  intros Hv Hlx Hrx Hly Hry.
  assert (H : forBytes (fun v =>
            forallb (fun lx => forallb (fun rx => forallb (fun ly =>
            forallb (fun ry => ToUint8 (smoothUniform v lx rx ly ry) =? v)
              (zRange 0 1)) (zRange 0 1)) (zRange 0 1)) (zRange 0 1)) = true)
    by (vm_compute; reflexivity).
  apply Z.eqb_eq.
  pose proof (forBytes_spec _ H v Hv) as H1. cbv beta in H1.
  pose proof (forallb_zRange _ _ _ H1 lx Hlx) as H2. cbv beta in H2.
  pose proof (forallb_zRange _ _ _ H2 rx Hrx) as H3. cbv beta in H3.
  pose proof (forallb_zRange _ _ _ H3 ly Hly) as H4. cbv beta in H4.
  exact (forallb_zRange _ _ _ H4 ry Hry).
Qed.

Lemma map_seq_offset (lo : Z) (a b : nat) :
  map (fun k => lo + Z.of_nat k) (seq a b) =
  map (fun k => lo + Z.of_nat a + Z.of_nat k) (seq 0 b).
Proof.
  revert a. induction b as [|b IH]; intros a; [done|]. cbn [seq map].
  f_equal; [lia|].
  rewrite IH, <- seq_shift, map_map.
  apply map_ext. intros k. lia.
Qed.

Lemma zRange_split (lo mid hi : Z) :
  lo <= mid + 1 -> mid <= hi ->
  zRange lo hi = zRange lo mid ++ zRange (mid + 1) hi.
Proof.
  intros H1 H2. unfold zRange.
  replace (Z.to_nat (hi - lo + 1))
    with (Z.to_nat (mid - lo + 1) + Z.to_nat (hi - (mid + 1) + 1))%nat by lia.
  rewrite seq_app, map_app. f_equal.
  rewrite Nat.add_0_l, map_seq_offset.
  apply map_ext. intros k. lia.
Qed.

Lemma zRange_empty (lo hi : Z) : hi < lo -> zRange lo hi = [].
Proof. intros H. unfold zRange. by replace (Z.to_nat (hi - lo + 1)) with 0%nat by lia. Qed.

Lemma zRange_single (v : Z) : zRange v v = [v].
Proof.
  unfold zRange. replace (Z.to_nat (v - v + 1)) with 1%nat by lia.
  cbn [seq map]. f_equal. lia.
Qed.

Lemma foldl_skip {A B : Type} (f : A -> B -> A) (l : list B) (a : A) :
  (forall a b, In b l -> f a b = a) -> foldl f a l = a.
Proof.
  intros Hf. apply (foldl_invariant (fun a' => a' = a)); [|done].
  intros a' b Hb ->. by apply Hf.
Qed.

(** One row of the feathering window. *)
Definition rowPass (size v lx rx dy : Z) (acc : Number * Number)
    : Number * Number :=
  foldl (fun acc dx => weightStep size v dx dy acc) acc (zRange (- lx) rx).

(** A loop that skips what lies outside [lo .. hi] visits [lo .. hi]. *)
Lemma foldl_clip {A : Type} (f : Z -> A -> A) (half lo hi : Z) (a : A) :
  - half <= lo -> lo <= hi + 1 -> hi <= half ->
  foldl (fun a d => if (lo <=? d) && (d <=? hi) then f d a else a) a
    (zRange (- half) half)
  = foldl (fun a d => f d a) a (zRange lo hi).
Proof.
  intros H1 H2 H3.
  rewrite (zRange_split (- half) (lo - 1) half) by lia.
  rewrite (zRange_split (lo - 1 + 1) hi half) by lia.
  rewrite !foldl_app.
  rewrite (foldl_skip _ (zRange (- half) (lo - 1))).
  2:{ intros a' d Hd. apply zRange_sound in Hd.
      replace (lo <=? d) with false by (symmetry; apply Z.leb_gt; lia). done. }
  replace (lo - 1 + 1) with lo by lia.
  rewrite (foldl_skip _ (zRange (hi + 1) half)).
  2:{ intros a' d Hd. apply zRange_sound in Hd.
      replace (d <=? hi) with false by (symmetry; apply Z.leb_gt; lia).
      by rewrite andb_false_r. }
  apply foldl_ext_in. intros a' d Hd. apply zRange_sound in Hd.
  replace (lo <=? d) with true by (symmetry; apply Z.leb_le; lia).
  replace (d <=? hi) with true by (symmetry; apply Z.leb_le; lia). done.
Qed.

(** The window of a uniform mask, row by row. *)
Lemma featherUniform_rows (size v lx rx ly ry : Z) :
  0 <= lx <= size -> 0 <= rx <= size -> 0 <= ly <= size -> 0 <= ry <= size ->
  featherUniform size v lx rx ly ry =
  average (foldl (fun acc dy => rowPass size v lx rx dy acc)
             (0%float, 0%float) (zRange (- ly) ry)).
Proof.
  intros Hlx Hrx Hly Hry. unfold featherUniform, windowFold. f_equal.
  rewrite <- (foldl_clip (rowPass size v lx rx) size (- ly) ry) by lia.
  apply foldl_ext_in. intros acc dy Hdy. unfold insidePattern.
  destruct ((- ly <=? dy) && (dy <=? ry)) eqn:Hrow.
  - unfold rowPass.
    rewrite <- (foldl_clip (fun dx => weightStep size v dx dy) size (- lx) rx) by lia.
    apply foldl_ext_in. intros acc' dx Hdx.
    apply andb_true_iff in Hrow as [-> ->]. by rewrite !andb_true_r.
  - apply foldl_skip. intros acc' dx Hdx.
    apply andb_false_iff in Hrow as [-> | ->]; by rewrite ?andb_false_r.
Qed.

(** A number between two bounds of one negative exponent has that
    exponent and a mantissa between theirs. *)
Lemma Math_round_between (lo hi q : Number) (m0 m1 : positive) (e0 z : Z) :
  e0 < 0 -> z <> 0 ->
  Prim2SF lo = S754_finite false m0 e0 ->
  Prim2SF hi = S754_finite false m1 e0 ->
  (forall m, Z.pos m0 <= Z.pos m < Z.pos m1 -> roundSF false m e0 = z) ->
  (lo <=? q)%float = true -> (q <? hi)%float = true ->
  Math_round q = ofZ z.
Proof.
  intros He0 Hz Hlo Hhi Hround.
  rewrite FloatAxioms.leb_spec, FloatAxioms.ltb_spec, Hlo, Hhi.
  unfold Math_round, SFleb, SFltb, SFcompare.
  destruct (Prim2SF q) as [[]|[]| |[] m e]; try discriminate.
  intros H1 H2.
  assert (He : e = e0).
  { destruct (Z.compare_spec e0 e); destruct (Z.compare_spec e e0);
      try discriminate; lia. }
  subst e. rewrite Z.compare_refl in H1, H2.
  change (Pos.compare_cont Eq m0 m) with (Pos.compare m0 m) in H1.
  change (Pos.compare_cont Eq m m1) with (Pos.compare m m1) in H2.
  assert (Hm : Z.pos m0 <= Z.pos m < Z.pos m1).
  { destruct (Pos.compare_spec m0 m); destruct (Pos.compare_spec m m1);
      try discriminate; lia. }
  replace (0 <=? e0) with false by (symmetry; apply Z.leb_gt; lia).
  rewrite (Hround m Hm). cbv zeta.
  replace (z =? 0) with false by (symmetry; by apply Z.eqb_neq).
  reflexivity.
Qed.

(** A quotient between 254.5 and 255.5 rounds to 255. *)
Lemma Math_round_255 (q : Number) :
  (254.5 <=? q)%float = true -> (q <? 255.5)%float = true ->
  Math_round q = ofZ 255.
Proof.
  apply (Math_round_between 254.5 255.5 q
           8954422696607744 8989607068696576 (-45) 255);
    [lia | lia | vm_compute; reflexivity | vm_compute; reflexivity |].
  intros m Hm. unfold roundSF.
  replace (0 <=? -45) with false by reflexivity.
  replace (2 ^ (- -45)) with 35184372088832 by (vm_compute; reflexivity).
  replace (2 ^ (- -45 + 1)) with 70368744177664 by (vm_compute; reflexivity).
  unfold signed. symmetry.
  apply (Z.div_unique _ _ 255
           (2 * Z.pos m + 35184372088832 - 255 * 70368744177664)); lia.
Qed.

Lemma round_byte (v : Z) : isByte v -> ToUint8 (Math_round (ofZ v)) = v.
Proof.
  intros Hv.
  assert (H : forBytes (fun v => ToUint8 (Math_round (ofZ v)) =? v) = true)
    by (vm_compute; reflexivity).
  apply Z.eqb_eq. revert v Hv. apply forBytes_spec, H.
Qed.

(** The quotient [q] is stored as [v]: decided on the numbers where
    [q] is [v] itself or, for 255, lies within a half of it, and by the
    conversions otherwise. *)
Definition storedAs (v : Z) (q : Number) : bool :=
  if PrimFloat.Leibniz.eqb q (ofZ v) then true
  else if (v =? 255) && (254.5 <=? q)%float && (q <? 255.5)%float then true
  else ToUint8 (Math_round q) =? v.

Lemma storedAs_sound (v : Z) (q : Number) :
  isByte v -> storedAs v q = true -> ToUint8 (Math_round q) = v.
Proof.
  intros Hv. unfold storedAs.
  destruct (PrimFloat.Leibniz.eqb q (ofZ v)) eqn:Heq.
  { intros _. apply FloatAxioms.Leibniz.eqb_spec in Heq as ->. by apply round_byte. }
  destruct ((v =? 255) && (254.5 <=? q)%float && (q <? 255.5)%float) eqn:Hnear.
  { intros _. apply andb_true_iff in Hnear as [Hnear Hhi].
    apply andb_true_iff in Hnear as [Hv255 Hlo].
    apply Z.eqb_eq in Hv255 as ->.
    rewrite (Math_round_255 q Hlo Hhi). vm_compute. reflexivity. }
  apply Z.eqb_eq.
Qed.

(** The rows [r0], [r0 + 1], ... are added one after the other and the
    average is checked after each. *)
Fixpoint rowsCheck (n : nat) (f : Z -> Number * Number -> Number * Number)
    (v r0 : Z) (acc : Number * Number) : bool :=
  match n with
  | O => true
  | S n' =>
      let acc' := f r0 acc in
      if storedAs v (fst acc' / snd acc') then rowsCheck n' f v (r0 + 1) acc'
      else false
  end.

Lemma rowsCheck_sound (n : nat) (f : Z -> Number * Number -> Number * Number)
    (v lo r0 : Z) (init : Number * Number) :
  isByte v -> lo <= r0 ->
  rowsCheck n f v r0 (foldl (fun acc dy => f dy acc) init (zRange lo (r0 - 1)))
    = true ->
  forall ry, r0 <= ry < r0 + Z.of_nat n ->
    ToUint8 (average (foldl (fun acc dy => f dy acc) init (zRange lo ry))) = v.
Proof.
  intros Hv. revert r0. induction n as [|n IH]; intros r0 Hlo Hcheck ry Hry; [lia|].
  cbn [rowsCheck] in Hcheck.
  destruct (storedAs v _) eqn:Hnow in Hcheck; [|discriminate].
  assert (Hext : foldl (fun acc dy => f dy acc) init (zRange lo r0)
                 = f r0 (foldl (fun acc dy => f dy acc) init (zRange lo (r0 - 1)))).
  { rewrite (zRange_split lo (r0 - 1) r0) by lia.
    replace (r0 - 1 + 1) with r0 by lia.
    by rewrite zRange_single, foldl_app. }
  destruct (decide (ry = r0)) as [->|Hne].
  - rewrite Hext. unfold average. by apply storedAs_sound.
  - apply (IH (r0 + 1)); [lia | | lia].
    replace (r0 + 1 - 1) with r0 by lia. by rewrite Hext.
Qed.

(** Every window of a uniform mask of value [v], for one size. *)
Definition featherCheck (size v : Z) : bool :=
  forallb (fun lx => forallb (fun rx => forallb (fun ly =>
    rowsCheck (Z.to_nat (size + 1)) (rowPass size v lx rx) v 0
      (foldl (fun acc dy => rowPass size v lx rx dy acc) (0%float, 0%float)
         (zRange (- ly) (0 - 1))))
    (zRange 0 size)) (zRange 0 size)) (zRange 0 size).

Lemma featherCheck_sound (size v lx rx ly ry : Z) :
  isByte v -> featherCheck size v = true ->
  0 <= lx <= size -> 0 <= rx <= size -> 0 <= ly <= size -> 0 <= ry <= size ->
  ToUint8 (featherUniform size v lx rx ly ry) = v.
Proof.
  intros Hv H Hlx Hrx Hly Hry. unfold featherCheck in H.
  pose proof (forallb_zRange _ _ _ H lx Hlx) as H1. cbv beta in H1.
  pose proof (forallb_zRange _ _ _ H1 rx Hrx) as H2. cbv beta in H2.
  pose proof (forallb_zRange _ _ _ H2 ly Hly) as H3. cbv beta in H3.
  rewrite featherUniform_rows by done.
  apply (rowsCheck_sound _ _ v (- ly) 0 _ Hv ltac:(lia) H3). lia.
Qed.

(** Every size of the feather slider on the two mask values of the
    classification, and every byte at the sizes up to the default. *)
Lemma featherCheck_slider :
  forallb (fun size => featherCheck size 0 && featherCheck size 255)
    (zRange 1 10) = true.
Proof. vm_compute. reflexivity. Qed.

Lemma featherCheck_default :
  forallb (fun size => forBytes (featherCheck size)) (zRange 1 2) = true.
Proof. vm_compute. reflexivity. Qed.

Lemma featherUniform_value (size v lx rx ly ry : Z) :
  1 <= size <= 10 ->
  v = 0 \/ v = 255 \/ (isByte v /\ size <= 2) ->
  0 <= lx <= size -> 0 <= rx <= size -> 0 <= ly <= size -> 0 <= ry <= size ->
  ToUint8 (featherUniform size v lx rx ly ry) = v.
Proof.
  intros Hsize Hv. apply featherCheck_sound.
  { unfold isByte in *. destruct Hv as [-> | [-> | [Hv _]]]; lia. }
  destruct Hv as [-> | [-> | [Hv Hs]]].
  - pose proof (forallb_zRange _ _ _ featherCheck_slider size Hsize) as H.
    cbv beta in H. by apply andb_true_iff in H as [H _].
  - pose proof (forallb_zRange _ _ _ featherCheck_slider size Hsize) as H.
    cbv beta in H. by apply andb_true_iff in H as [_ H].
  - pose proof (forallb_zRange _ _ _ featherCheck_default size ltac:(lia)) as H.
    cbv beta in H. by apply (forBytes_spec _ H).
Qed.

Lemma smoothMask_uniform (w h : nat) (v : Z) :
  isByte v -> smoothMask (replicate (w * h) v) w h = replicate (w * h) v.
Proof.
  intros Hv. unfold smoothMask. apply fillPlane_constant.
  - unfold newUint8Array. by rewrite !length_replicate.
  - intros x y Hx Hy. rewrite smoothValue_uniform by done.
    apply smoothUniform_value; [done | lia..].
Qed.

Lemma featherMask_uniform (w h : nat) (size v : Z) :
  1 <= size <= 10 -> v = 0 \/ v = 255 \/ (isByte v /\ size <= 2) ->
  featherMask (replicate (w * h) v) w h size = replicate (w * h) v.
Proof.
  intros Hsize Hv. unfold featherMask. apply fillPlane_constant.
  - unfold newUint8Array. by rewrite !length_replicate.
  - intros x y Hx Hy. rewrite featherValue_uniform by done.
    apply featherUniform_value; [done | done | lia..].
Qed.

Lemma solidColour_byte (img : Raster) (r g b : Z) :
  wellFormed img -> solidColour img r g b -> isByte r.
Proof.
  intros Hwf Hsolid. destruct Hwf as (Hw & Hh & Hlen & Hb).
  destruct (Hsolid 0%nat ltac:(nia)) as (Hr & _).
  by eapply Forall_lookup_1.
Qed.

(** C7: on an image of one colour, with threshold 20 and tolerance 30,
    the edge strength is 0 at every pixel, the distance from white is the
    same at every pixel, the classification yields a mask that is 0
    everywhere or 255 everywhere, a smoothing pass and a feathering pass
    return a uniform mask unchanged, and so the derived mask is that
    uniform mask. *)
Theorem solid_colour_segmentation (img : Raster) (r g b : Z) :
  wellFormed img -> solidColour img r g b ->
  let w := width img in
  let h := height img in
  let sobelData := applySobelOperator (data img) w h in
  let m := flatMaskValue 20 30 r g b in
  sobelData = replicate (w * h) 0 /\
  (forall p, (p < w * h)%nat ->
     colorDiffOf (get (data img) (4 * p)) (get (data img) (4 * p + 1))
       (get (data img) (4 * p + 2))
     = colorDiffOf (ofZ r) (ofZ g) (ofZ b)) /\
  (m = 0 \/ m = 255) /\
  classify (data img) sobelData w 20 30 (newUint8Array (w * h))
    = replicate (w * h) m /\
  (forall v, isByte v -> smoothMask (replicate (w * h) v) w h = replicate (w * h) v) /\
  (forall size v, 1 <= size <= 10 -> v = 0 \/ v = 255 \/ (isByte v /\ size <= 2) ->
     featherMask (replicate (w * h) v) w h size = replicate (w * h) v) /\
  (forall smoothing featherSize, featherSize <= 10 ->
     deriveMask img 20 30 smoothing featherSize = replicate (w * h) m).
Proof.
  intros Hwf Hsolid w h sobelData m.
  assert (Hsobel : sobelData = replicate (w * h) 0).
  { eapply sobel_solid; [|done]. by eapply solidColour_byte. }
  assert (Hm : m = 0 \/ m = 255) by apply flatMaskValue_cases.
  assert (Hclass : classify (data img) sobelData w 20 30 (newUint8Array (w * h))
                   = replicate (w * h) m).
  { rewrite Hsobel. by apply classify_solid. }
  split; [done|]. split.
  { intros p Hp. destruct (Hsolid p Hp) as (Hr & Hg & Hb).
    by rewrite (AdvancedEffectsFacts.get_Some _ _ _ Hr),
      (AdvancedEffectsFacts.get_Some _ _ _ Hg),
      (AdvancedEffectsFacts.get_Some _ _ _ Hb). }
  split; [done|]. split; [done|].
  split; [intros v Hv; by apply smoothMask_uniform|].
  split; [intros size v Hsize Hv; by apply featherMask_uniform|].
  intros smoothing featherSize Hfs. unfold deriveMask, getImageData.
  fold w h. fold sobelData. rewrite Hclass.
  assert (Hbyte : isByte m) by (unfold isByte; lia).
  assert (Hsmooth : (if 0 <? smoothing
                     then Nat.iter (Z.to_nat smoothing)
                            (fun mask => smoothMask mask w h) (replicate (w * h) m)
                     else replicate (w * h) m) = replicate (w * h) m).
  { destruct (0 <? smoothing); [|done].
    induction (Z.to_nat smoothing) as [|n IH]; [done|].
    rewrite Nat.iter_succ, IH. by apply smoothMask_uniform. }
  rewrite Hsmooth.
  destruct (0 <? featherSize) eqn:Hf; [|done].
  apply Z.ltb_lt in Hf. apply featherMask_uniform; [lia|].
  destruct Hm as [-> | ->]; auto.
Qed.

(** An image of [w * h] pixels of one colour. *)
Fixpoint solidData (n : nat) (r g b a : Z) : list Z :=
  match n with
  | O => []
  | S n' => r :: g :: b :: a :: solidData n' r g b a
  end.

Definition solidImage (w h : nat) (r g b a : Z) : Raster :=
  mkRaster w h (solidData (w * h) r g b a).

Lemma solidData_lookup (n : nat) (r g b a : Z) (p : nat) :
  (p < n)%nat ->
  solidData n r g b a !! (4 * p)%nat = Some r /\
  solidData n r g b a !! (4 * p + 1)%nat = Some g /\
  solidData n r g b a !! (4 * p + 2)%nat = Some b.
Proof.
  revert p. induction n as [|n IH]; intros p Hp; [lia|].
  destruct p as [|p]; [done|].
  replace (4 * S p)%nat with (S (S (S (S (4 * p))))) by lia.
  cbn [solidData Nat.add]. apply IH. lia.
Qed.

Lemma solidImage_wellFormed (w h : nat) (r g b a : Z) :
  (0 < w)%nat -> (0 < h)%nat -> isByte r -> isByte g -> isByte b -> isByte a ->
  wellFormed (solidImage w h r g b a).
Proof.
  intros Hw Hh Hr Hg Hb Ha. unfold wellFormed, solidImage. cbn [width height data].
  split; [done|]. split; [done|].
  generalize (w * h)%nat. intros n. split.
  - induction n as [|n IH]; [done|]. cbn [solidData length]. lia.
  - induction n as [|n IH]; [constructor|]. cbn [solidData].
    repeat (constructor; [assumption|]). exact IH.
Defined.

Lemma solidImage_solid (w h : nat) (r g b a : Z) :
  solidColour (solidImage w h r g b a) r g b.
Proof. intros p Hp. by apply solidData_lookup. Defined.

(** The 10 by 10 images of the specification's test: a light grey one is
    all background, a dark one all foreground. *)
Lemma solid_colour_segmentation_witness :
  deriveMask (solidImage 10 10 250 250 250 255) 20 30 1 2 = replicate 100 0 /\
  deriveMask (solidImage 10 10 10 20 30 255) 20 30 1 2 = replicate 100 255.
Proof.
  assert (Hbyte : forall v, 0 <= v <= 255 -> isByte v) by (intros v Hv; exact Hv).
  split.
  - pose proof (solid_colour_segmentation (solidImage 10 10 250 250 250 255)
                  250 250 250
                  (solidImage_wellFormed 10 10 250 250 250 255
                     ltac:(lia) ltac:(lia) ltac:(apply Hbyte; lia)
                     ltac:(apply Hbyte; lia) ltac:(apply Hbyte; lia)
                     ltac:(apply Hbyte; lia))
                  (solidImage_solid 10 10 250 250 250 255)) as H.
    cbv zeta in H. destruct H as (_ & _ & _ & _ & _ & _ & H).
    exact (H 1 2 ltac:(lia)).
  - pose proof (solid_colour_segmentation (solidImage 10 10 10 20 30 255)
                  10 20 30
                  (solidImage_wellFormed 10 10 10 20 30 255
                     ltac:(lia) ltac:(lia) ltac:(apply Hbyte; lia)
                     ltac:(apply Hbyte; lia) ltac:(apply Hbyte; lia)
                     ltac:(apply Hbyte; lia))
                  (solidImage_solid 10 10 10 20 30 255)) as H.
    cbv zeta in H. destruct H as (_ & _ & _ & _ & _ & _ & H).
    exact (H 1 2 ltac:(lia)).
Defined.

(** *** A strong edge that is missed *)

Definition column (left : Z) : list Z :=
  [left; 255; 255; 255;  255; 255; 255; 255;  255; 255; 255; 255].

(** A 3 by 3 white image whose left column has the red value [left]. *)
Definition edgeImage (left : Z) : Raster :=
  mkRaster 3 3 (column left ++ column left ++ column left).

(** C9: the edge strength of an inner pixel is stored as its truncated
    gradient magnitude modulo 256.  On the white image with left column
    191 the magnitude at the centre is 256, the stored strength is 0, which
    is not above the threshold 20, and the centre is classified as
    background; the weaker edge of the left column 231 (magnitude 96) is
    classified as foreground.  The left column 0 gives the magnitude 1020,
    stored as 252. *)
Theorem sobel_edge_strength_wraps :
  (forall (data : bytes) (w h x y : nat) (z : Z),
     (1 <= x)%nat -> (x + 1 < w)%nat -> (1 <= y)%nat -> (y + 1 < h)%nat ->
     truncZ (magnitudeAt data w x y) = Some z ->
     applySobelOperator data w h !! (y * w + x)%nat = Some (z mod 256)) /\
  (magnitudeAt (data (edgeImage 191)) 3 1 1 = 256%float /\
   applySobelOperator (data (edgeImage 191)) 3 3 !! 4%nat = Some 0 /\
   gt 0 20 = false /\
   deriveMask (edgeImage 191) 20 30 0 0 !! 4%nat = Some 0 /\
   data (processImage (edgeImage 191) 20 30 0 0) !! 19%nat = Some 0) /\
  (magnitudeAt (data (edgeImage 231)) 3 1 1 = 96%float /\
   deriveMask (edgeImage 231) 20 30 0 0 !! 4%nat = Some 255) /\
  (magnitudeAt (data (edgeImage 0)) 3 1 1 = 1020%float /\
   applySobelOperator (data (edgeImage 0)) 3 3 !! 4%nat = Some 252).
Proof.
  split.
  { intros data w h x y z Hx1 Hx2 Hy1 Hy2 Hz.
    rewrite sobel_interior by done. unfold ToUint8. by rewrite Hz. }
  repeat split; vm_compute; reflexivity.
Qed.

End SegmentationFacts.

(** ** A browser for concrete runs *)
Module ExampleHost.
Import AdvancedEffects.

Fixpoint mapPixels (f : Z -> Z -> Z -> Z -> list Z) (a : bytes) : bytes :=
  match a with
  | r :: g :: b :: alpha :: rest => f r g b alpha ++ mapPixels f rest
  | _ => a
  end.

Fixpoint pixelsOf (a : bytes) : list (list Z) :=
  match a with
  | r :: g :: b :: alpha :: rest => [r; g; b; alpha] :: pixelsOf rest
  | _ => []
  end.

Fixpoint rowsOf (rows w : nat) (pixels : list (list Z)) : list (list (list Z)) :=
  match rows with
  | O => []
  | S rows' => take w pixels :: rowsOf rows' w (drop w pixels)
  end.

Definition onData (f : bytes -> bytes) (canvas : Raster) : Raster :=
  mkRaster (width canvas) (height canvas) (f (data canvas)).

(** [invert(100%)] on an opaque pixel; the other entries are left out:
    they change nothing at their neutral values. *)
Definition applyFilter (f : Filter) (a : bytes) : bytes :=
  match f with
  | Invert100 =>
      mapPixels (fun r g b alpha => [255 - r; 255 - g; 255 - b; alpha]) a
  | _ => a
  end.

(** Multiply blending of an opaque pixel with a fill of colour [#rrggbb]
    at the given alpha.  The fill goes through the filter of the context
    before it is blended. *)
Definition multiplyChannel (alpha : Number) (c : Z) (t : Number) : Z :=
  ToUint8Clamp (ofZ c * (1 - alpha) + alpha * (ofZ c * t / 255)).

Definition fillPixel (filters : list Filter) (colour : string) : bytes :=
  let t := hexToRgb colour in
  foldl (fun a f => applyFilter f a)
    [ToUint8Clamp (AdvancedEffects.r t); ToUint8Clamp (AdvancedEffects.g t);
     ToUint8Clamp (AdvancedEffects.b t); 255] filters.

Definition multiplyFill (filters : list Filter) (colour : string)
    (alpha : Number) (a : bytes) : bytes :=
  match fillPixel filters colour with
  | [tr; tg; tb; _] =>
      mapPixels (fun r g b al =>
        [multiplyChannel alpha r (ofZ tr); multiplyChannel alpha g (ofZ tg);
         multiplyChannel alpha b (ofZ tb); al]) a
  | _ => a
  end.

(** The encoders: every browser writes PNG, JPEG and WebP; any other type
    asked of [toBlob] is written as PNG. *)
Definition encodedType (type : string) : string :=
  if String.eqb type "image/jpeg" || String.eqb type "image/webp" then type
  else "image/png".

(** The mirror block on opaque pixels.  [scale(-1, 1)] with
    [drawImage(canvas, -w, 0)] reverses every row; [scale(1, -1)] with
    [drawImage(canvas, 0, -h)] reverses the order of the rows.  For [both]
    the second draw runs under the accumulated scale (-1, -1) and falls
    left of the canvas. *)
Definition mirrorData (axis : MirrorAxis) (w h : nat) (a : bytes) : bytes :=
  let rows := rowsOf h w (pixelsOf a) in
  match axis with
  | vertical | both => concat (concat (map reverse rows))
  | horizontal => concat (concat (reverse rows))
  end.

(** Modelled from the spec: the browser's canvas and [Math.pow], which are
    not part of the repository.  The instance follows sections 4.2 and 4.4
    of the specification on the inputs of the concrete runs in this file:
    opaque pixels, rotation 0 without flips, no pixelation, filter lists
    whose only entry off its neutral value is [invert(100%)], tint colours
    written [#rrggbb], no kaleidoscope and the exponents 1 and 2.  Outside
    of them it keeps the canvas (or raises, for pixelation and for an empty
    slice).  A blob holds the pixel array of the canvas in place of an
    encoding of it, and compression keeps the bytes. *)
Definition exampleHost : Host := {|
  getContext2d := true;
  drawTransformed := fun _ _ _ img => img;
  drawPixelated := fun _ _ => None;
  drawFiltered := fun filters canvas =>
    onData (fun a => foldl (fun a f => applyFilter f a) a filters) canvas;
  fillMultiply := fun filters colour alpha canvas =>
    onData (multiplyFill filters colour alpha) canvas;
  drawKaleidoscope := fun _ canvas => canvas;
  drawMirrored := fun axis canvas =>
    onData (mirrorData axis (width canvas) (height canvas)) canvas;
  moveSlice := fun _ _ sliceHeight canvas =>
    if gt sliceHeight 0 then Some canvas else None;
  Math_pow := fun x y =>
    if (y =? 1)%float then x else if (y =? 2)%float then (x * x)%float else nan;
  toBlob := fun canvas type _ =>
    if (width canvas =? 0)%nat || (height canvas =? 0)%nat then None
    else Some {| blobType := encodedType type; blobBytes := data canvas |};
  imageCompression := fun file fileType _ =>
    Some {| blobType := fileType; blobBytes := blobBytes file |}
|}.

End ExampleHost.

(** ** Conversion and preview compared *)
Module PipelineFacts.
Import ImageProcessor.

(** The stages of the specification. *)
Inductive Stage := Geometric | Pixelation | Emboss | ColorFilter | Tint.

Section WithHost.
Context {host : Host}.

(** A stage acts on the canvas at hand and on the [filter] of the context
    that draws on it: the filter stage draws into a fresh canvas whose
    context keeps the filter list, and a tint fills through the filter of
    the context it finds. *)
Definition runStage (o : ProcessingOptions) (stage : Stage)
    (s : Raster * list Filter) : Promise (Raster * list Filter) :=
  let '(canvas, ctxFilter) := s in
  match stage with
  | Geometric =>
      inr (drawTransformed (rotation o) (flipX o) (flipY o) canvas, ctxFilter)
  | Pixelation =>
      if gt (pixelate o) 1
      then await canvas <- orRaise CanvasError (drawPixelated (pixelate o) canvas) ;;
           inr (canvas, ctxFilter)
      else inr (canvas, ctxFilter)
  | Emboss =>
      inr (if emboss o then Stages.emboss canvas else canvas, ctxFilter)
  | ColorFilter =>
      let filters :=
        Stages.filterList (brightness o) (contrast o) (blur o)
          (saturation o) (sepia o) (hueRotate o) (invert o) (grayscale o) in
      inr (drawFiltered filters canvas, filters)
  | Tint =>
      inr (if negb (String.eqb (tintColor o) "none")
           then fillMultiply ctxFilter (tintColor o) (tintIntensity o / 100) canvas
           else canvas, ctxFilter)
  end.

(** The stages of a list, each applied to the result of the one before,
    from the image on a context without filter. *)
Definition runStages (o : ProcessingOptions) (stages : list Stage) (img : Raster)
    : Promise Raster :=
  await s <- foldl (fun acc stage => await s <- acc ;; runStage o stage s)
               (inr (img, [])) stages ;;
  inr (fst s).

End WithHost.

(** The settings of a preview as conversion options (PNG, so that the
    quality does not matter). *)
Definition optionsOf (props : PreviewEffect.PreviewEffectProps)
    : ProcessingOptions :=
  {| format := "png"; quality := 100;
     brightness := PreviewEffect.brightness props;
     contrast := PreviewEffect.contrast props;
     rotation := PreviewEffect.rotation props;
     flipX := PreviewEffect.flipX props;
     flipY := PreviewEffect.flipY props;
     blur := PreviewEffect.blur props;
     saturation := PreviewEffect.saturation props;
     sepia := PreviewEffect.sepia props;
     hueRotate := PreviewEffect.hueRotate props;
     invert := PreviewEffect.invert props;
     grayscale := PreviewEffect.grayscale props;
     pixelate := PreviewEffect.pixelate props;
     emboss := PreviewEffect.emboss props;
     tintColor := PreviewEffect.tintColor props;
     tintIntensity := PreviewEffect.tintIntensity props |}.

Lemma render_stage_order `{Host} (o : ProcessingOptions) (img : Raster) :
  render o img = runStages o [Geometric; Pixelation; Emboss; ColorFilter; Tint] img.
Proof.
  unfold render, runStages. cbn.
  destruct (1 <? _)%float; [destruct (drawPixelated _ _)|]; reflexivity.
Qed.

Lemma preview_stage_order `{Host} (props : PreviewEffect.PreviewEffectProps)
    (img : Raster) :
  PreviewEffect.generatePreview props img =
  runStages (optionsOf props)
    [Geometric; Pixelation; Emboss; Tint; ColorFilter] img.
Proof.
  unfold PreviewEffect.generatePreview, runStages. cbn.
  destruct (1 <? _)%float; [destruct (drawPixelated _ _)|]; reflexivity.
Qed.

(** A white pixel, inverted and tinted red at full intensity. *)
Definition whitePixel : Raster := mkRaster 1 1 [255; 255; 255; 255].

Definition invertedRedTint : PreviewEffect.PreviewEffectProps :=
  {| PreviewEffect.brightness := 100; PreviewEffect.contrast := 100;
     PreviewEffect.rotation := 0;
     PreviewEffect.flipX := false; PreviewEffect.flipY := false;
     PreviewEffect.blur := 0; PreviewEffect.saturation := 100;
     PreviewEffect.sepia := 0; PreviewEffect.hueRotate := 0;
     PreviewEffect.invert := true; PreviewEffect.grayscale := false;
     PreviewEffect.pixelate := 1; PreviewEffect.emboss := false;
     PreviewEffect.tintColor := "#ff0000";
     PreviewEffect.tintIntensity := 100 |}.

(** C3 fails on the code: conversion filters and then tints, the preview
    tints and then filters, and the two orders give different pixels.
    The white pixel is converted to black (inverted to black, and black
    stays black under the tint, which is itself drawn through the filter)
    and previewed as cyan (tinted red, then inverted). *)
Theorem preview_differs_from_conversion :
  (forall (host : Host) (o : ProcessingOptions) (img : Raster),
     render o img =
     runStages o [Geometric; Pixelation; Emboss; ColorFilter; Tint] img) /\
  (forall (host : Host) (props : PreviewEffect.PreviewEffectProps) (img : Raster),
     PreviewEffect.generatePreview props img =
     runStages (optionsOf props)
       [Geometric; Pixelation; Emboss; Tint; ColorFilter] img) /\
  render (host := ExampleHost.exampleHost) (optionsOf invertedRedTint) whitePixel
    = inr (mkRaster 1 1 [0; 0; 0; 255]) /\
  PreviewEffect.generatePreview (host := ExampleHost.exampleHost)
    invertedRedTint whitePixel
    = inr (mkRaster 1 1 [0; 255; 255; 255]).
Proof.
  split; [intros; apply render_stage_order|].
  split; [intros; apply preview_stage_order|].
  split; vm_compute; reflexivity.
Qed.

End PipelineFacts.

(** ** The archive of a batch *)
Module ArchiveFacts.
Import ImageProcessor.

Lemma zipFile_fresh (member : string) (content : Blob) (zip : Zip) :
  ~ In member (map fst zip) -> zipFile member content zip = zip ++ [(member, content)].
Proof.
  induction zip as [|[m c] zip IH]; intros Hfresh; cbn; [done|].
  destruct (String.eqb_spec m member) as [->|Hne].
  - exfalso. apply Hfresh. by left.
  - f_equal. apply IH. intros Hin. apply Hfresh. by right.
Qed.

Lemma zipFile_known (member : string) (content : Blob) (zip : Zip) :
  In member (map fst zip) ->
  map fst (zipFile member content zip) = map fst zip.
Proof.
  induction zip as [|[m c] zip IH]; cbn [zipFile]; [intros []|].
  destruct (String.eqb_spec m member) as [->|Hne]; [done|].
  intros [Heq|Hin]; [done|]. cbn [map fst]. f_equal. by apply IH.
Qed.

Lemma zipFile_here (member : string) (content : Blob) (zip : Zip) :
  In (member, content) (zipFile member content zip).
Proof.
  induction zip as [|[m c] zip IH]; cbn; [by left|].
  destruct (String.eqb_spec m member) as [->|Hne]; [by left | by right].
Qed.

Lemma zipFile_other (member : string) (content : Blob) (zip : Zip)
    (m : string) (c : Blob) :
  m <> member -> In (m, c) zip -> In (m, c) (zipFile member content zip).
Proof.
  intros Hne. induction zip as [|[m' c'] zip IH]; cbn; [done|].
  destruct (String.eqb_spec m' member) as [->|Hne'].
  - intros [[= <- <-]|Hin]; [done | by right].
  - intros [Heq|Hin]; [by left | right; by apply IH].
Qed.

Lemma zipFile_from (member : string) (content : Blob) (zip : Zip)
    (m : string) (c : Blob) :
  In (m, c) (zipFile member content zip) ->
  (m = member /\ c = content) \/ In (m, c) zip.
Proof.
  induction zip as [|[m' c'] zip IH]; cbn.
  - intros [[= <- <-]|[]]. by left.
  - destruct (String.eqb_spec m' member) as [->|Hne'].
    + intros [[= <- <-]|Hin]; [by left | right; by right].
    + intros [Heq|Hin]; [right; by left|].
      destruct (IH Hin) as [?|?]; [by left | right; by right].
Qed.

(** The names of the archive after one more member. *)
Lemma zipFile_names (member : string) (content : Blob) (zip : Zip) :
  map fst (zipFile member content zip) = map fst zip \/
  (~ In member (map fst zip) /\
   map fst (zipFile member content zip) = map fst zip ++ [member]).
Proof.
  destruct (in_dec string_dec member (map fst zip)) as [Hin|Hnin].
  - left. by apply zipFile_known.
  - right. split; [done|]. by rewrite zipFile_fresh, map_app.
Qed.

Section WithHost.
Context {host : Host}.

Definition fulfilled (o : ProcessingOptions) (file : File) : Prop :=
  exists blob, processImage file o = Fulfilled blob.

Lemma addMember_fulfilled (o : ProcessingOptions) (zip : Zip) (file : File)
    (blob : Blob) :
  processImage file o = Fulfilled blob ->
  addMember o zip file = zipFile (memberName file o) blob zip.
Proof. intros Hblob. unfold addMember. by rewrite Hblob. Qed.

Lemma existsb_isRejected (o : ProcessingOptions) (files : list File) :
  existsb isRejected (map (fun file => processImage file o) files) = true <->
  exists file e, In file files /\ processImage file o = Rejected e.
Proof.
  rewrite existsb_exists. split.
  - intros (p & Hin & Hp). apply in_map_iff in Hin as (file & <- & Hin).
    destruct (processImage file o) as [blob|e|] eqn:Hfile; try discriminate.
    by exists file, e.
  - intros (file & e & Hin & Hfile). exists (Rejected e). split; [|done].
    apply in_map_iff. by exists file.
Qed.

Lemma existsb_isPending (o : ProcessingOptions) (files : list File) :
  existsb isPending (map (fun file => processImage file o) files) = true <->
  exists file, In file files /\ processImage file o = NeverSettles.
Proof.
  rewrite existsb_exists. split.
  - intros (p & Hin & Hp). apply in_map_iff in Hin as (file & <- & Hin).
    destruct (processImage file o) as [blob|e|] eqn:Hfile; try discriminate.
    by exists file.
  - intros (file & Hin & Hfile). exists NeverSettles. split; [|done].
    apply in_map_iff. exists file. by rewrite Hfile.
Qed.

(** The three outcomes of a batch, whatever the order of completion. *)
Lemma convertBatch_outcome (settled files : list File) (o : ProcessingOptions) :
  (convertBatch settled files o = BatchFailed /\
   exists file e, In file files /\ processImage file o = Rejected e) \/
  (convertBatch settled files o = BatchPending /\
   (forall file e, In file files -> processImage file o <> Rejected e) /\
   exists file, In file files /\ processImage file o = NeverSettles) \/
  (convertBatch settled files o
   = BatchDownloaded (foldl (addMember o) [] settled) (length files) /\
   forall file, In file files -> fulfilled o file).
Proof.
  unfold convertBatch. cbv zeta.
  destruct (existsb isRejected _) eqn:Hrej.
  { left. split; [done|]. by apply existsb_isRejected. }
  assert (Hnone : forall file e, In file files -> processImage file o <> Rejected e).
  { intros file e Hin Hfile.
    assert (true = false) as Habs; [|discriminate].
    rewrite <- Hrej. symmetry. apply existsb_isRejected. by exists file, e. }
  destruct (existsb isPending _) eqn:Hpend.
  { right. left. split; [done|]. split; [done|]. by apply existsb_isPending. }
  right. right. split; [done|]. intros file Hin.
  destruct (processImage file o) as [blob|e|] eqn:Hfile.
  - by exists blob.
  - by destruct (Hnone file e Hin).
  - assert (true = false) as Habs; [|discriminate].
    rewrite <- Hpend. symmetry. apply existsb_isPending. by exists file.
Qed.

(** Every member of the archive is the conversion of a file that was
    added under that name. *)
Lemma addMembers_from (o : ProcessingOptions) (settled : list File) (zip : Zip)
    (m : string) (c : Blob) :
  In (m, c) (foldl (addMember o) zip settled) ->
  In (m, c) zip \/
  exists file, In file settled /\ memberName file o = m /\
    processImage file o = Fulfilled c.
Proof.
  revert zip. induction settled as [|file settled IH]; intros zip; cbn [foldl];
    [by left|].
  intros Hin. destruct (IH _ Hin) as [Hzip|(f & Hf & Hm & Hc)].
  - unfold addMember in Hzip.
    destruct (processImage file o) as [blob|e|] eqn:Hfile; try by left.
    apply zipFile_from in Hzip as [[-> ->]|Hzip]; [|by left].
    right. exists file. by split; [left|].
  - right. exists f. by split; [right|].
Qed.

(** The names of the archive: those it had and those of the files added,
    each once. *)
Lemma addMembers_names (o : ProcessingOptions) (settled : list File) (zip : Zip) :
  (forall file, In file settled -> fulfilled o file) ->
  List.NoDup (map fst zip) ->
  List.NoDup (map fst (foldl (addMember o) zip settled)) /\
  (forall m, In m (map fst (foldl (addMember o) zip settled)) <->
     In m (map fst zip) \/ exists file, In file settled /\ memberName file o = m) /\
  (length (foldl (addMember o) zip settled) <= length zip + length settled)%nat.
Proof.
  revert zip. induction settled as [|file settled IH]; intros zip Hall Hnd;
    cbn [foldl].
  - split; [done|]. split; [|cbn; lia].
    intros m. split; [by left|]. by intros [?|(f & [] & _)].
  - destruct (Hall file (or_introl eq_refl)) as [blob Hblob].
    rewrite (addMember_fulfilled o zip file blob Hblob).
    pose proof (zipFile_names (memberName file o) blob zip) as Hnames.
    assert (Hnd1 : List.NoDup (map fst (zipFile (memberName file o) blob zip))).
    { destruct Hnames as [-> | [Hnew ->]]; [done|].
      apply List.NoDup_app; [done | repeat constructor; by intros [] |].
      intros m Hm [<-|[]]. done. }
    assert (Hlen1 : (length (zipFile (memberName file o) blob zip)
                     <= S (length zip))%nat).
    { rewrite <- (length_map fst), <- (length_map fst zip).
      destruct Hnames as [-> | [_ ->]]; [lia|]. rewrite length_app. cbn. lia. }
    destruct (IH _ (fun f Hf => Hall f (or_intror Hf)) Hnd1) as (Hnd' & Hin' & Hlen').
    split; [done|]. split; [|cbn [length]; lia].
    intros m. rewrite Hin'. split.
    + intros [Hm|(f & Hf & <-)].
      * destruct Hnames as [E | [_ E]]; rewrite E in Hm; [by left|].
        apply in_app_iff in Hm as [Hm|[<-|[]]]; [by left|].
        right. exists file. by split; [left|].
      * right. exists f. by split; [right|].
    + intros [Hm|(f & [<-|Hf] & <-)].
      * left. destruct Hnames as [E | [_ E]]; rewrite E; [done|].
        apply in_app_iff. by left.
      * left. destruct Hnames as [E | [_ E]]; rewrite E.
        -- rewrite <- E.
           change (memberName file o) with (fst (memberName file o, blob)) at 1.
           apply in_map, zipFile_here.
        -- apply in_app_iff. right. by left.
      * right. by exists f.
Qed.

(** A member stays as it is while no file of its name is added. *)
Lemma addMembers_keeps (o : ProcessingOptions) (settled : list File) (zip : Zip)
    (m : string) (c : Blob) :
  (forall file, In file settled -> memberName file o <> m) ->
  In (m, c) zip -> In (m, c) (foldl (addMember o) zip settled).
Proof.
  revert zip. induction settled as [|file settled IH]; intros zip Hne Hin;
    cbn [foldl]; [done|].
  apply IH; [intros f Hf; apply Hne; by right|].
  unfold addMember. destruct (processImage file o) as [blob|e|]; try done.
  apply zipFile_other; [|done]. intros ->. by apply (Hne file); [left|].
Qed.

(** With names that are new to the archive and differ from one another,
    every file adds a member at the end. *)
Lemma addMembers_fresh (o : ProcessingOptions) (settled : list File) (zip : Zip) :
  (forall file, In file settled -> fulfilled o file) ->
  List.NoDup (map (fun file => memberName file o) settled) ->
  (forall file, In file settled -> ~ In (memberName file o) (map fst zip)) ->
  exists added, foldl (addMember o) zip settled = zip ++ added /\
    Forall2 (fun file member =>
               convertImage file o = Downloaded (fst member) (snd member))
      settled added.
Proof.
  revert zip. induction settled as [|file settled IH]; intros zip Hall Hnd Hfresh;
    cbn [foldl].
  - exists []. by rewrite app_nil_r.
  - destruct (Hall file (or_introl eq_refl)) as [blob Hblob].
    rewrite (addMember_fulfilled o zip file blob Hblob).
    inversion Hnd as [|? ? Hnotin Hnd']; subst.
    rewrite zipFile_fresh by (apply Hfresh; by left).
    assert (Hfresh' : forall f, In f settled ->
              ~ In (memberName f o) (map fst (zip ++ [(memberName file o, blob)]))).
    { intros f Hf. rewrite map_app, in_app_iff. intros [Hin|[Heq|[]]].
      - by apply (Hfresh f); [right|].
      - apply Hnotin. cbn in Heq. rewrite Heq.
        by apply (in_map (fun file => memberName file o)). }
    destruct (IH _ (fun f Hf => Hall f (or_intror Hf)) Hnd' Hfresh')
      as (added & -> & Hadded).
    exists ((memberName file o, blob) :: added). split; [by rewrite <- app_assoc|].
    constructor; [|done]. unfold convertImage. by rewrite Hblob.
Qed.

End WithHost.
End ArchiveFacts.

(** ** Facts about batch conversion *)
Module BatchFacts.
Import ImageProcessor ArchiveFacts.

Section WithHost.
Context {host : Host}.

(** C2, as amended: the batch is all or nothing, in whatever order the
    conversions complete.  The failure of any one item is caught once, for
    the whole batch: the batch fails and no archive is produced.  An
    archive is produced exactly when the conversion of every item is
    fulfilled; the success toast then counts every file, and the archive
    holds under the name [<base>-converted.<format>] of every item the
    conversion of an item of that name, each name once, and nothing else. *)
Theorem convertBatch_all_or_nothing (settled files : list File)
    (o : ProcessingOptions) :
  Permutation settled files ->
  (convertBatch settled files o = BatchFailed <->
   exists file e, In file files /\ processImage file o = Rejected e) /\
  ((exists archive n, convertBatch settled files o = BatchDownloaded archive n) <->
   forall file, In file files -> exists blob, processImage file o = Fulfilled blob) /\
  (forall archive n, convertBatch settled files o = BatchDownloaded archive n ->
     n = length files /\
     List.NoDup (map fst archive) /\
     (forall file, In file files -> In (memberName file o) (map fst archive)) /\
     (forall member content, In (member, content) archive ->
        exists file, In file files /\ memberName file o = member /\
          processImage file o = Fulfilled content)).
Proof.
  intros Hperm.
  assert (Hin : forall file, In file settled <-> In file files).
  { intros file. split; apply Permutation_in; [done | by symmetry]. }
  destruct (convertBatch_outcome settled files o)
    as [[Hout Hrej] | [(Hout & Hnone & Hpend) | [Hout Hall]]]; rewrite Hout.
  - split; [done|]. split; [|discriminate].
    split; [by intros (? & ? & ?)|].
    intros Hall. destruct Hrej as (file & e & Hfile & He).
    destruct (Hall file Hfile) as [blob Hblob]. congruence.
  - split; [split; [discriminate|]; intros (file & e & Hfile & He);
            by destruct (Hnone file e Hfile)|].
    split; [|discriminate]. split; [by intros (? & ? & ?)|].
    intros Hall. destruct Hpend as (file & Hfile & Hp).
    destruct (Hall file Hfile) as [blob Hblob]. congruence.
  - split.
    { split; [discriminate|]. intros (file & e & Hfile & He).
      destruct (Hall file Hfile) as [blob Hblob]. congruence. }
    split; [split; [done | by eexists _, _]|].
    intros archive n [= <- <-].
    destruct (addMembers_names o settled [])
      as (Hnd & Hnames & _); [intros f Hf; by apply Hall, Hin | constructor |].
    split; [done|]. split; [done|]. split.
    + intros file Hfile. apply Hnames. right. exists file. by split; [apply Hin|].
    + intros member content Hmem.
      apply addMembers_from in Hmem as [[]|(file & Hfile & Hm & Hc)].
      exists file. by split; [apply Hin|].
Qed.

End WithHost.

Definition sampleOptions : ProcessingOptions :=
  {| format := "png"; quality := 90; brightness := 100; contrast := 100;
     rotation := 0; flipX := false; flipY := false; blur := 0;
     saturation := 100; sepia := 0; hueRotate := 0; invert := false;
     grayscale := false; pixelate := 1; emboss := false; tintColor := "none";
     tintIntensity := 0 |}.

Definition goodFile (fileName : string) : File :=
  {| name := fileName; size := 1000; type := "image/png";
     bitmap := Some (mkRaster 1 1 [10; 20; 30; 255]) |}.

(** A file whose bytes [createImageBitmap] cannot decode. *)
Definition undecodableFile (fileName : string) : File :=
  {| name := fileName; size := 1000; type := "image/png"; bitmap := None |}.

Definition threeFiles : list File :=
  [goodFile "one.png"; undecodableFile "two.png"; goodFile "three.png"].

(** A batch of two files whose conversions complete in the other order. *)
Lemma convertBatch_all_or_nothing_witness :
  exists archive,
    convertBatch (host := ExampleHost.exampleHost)
      [goodFile "three.png"; goodFile "one.png"]
      [goodFile "one.png"; goodFile "three.png"] sampleOptions
    = BatchDownloaded archive 2 /\
    map fst archive = ["three-converted.png"; "one-converted.png"]%string /\
    List.NoDup (map fst archive) /\
    (forall member content, In (member, content) archive ->
       exists file,
         In file [goodFile "one.png"; goodFile "three.png"] /\
         memberName file sampleOptions = member /\
         processImage (host := ExampleHost.exampleHost) file sampleOptions
         = Fulfilled content).
Proof.
  eexists. split; [vm_compute; reflexivity|]. split; [reflexivity|].
  destruct (convertBatch_all_or_nothing (host := ExampleHost.exampleHost)
              [goodFile "three.png"; goodFile "one.png"]
              [goodFile "one.png"; goodFile "three.png"] sampleOptions
              (perm_swap _ _ []))
    as (_ & _ & Harchive).
  destruct (Harchive _ 2%nat eq_refl) as (_ & Hnd & _ & Hfrom).
  split; [exact Hnd | exact Hfrom].
Defined.

(** C2, as stated, fails: with an undecodable second item the batch of
    three fails as a whole, in whatever order the conversions complete, and
    no archive of two members is produced, although the first and the third
    item are converted without error. *)
Lemma convertBatch_undecodable_item :
  (forall settled,
     convertBatch (host := ExampleHost.exampleHost) settled threeFiles
       sampleOptions = BatchFailed) /\
  (exists blob,
     processImage (host := ExampleHost.exampleHost) (goodFile "one.png")
       sampleOptions = Fulfilled blob) /\
  (exists blob,
     processImage (host := ExampleHost.exampleHost) (goodFile "three.png")
       sampleOptions = Fulfilled blob) /\
  processImage (host := ExampleHost.exampleHost) (undecodableFile "two.png")
    sampleOptions = Rejected UndecodableImage /\
  (forall settled archive n,
     convertBatch (host := ExampleHost.exampleHost) settled threeFiles
       sampleOptions <> BatchDownloaded archive n).
Proof.
  assert (H : forall settled,
            convertBatch (host := ExampleHost.exampleHost) settled threeFiles
              sampleOptions = BatchFailed) by (intros settled; reflexivity).
  split; [exact H|].
  split; [eexists; vm_compute; reflexivity|].
  split; [eexists; vm_compute; reflexivity|].
  split; [vm_compute; reflexivity|].
  intros settled archive n. rewrite H. discriminate.
Qed.

(** A batch without failure: one member per file, in the order in which
    the conversions complete. *)
Lemma convertBatch_two_files :
  exists blob1 blob2,
    convertBatch (host := ExampleHost.exampleHost)
      [goodFile "one.png"; goodFile "three.png"]
      [goodFile "one.png"; goodFile "three.png"] sampleOptions
    = BatchDownloaded
        [("one-converted.png"%string, blob1);
         ("three-converted.png"%string, blob2)] 2 /\
    convertBatch (host := ExampleHost.exampleHost)
      [goodFile "three.png"; goodFile "one.png"]
      [goodFile "one.png"; goodFile "three.png"] sampleOptions
    = BatchDownloaded
        [("three-converted.png"%string, blob2);
         ("one-converted.png"%string, blob1)] 2.
Proof. eexists _, _. split; vm_compute; reflexivity. Qed.

End BatchFacts.

(** ** The advanced effects as a whole *)
Module AdvancedPipelineFacts.
Import AdvancedEffects.

Section WithHost.
Context {host : Host}.

(** The loops over [data] in the order of the source, without the canvas
    drawing between them. *)
Definition dataEffects (settings : Settings) (random : nat -> Number)
    (data : bytes) : bytes :=
  let data :=
    if gt (noiseAmount settings) 0
    then fst (applyNoise random (noiseAmount settings) (data, 0%nat))
    else data in
  let data :=
    if colorSplash settings
    then applyColorSplash (targetHue settings) (hueTolerance settings) data
    else data in
  let data :=
    if neq (gamma settings) 1 then applyGamma (gamma settings) data else data in
  let balance := colorBalance settings in
  let data :=
    if neq (r balance) 0 || neq (g balance) 0 || neq (b balance) 0
    then applyColorBalance balance data
    else data in
  if splitToning settings
  then applySplitToning (highlightColor settings) (shadowColor settings) data
  else data.

(** The composition the specification describes (section 4.4): the
    enabled effects in the order noise, kaleidoscope, mirror, colour
    splash, glitch, gamma, colour balance, split toning, each applied to
    the result of the one before. *)
Definition sequentialEffects (settings : Settings) (random : nat -> Number)
    (img : Raster) : Promise Raster :=
  let onPixels (f : bytes -> bytes) (canvas : Raster) :=
    putImageData canvas (f (getImageData canvas)) in
  let canvas := img in
  let '(canvas, cursor) :=
    if gt (noiseAmount settings) 0 then
      let noisy := applyNoise random (noiseAmount settings)
                     (getImageData canvas, 0%nat) in
      (putImageData canvas (fst noisy), snd noisy)
    else (canvas, 0%nat) in
  let canvas :=
    if gt (kaleidoscope settings) 0
    then drawKaleidoscope (Math_floor (kaleidoscope settings * 8) + 2) canvas
    else canvas in
  let canvas :=
    if mirror settings then drawMirrored (mirrorAxis settings) canvas
    else canvas in
  let canvas :=
    if colorSplash settings
    then onPixels (applyColorSplash (targetHue settings) (hueTolerance settings))
           canvas
    else canvas in
  await glitched <-
    (if gt (glitchIntensity settings) 0 then
       glitchLoop random (glitchIntensity settings)
         (Math_floor (ofNat (height canvas) / 20))
         (iterations (Math_floor (glitchIntensity settings * 5)))
         (canvas, cursor)
     else inr (canvas, cursor)) ;;
  let canvas := fst glitched in
  let canvas :=
    if neq (gamma settings) 1 then onPixels (applyGamma (gamma settings)) canvas
    else canvas in
  let balance := colorBalance settings in
  let canvas :=
    if neq (r balance) 0 || neq (g balance) 0 || neq (b balance) 0
    then onPixels (applyColorBalance balance) canvas
    else canvas in
  let canvas :=
    if splitToning settings
    then onPixels (applySplitToning (highlightColor settings)
                     (shadowColor settings)) canvas
    else canvas in
  inr canvas.

(** C4 fails on the code: whatever the browser draws for kaleidoscope,
    mirror and glitch, the pixels of the processed file are the input
    pixels after the loops over [data] alone.  The final
    [putImageData(imageData, 0, 0)] overwrites the canvas with the array
    read before any drawing. *)
Theorem canvas_drawing_is_overwritten (settings : Settings)
    (random : nat -> Number) (img out : Raster) :
  applyAdvancedEffects settings random img = inr out ->
  data out = dataEffects settings random (data img).
Proof.
  unfold applyAdvancedEffects, dataEffects, getImageData, putImageData.
  destruct (gt (noiseAmount settings) 0).
  - destruct (applyNoise _ _ _) as [noisy cursor]. cbn [fst].
    destruct (if gt (glitchIntensity settings) 0 then _ else _)
      as [e|[canvas cursor']]; cbn; [discriminate|].
    by intros [= <-].
  - destruct (if gt (glitchIntensity settings) 0 then _ else _)
      as [e|[canvas cursor']]; cbn; [discriminate|].
    by intros [= <-].
Qed.

(** The array a run hands to [putImageData]. *)
Lemma applyAdvancedEffects_pixels (settings : Settings)
    (random : nat -> Number) (img out : Raster) :
  applyAdvancedEffects settings random img = inr out ->
  data out = dataEffects settings random (getImageData img).
Proof.
  unfold applyAdvancedEffects, dataEffects, putImageData.
  destruct (gt (noiseAmount settings) 0);
    [destruct (applyNoise _ _ _) as [noisy cursor]; cbn [fst]|];
    (destruct (if gt (glitchIntensity settings) 0 then _ else _)
       as [e|[canvas cursor']]; cbn; [discriminate|]);
    by intros [= <-].
Qed.

(** Only the glitch loop can raise. *)
Lemma applyAdvancedEffects_cases (settings : Settings)
    (random : nat -> Number) (img : Raster) :
  (exists out, applyAdvancedEffects settings random img = inr out) \/
  (applyAdvancedEffects settings random img = inl CanvasError /\
   gt (glitchIntensity settings) 0 = true).
Proof.
  unfold applyAdvancedEffects.
  destruct (if gt (noiseAmount settings) 0 then _ else _) as [noisy cursor].
  destruct (gt (glitchIntensity settings) 0) eqn:Hg; [|left; by eexists].
  match goal with
  | |- context [glitchLoop ?r ?g ?h ?n ?s] =>
      assert (Hloop : (exists s', glitchLoop r g h n s = inr s') \/
                      glitchLoop r g h n s = inl CanvasError);
      [|destruct Hloop as [[s' ->] | ->]; cbn; [left; by eexists | by right]]
  end.
  match goal with
  | |- context [glitchLoop ?r ?g ?h ?n ?s] => generalize s; generalize n
  end.
  intros n. induction n as [|n IH]; intros [canvas c]; cbn [glitchLoop];
    [left; by eexists|].
  destruct (moveSlice _ _ _ canvas) as [canvas'|]; cbn; [apply IH | by right].
Qed.

(** The loops over [data] use no random number when noise is off. *)
Lemma dataEffects_without_noise (settings : Settings)
    (random1 random2 : nat -> Number) (data : bytes) :
  gt (noiseAmount settings) 0 = false ->
  dataEffects settings random1 data = dataEffects settings random2 data.
Proof. intros Hn. unfold dataEffects. by rewrite Hn. Qed.

(** C1, as amended: with noise off the output pixels do not depend on
    what [Math.random()] returns, although the glitch effect calls it: the
    loops over the pixel array use no random number, and what glitch draws
    is overwritten.  Every run then ends with the same pixels, or, with
    glitch on, in the exception of a canvas call; with glitch off as well
    every run ends with the same result. *)
Theorem effects_deterministic_without_noise (settings : Settings)
    (img : Raster) :
  gt (noiseAmount settings) 0 = false ->
  (exists pixels : bytes,
     forall random : nat -> Number,
       (exists out,
          applyAdvancedEffects settings random img = inr out /\
          data out = pixels) \/
       (applyAdvancedEffects settings random img = inl CanvasError /\
        gt (glitchIntensity settings) 0 = true)) /\
  (gt (glitchIntensity settings) 0 = false ->
   exists out, forall random : nat -> Number,
     applyAdvancedEffects settings random img = inr out).
Proof.
  intros Hn. split.
  - exists (dataEffects settings (fun _ => 0%float) (getImageData img)).
    intros random.
    destruct (applyAdvancedEffects_cases settings random img)
      as [[out Hout] | Hraise]; [left | by right].
    exists out. split; [done|].
    rewrite (applyAdvancedEffects_pixels settings random img out Hout).
    by apply dataEffects_without_noise.
  - intros Hg.
    destruct (applyAdvancedEffects_cases settings (fun _ => 0%float) img)
      as [[out Hout] | [_ Hg']]; [|congruence].
    exists out. intros random. rewrite <- Hout.
    unfold applyAdvancedEffects. by rewrite Hn, Hg.
Qed.

End WithHost.

Definition withMirror : Settings :=
  {| noiseAmount := 0; kaleidoscope := 0; mirror := true;
     mirrorAxis := vertical; colorSplash := false; targetHue := 0;
     hueTolerance := 20; glitchIntensity := 0; gamma := 1;
     colorBalance := mkRGB 0 0 0; splitToning := false;
     highlightColor := "#ffeb3b"; shadowColor := "#3f51b5" |}.

Definition withNoise : Settings :=
  {| noiseAmount := 100; kaleidoscope := 0; mirror := false;
     mirrorAxis := vertical; colorSplash := false; targetHue := 0;
     hueTolerance := 20; glitchIntensity := 0; gamma := 1;
     colorBalance := mkRGB 0 0 0; splitToning := false;
     highlightColor := "#ffeb3b"; shadowColor := "#3f51b5" |}.

Definition withSplitToning : Settings :=
  {| noiseAmount := 0; kaleidoscope := 0; mirror := false;
     mirrorAxis := vertical; colorSplash := false; targetHue := 0;
     hueTolerance := 20; glitchIntensity := 0; gamma := 1;
     colorBalance := mkRGB 10 0 (-10); splitToning := true;
     highlightColor := "#ffeb3b"; shadowColor := "#3f51b5" |}.

Definition withGlitch : Settings :=
  {| noiseAmount := 0; kaleidoscope := 0; mirror := false;
     mirrorAxis := vertical; colorSplash := false; targetHue := 0;
     hueTolerance := 20; glitchIntensity := 1; gamma := 1;
     colorBalance := mkRGB 10 0 (-10); splitToning := true;
     highlightColor := "#ffeb3b"; shadowColor := "#3f51b5" |}.

(** A red pixel left of a blue pixel, a grey pixel, and a column of
    twenty grey pixels. *)
Definition redBlue : Raster := mkRaster 2 1 [255; 0; 0; 255;  0; 0; 255; 255].
Definition greyPixel : Raster := mkRaster 1 1 [100; 100; 100; 255].
Definition greyColumn : Raster :=
  mkRaster 1 20 (concat (replicate 20 [100; 100; 100; 255])).

(** The mirror effect alone: the processed file is the input. *)
Lemma canvas_drawing_is_overwritten_witness :
  exists out,
    applyAdvancedEffects (host := ExampleHost.exampleHost) withMirror
      (fun _ => 0.5%float) redBlue = inr out /\
    data out = dataEffects (host := ExampleHost.exampleHost) withMirror
                 (fun _ => 0.5%float) (data redBlue) /\
    data out = data redBlue.
Proof.
  exists redBlue.
  assert (H : applyAdvancedEffects (host := ExampleHost.exampleHost) withMirror
                (fun _ => 0.5%float) redBlue = inr redBlue)
    by (vm_compute; reflexivity).
  split; [exact H|].
  split; [|reflexivity].
  exact (canvas_drawing_is_overwritten (host := ExampleHost.exampleHost)
           withMirror (fun _ => 0.5%float) redBlue redBlue H).
Defined.

(** On that input the code and the composition of the specification
    differ: the code returns the image unchanged, the composition returns
    it mirrored. *)
Lemma mirror_is_lost :
  applyAdvancedEffects (host := ExampleHost.exampleHost) withMirror
    (fun _ => 0.5%float) redBlue
  = inr (mkRaster 2 1 [255; 0; 0; 255;  0; 0; 255; 255]) /\
  sequentialEffects (host := ExampleHost.exampleHost) withMirror
    (fun _ => 0.5%float) redBlue
  = inr (mkRaster 2 1 [0; 0; 255; 255;  255; 0; 0; 255]).
Proof. split; vm_compute; reflexivity. Qed.

(** Glitch on, noise off, on a column of twenty grey pixels: two runs
    with different random numbers end with the same pixels. *)
Lemma effects_deterministic_without_noise_witness :
  exists out1 out2,
    applyAdvancedEffects (host := ExampleHost.exampleHost) withGlitch
      (fun _ => 0.75%float) greyColumn = inr out1 /\
    applyAdvancedEffects (host := ExampleHost.exampleHost) withGlitch
      (fun _ => 0.25%float) greyColumn = inr out2 /\
    data out1 = data out2.
Proof.
  eexists _, _.
  split; [vm_compute; reflexivity|]. split; [vm_compute; reflexivity|].
  match goal with
  | |- data ?r1 = data ?r2 =>
      assert (E1 : applyAdvancedEffects (host := ExampleHost.exampleHost)
                     withGlitch (fun _ => 0.75%float) greyColumn = inr r1)
        by (vm_compute; reflexivity);
      assert (E2 : applyAdvancedEffects (host := ExampleHost.exampleHost)
                     withGlitch (fun _ => 0.25%float) greyColumn = inr r2)
        by (vm_compute; reflexivity)
  end.
  destruct (effects_deterministic_without_noise
              (host := ExampleHost.exampleHost) withGlitch greyColumn eq_refl)
    as [[pixels Hpixels] _].
  destruct (Hpixels (fun _ => 0.75%float)) as [(o1 & H1 & D1) | [H1 _]];
    rewrite E1 in H1; [|discriminate H1].
  destruct (Hpixels (fun _ => 0.25%float)) as [(o2 & H2 & D2) | [H2 _]];
    rewrite E2 in H2; [|discriminate H2].
  injection H1 as <-. injection H2 as <-. exact (eq_trans D1 (eq_sym D2)).
Defined.

(** C1, as stated, fails: with noise on, two runs with equal settings on
    the same grey pixel differ when [Math.random()] returns 0.75 in one
    and 0.25 in the other. *)
Lemma noise_depends_on_random :
  applyAdvancedEffects (host := ExampleHost.exampleHost) withNoise
    (fun _ => 0.75%float) greyPixel
  = inr (mkRaster 1 1 [125; 125; 125; 255]) /\
  applyAdvancedEffects (host := ExampleHost.exampleHost) withNoise
    (fun _ => 0.25%float) greyPixel
  = inr (mkRaster 1 1 [75; 75; 75; 255]) /\
  applyAdvancedEffects (host := ExampleHost.exampleHost) withNoise
    (fun _ => 0.75%float) greyPixel <>
  applyAdvancedEffects (host := ExampleHost.exampleHost) withNoise
    (fun _ => 0.25%float) greyPixel.
Proof.
  split; [vm_compute; reflexivity|].
  split; [vm_compute; reflexivity|].
  vm_compute. discriminate.
Qed.

End AdvancedPipelineFacts.

(** ** Conversion of one file and of a batch compared *)
Module ConversionFacts.
Import ImageProcessor ArchiveFacts.

(** *** The preview without tint *)

(** X1: when no tint is set ([tintColor] is [none]) the preview and the
    conversion put the same pixels on their canvas, for every image and
    every other setting: the two pipelines differ in the place of the tint
    only. *)
Theorem preview_matches_conversion_without_tint `{Host}
    (props : PreviewEffect.PreviewEffectProps) (img : Raster) :
  PreviewEffect.tintColor props = "none"%string ->
  PreviewEffect.generatePreview props img
  = render (PipelineFacts.optionsOf props) img.
Proof.
  intros Htint. unfold PreviewEffect.generatePreview, render.
  cbn [PipelineFacts.optionsOf rotation flipX flipY pixelate emboss brightness
         contrast blur saturation sepia hueRotate invert grayscale tintColor
         tintIntensity].
  rewrite Htint. reflexivity.
Qed.

Definition invertedOnly : PreviewEffect.PreviewEffectProps :=
  {| PreviewEffect.brightness := 100; PreviewEffect.contrast := 100;
     PreviewEffect.rotation := 0;
     PreviewEffect.flipX := false; PreviewEffect.flipY := false;
     PreviewEffect.blur := 0; PreviewEffect.saturation := 100;
     PreviewEffect.sepia := 0; PreviewEffect.hueRotate := 0;
     PreviewEffect.invert := true; PreviewEffect.grayscale := false;
     PreviewEffect.pixelate := 1; PreviewEffect.emboss := true;
     PreviewEffect.tintColor := "none";
     PreviewEffect.tintIntensity := 50 |}.

Lemma preview_matches_conversion_without_tint_witness :
  PreviewEffect.generatePreview (host := ExampleHost.exampleHost) invertedOnly
    EmbossFacts.sampleRow
  = render (host := ExampleHost.exampleHost)
      (PipelineFacts.optionsOf invertedOnly) EmbossFacts.sampleRow.
Proof.
  apply (preview_matches_conversion_without_tint
           (H := ExampleHost.exampleHost)). reflexivity.
Defined.

(** *** The names of the downloads *)

Definition noDot (s : string) : Prop :=
  forall c, In c (list_ascii_of_string s) -> c <> "."%char.

Lemma beforeDot_prefix (base rest : string) :
  noDot base -> (rest = EmptyString \/ exists r, rest = String "." r) ->
  beforeDot (base ++ rest) = base.
Proof.
  intros Hbase Hrest. induction base as [|c base IH]; cbn.
  - destruct Hrest as [-> | [r ->]]; reflexivity.
  - destruct (Ascii.eqb_spec c ".") as [->|Hc].
    + exfalso. apply (Hbase "."%char); [by left | done].
    + f_equal. apply IH. intros c' Hc'. apply Hbase. by right.
Qed.

Lemma beforeDot_noDot (s : string) : noDot (beforeDot s).
Proof.
  induction s as [|c s IH]; cbn; [intros c' []|].
  destruct (Ascii.eqb_spec c ".") as [->|Hc]; [intros c' []|].
  intros c' [<-|Hc']; [done | by apply IH].
Qed.

(** X2: the download is named after the part of the file name before its
    first dot ([name.split('.')[0]]), followed by [-converted.] and the
    format, in a single conversion and in a batch alike; what follows the
    first dot is dropped, not only the extension. *)
Theorem download_name_first_component `{Host} (file : File)
    (options : ProcessingOptions) (base rest : string) :
  name file = (base ++ rest)%string -> noDot base ->
  (rest = EmptyString \/ exists r, rest = String "." r) ->
  memberName file options = (base ++ "-converted." ++ format options)%string /\
  (forall download content,
     convertImage file options = Downloaded download content ->
     download = (base ++ "-converted." ++ format options)%string).
Proof.
  intros Hname Hbase Hrest.
  assert (E : beforeDot (name file) = base)
    by (rewrite Hname; by apply beforeDot_prefix).
  split.
  - unfold memberName. by rewrite E.
  - intros download content. unfold convertImage.
    destruct (processImage file options); try discriminate.
    cbv zeta. rewrite E. by intros [= <- _].
Qed.


Lemma download_name_first_component_witness :
  memberName (BatchFacts.goodFile "holiday.final.png") BatchFacts.sampleOptions
  = "holiday-converted.png"%string /\
  memberName (BatchFacts.goodFile ".hidden") BatchFacts.sampleOptions
  = "-converted.png"%string.
Proof.
  split.
  - apply (download_name_first_component (H := ExampleHost.exampleHost)
             (BatchFacts.goodFile "holiday.final.png") BatchFacts.sampleOptions
             "holiday" ".final.png").
    + reflexivity.
    + intros c Hc. cbn in Hc.
      repeat (destruct Hc as [<-|Hc]; [discriminate|]). destruct Hc.
    + right. by eexists.
  - apply (download_name_first_component (H := ExampleHost.exampleHost)
             (BatchFacts.goodFile ".hidden") BatchFacts.sampleOptions
             "" ".hidden").
    + reflexivity.
    + intros c [].
    + right. by eexists.
Defined.

(** *** The members of the archive *)

Section WithHost.
Context {host : Host}.

(** X3: a batch that succeeds and whose files have different member
    names yields an archive with one member per file, each with the name
    and the content a single conversion of that file downloads.  The
    members stand in the order in which the conversions complete, which
    need not be the order of the files. *)
Theorem convertBatch_one_member_per_file (settled files : list File)
    (o : ProcessingOptions) (archive : Zip) (n : nat) :
  Permutation settled files ->
  List.NoDup (map (fun file => memberName file o) files) ->
  convertBatch settled files o = BatchDownloaded archive n ->
  Forall2 (fun file member =>
             convertImage file o = Downloaded (fst member) (snd member))
    settled archive /\
  length archive = length files.
Proof.
  intros Hperm Hnd Hout.
  destruct (convertBatch_outcome settled files o)
    as [[Hout' _] | [[Hout' _] | [Hout' Hall]]]; rewrite Hout' in Hout;
    try discriminate.
  injection Hout as <- <-.
  destruct (addMembers_fresh o settled []) as (added & -> & Hadded).
  - intros file Hin. apply Hall. by apply (Permutation_in _ Hperm).
  - apply (Permutation_NoDup (l := map (fun file => memberName file o) files));
      [|done]. apply Permutation_map. by symmetry.
  - by intros f _ [].
  - split; [done|]. cbn [app].
    rewrite <- (Forall2_length _ _ _ Hadded). by apply Permutation_length.
Qed.

(** X4: the archive holds one member per member name.  Of the files with
    the same name before the first dot the one whose conversion completes
    last wins, wherever it stands in the list: its content is the member's,
    the others are overwritten, and the success toast still counts every
    file. *)
Theorem convertBatch_same_name_last_wins (before after files : list File)
    (file : File) (o : ProcessingOptions) (archive : Zip) (n : nat) :
  Permutation (before ++ file :: after) files ->
  convertBatch (before ++ file :: after) files o = BatchDownloaded archive n ->
  (forall later, In later after -> memberName later o <> memberName file o) ->
  List.NoDup (map fst archive) /\
  (exists blob, processImage file o = Fulfilled blob /\
     In (memberName file o, blob) archive) /\
  (forall m, In m (map fst archive) <->
     exists f, In f files /\ memberName f o = m) /\
  (length archive <= length files)%nat /\
  n = length files.
Proof.
  intros Hperm Hout Hlater.
  assert (Hin : forall f, In f (before ++ file :: after) <-> In f files).
  { intros f. split; apply Permutation_in; [done | by symmetry]. }
  destruct (convertBatch_outcome (before ++ file :: after) files o)
    as [[Hout' _] | [[Hout' _] | [Hout' Hall]]]; rewrite Hout' in Hout;
    try discriminate.
  injection Hout as <- <-.
  destruct (addMembers_names o (before ++ file :: after) [])
    as (Hnd & Hnames & Hlen); [intros f Hf; by apply Hall, Hin | constructor |].
  split; [done|]. split; [|split; [|split; [|done]]].
  - destruct (Hall file) as [blob Hblob]; [apply Hin, in_app_iff; right; by left|].
    exists blob. split; [done|].
    rewrite foldl_app. cbn [foldl].
    apply addMembers_keeps; [done|].
    rewrite (addMember_fulfilled o _ file blob Hblob). apply zipFile_here.
  - intros m. rewrite Hnames. split.
    + intros [[]|(f & Hf & Hm)]. exists f. by split; [apply Hin|].
    + intros (f & Hf & Hm). right. exists f. by split; [apply Hin|].
  - rewrite <- (Permutation_length Hperm). cbn [length] in Hlen. lia.
Qed.

End WithHost.

(** A second file whose name has the base of [a.png]. *)
Definition darkFile (fileName : string) : File :=
  {| name := fileName; size := 2000; type := "image/jpeg";
     bitmap := Some (mkRaster 1 1 [1; 2; 3; 255]) |}.

Lemma convertBatch_one_member_per_file_witness :
  exists archive,
    convertBatch (host := ExampleHost.exampleHost)
      [BatchFacts.goodFile "three.png"; BatchFacts.goodFile "one.png"]
      [BatchFacts.goodFile "one.png"; BatchFacts.goodFile "three.png"]
      BatchFacts.sampleOptions = BatchDownloaded archive 2 /\
    map fst archive = ["three-converted.png"; "one-converted.png"]%string /\
    Forall2 (fun file member =>
               convertImage (host := ExampleHost.exampleHost) file
                 BatchFacts.sampleOptions
               = Downloaded (fst member) (snd member))
      [BatchFacts.goodFile "three.png"; BatchFacts.goodFile "one.png"] archive.
Proof.
  eexists. split; [vm_compute; reflexivity|]. split; [reflexivity|].
  apply (convertBatch_one_member_per_file (host := ExampleHost.exampleHost)
           _ [BatchFacts.goodFile "one.png"; BatchFacts.goodFile "three.png"]
           BatchFacts.sampleOptions _ 2).
  - apply perm_swap.
  - vm_compute. constructor; [intros [E|[]]; discriminate E|].
    constructor; [intros []|constructor].
  - vm_compute. reflexivity.
Defined.

(** Two files of the same base name: the member is the conversion of the
    first file of the list when that one completes last. *)
Lemma convertBatch_same_name_last_wins_witness :
  exists archive blob,
    convertBatch (host := ExampleHost.exampleHost)
      [darkFile "a.jpg"; BatchFacts.goodFile "a.png"]
      [BatchFacts.goodFile "a.png"; darkFile "a.jpg"] BatchFacts.sampleOptions
    = BatchDownloaded archive 2 /\
    processImage (host := ExampleHost.exampleHost) (BatchFacts.goodFile "a.png")
      BatchFacts.sampleOptions = Fulfilled blob /\
    In ("a-converted.png"%string, blob) archive /\
    List.NoDup (map fst archive) /\
    length archive = 1%nat.
Proof.
  eexists. eexists.
  split; [vm_compute; reflexivity|].
  split; [vm_compute; reflexivity|].
  destruct (convertBatch_same_name_last_wins (host := ExampleHost.exampleHost)
              [darkFile "a.jpg"] []
              [BatchFacts.goodFile "a.png"; darkFile "a.jpg"]
              (BatchFacts.goodFile "a.png")
              BatchFacts.sampleOptions _ 2 (perm_swap _ _ []) eq_refl
              (fun later (H : In later []) => match H with end))
    as (Hnd & (blob & Hblob & Hin) & _).
  split; [|split; [exact Hnd | reflexivity]].
  injection Hblob as <-. exact Hin.
Defined.

(** The same two files: which conversion is archived depends on the order
    of completion alone. *)
Lemma convertBatch_same_name_race :
  exists first second,
    processImage (host := ExampleHost.exampleHost) (BatchFacts.goodFile "a.png")
      BatchFacts.sampleOptions = Fulfilled first /\
    processImage (host := ExampleHost.exampleHost) (darkFile "a.jpg")
      BatchFacts.sampleOptions = Fulfilled second /\
    first <> second /\
    convertBatch (host := ExampleHost.exampleHost)
      [BatchFacts.goodFile "a.png"; darkFile "a.jpg"]
      [BatchFacts.goodFile "a.png"; darkFile "a.jpg"] BatchFacts.sampleOptions
    = BatchDownloaded [("a-converted.png"%string, second)] 2 /\
    convertBatch (host := ExampleHost.exampleHost)
      [darkFile "a.jpg"; BatchFacts.goodFile "a.png"]
      [BatchFacts.goodFile "a.png"; darkFile "a.jpg"] BatchFacts.sampleOptions
    = BatchDownloaded [("a-converted.png"%string, first)] 2.
Proof.
  eexists _, _. split; [vm_compute; reflexivity|].
  split; [vm_compute; reflexivity|].
  split; [discriminate|]. split; vm_compute; reflexivity.
Qed.

Section Outcomes.
Context {host : Host}.

(** *** The ways a conversion ends *)

(** The canvas a conversion encodes, when it gets that far. *)
Definition encoded (file : File) (options : ProcessingOptions)
    (tempCanvas : Raster) : Prop :=
  validateImage file = true /\ getContext2d = true /\
  exists img, bitmap file = Some img /\ render options img = inr tempCanvas.

Definition requestedType (options : ProcessingOptions) : string :=
  "image/" ++ format options.

Definition requestedQuality (options : ProcessingOptions) : option Number :=
  if String.eqb (format options) "png" then None
  else Some (quality options / 100)%float.

Definition compresses (options : ProcessingOptions) : bool :=
  negb (String.eqb (format options) "png") && (quality options <? 100)%float.

Lemma processImage_encoded (file : File) (options : ProcessingOptions)
    (tempCanvas : Raster) :
  encoded file options tempCanvas ->
  processImage file options = encode options tempCanvas.
Proof.
  intros (Hvalid & Hctx & img & Himg & Hrender). unfold processImage.
  by rewrite Hvalid, Hctx, Himg, Hrender.
Qed.

(** A conversion that is neither rejected nor stuck before the canvas is
    encoded gets as far as [toBlob]. *)
Lemma processImage_cases (file : File) (options : ProcessingOptions) :
  (processImage file options = Rejected InvalidImage /\
   validateImage file = false) \/
  (processImage file options = Rejected NoCanvasContext /\
   validateImage file = true /\ getContext2d = false) \/
  (processImage file options = Rejected UndecodableImage /\
   validateImage file = true /\ getContext2d = true /\ bitmap file = None) \/
  (processImage file options = Rejected CanvasError /\
   validateImage file = true /\ getContext2d = true /\
   gt (pixelate options) 1 = true /\
   exists img, bitmap file = Some img /\
     drawPixelated (pixelate options)
       (drawTransformed (rotation options) (flipX options) (flipY options) img)
     = None) \/
  (exists tempCanvas, encoded file options tempCanvas).
Proof.
  unfold processImage, encoded.
  destruct (validateImage file) eqn:Hvalid; cbn [negb]; [|by left].
  destruct getContext2d eqn:Hctx; cbn [negb]; [|right; by left].
  destruct (bitmap file) as [img|] eqn:Himg; [|right; right; by left].
  destruct (render options img) as [e|tempCanvas] eqn:Hrender.
  - right. right. right. left. revert Hrender. unfold render.
    destruct (gt (pixelate options) 1) eqn:Hpix; [|discriminate].
    destruct (drawPixelated _ _) eqn:Hdraw; cbn; [discriminate|].
    intros [= <-]. repeat split; try done. by exists img.
  - right. right. right. right. exists tempCanvas. repeat split; try done.
    by exists img.
Qed.

(** X5: how a conversion ends.  It is rejected for one of four reasons,
    tested in this order: the file fails [validateImage] (more than 25 MiB,
    or a type that does not start with [image/]); no canvas context is to
    be had; the bytes cannot be decoded; or pixelation is on (above 1) and
    the canvas raises.  A failure of the encoding does not reject it: when
    [toBlob] yields no blob, or the compression of a format other than PNG
    at a quality below 100 fails, the conversion never settles, and
    [convertImage] then shows neither a download nor an error.  Otherwise
    it is fulfilled with the compressed file, or with the very blob
    [toBlob] made, whatever its type. *)
Theorem processImage_outcomes (file : File) (options : ProcessingOptions) :
  (forall e, processImage file options = Rejected e ->
     (e = InvalidImage /\
      (MAX_FILE_SIZE < size file \/ String.prefix "image/" (type file) = false)) \/
     (e = NoCanvasContext /\ validateImage file = true /\ getContext2d = false) \/
     (e = UndecodableImage /\ validateImage file = true /\
      getContext2d = true /\ bitmap file = None) \/
     (e = CanvasError /\ validateImage file = true /\ getContext2d = true /\
      gt (pixelate options) 1 = true /\
      exists img, bitmap file = Some img /\
        drawPixelated (pixelate options)
          (drawTransformed (rotation options) (flipX options) (flipY options) img)
        = None)) /\
  (size file <= MAX_FILE_SIZE -> String.prefix "image/" (type file) = true ->
   getContext2d = true -> gt (pixelate options) 1 = false ->
   forall img, bitmap file = Some img ->
   exists tempCanvas, encoded file options tempCanvas) /\
  (forall tempCanvas, encoded file options tempCanvas ->
     let made :=
       toBlob tempCanvas (requestedType options) (requestedQuality options) in
     let compressed blob :=
       imageCompression
         {| blobType := requestedType options; blobBytes := blobBytes blob |}
         (requestedType options) (quality options / 100) in
     (made = None ->
        processImage file options = NeverSettles /\
        convertImage file options = ConvertPending) /\
     (forall blob, made = Some blob -> compresses options = false ->
        processImage file options = Fulfilled blob) /\
     (forall blob, made = Some blob -> compresses options = true ->
        compressed blob = None ->
        processImage file options = NeverSettles /\
        convertImage file options = ConvertPending) /\
     (forall blob compressedFile, made = Some blob -> compresses options = true ->
        compressed blob = Some compressedFile ->
        processImage file options = Fulfilled compressedFile)) /\
  (processImage file options = NeverSettles ->
   exists tempCanvas, encoded file options tempCanvas /\
     (toBlob tempCanvas (requestedType options) (requestedQuality options) = None \/
      exists blob,
        toBlob tempCanvas (requestedType options) (requestedQuality options)
        = Some blob /\
        compresses options = true /\
        imageCompression
          {| blobType := requestedType options; blobBytes := blobBytes blob |}
          (requestedType options) (quality options / 100) = None)).
Proof.
  split; [|split; [|split]].
  - intros e He.
    destruct (processImage_cases file options)
      as [[H1 Hv] | [(H1 & Hv) | [(H1 & Hv) | [(H1 & Hv) | [tempCanvas Henc]]]]].
    + rewrite H1 in He. injection He as <-. left. split; [done|].
      unfold validateImage in Hv.
      destruct (Z.ltb_spec MAX_FILE_SIZE (size file)); [by left|].
      right. by destruct (String.prefix "image/" (type file)).
    + rewrite H1 in He. injection He as <-. right. by left.
    + rewrite H1 in He. injection He as <-. right. right. by left.
    + rewrite H1 in He. injection He as <-. right. right. by right.
    + exfalso. rewrite (processImage_encoded _ _ _ Henc) in He.
      revert He. unfold encode, toBlobCallback.
      destruct (toBlob _ _ _); [|discriminate].
      destruct (_ && _); [|discriminate].
      destruct (imageCompression _ _ _); discriminate.
  - intros Hsize Htype Hctx Hpix img Himg.
    eexists. unfold encoded, validateImage.
    replace (MAX_FILE_SIZE <? size file) with false
      by (symmetry; apply Z.ltb_ge; lia).
    rewrite Htype. split; [done|]. split; [done|]. exists img. split; [done|].
    unfold render. rewrite Hpix. cbn. reflexivity.
  - intros tempCanvas Henc made compressed. unfold convertImage.
    rewrite (processImage_encoded _ _ _ Henc).
    unfold encode, toBlobCallback.
    fold (requestedType options) (requestedQuality options) (compresses options).
    fold made.
    split; [by intros ->|]. split; [by intros blob -> ->|].
    split.
    + intros blob -> -> Hc. unfold compressed in Hc. by rewrite Hc.
    + intros blob compressedFile -> -> Hc. unfold compressed in Hc. by rewrite Hc.
  - intros Hnever.
    destruct (processImage_cases file options)
      as [[H1 _] | [(H1 & _) | [(H1 & _) | [(H1 & _) | [tempCanvas Henc]]]]];
      try (rewrite H1 in Hnever; discriminate).
    exists tempCanvas. split; [done|].
    rewrite (processImage_encoded _ _ _ Henc) in Hnever. revert Hnever.
    unfold encode, toBlobCallback.
    fold (requestedType options) (requestedQuality options) (compresses options).
    destruct (toBlob _ _ _) as [blob|]; [|by left].
    destruct (compresses options); [|discriminate].
    destruct (imageCompression _ _ _) eqn:Hc; [discriminate|].
    intros _. right. by exists blob.
Qed.

End Outcomes.

(** A file of one byte more than 25 MiB, a text file, and a small image
    converted to a format the browser has no encoder for: the download is
    named [one-converted.bmp] and holds a PNG. *)
Lemma processImage_outcomes_example :
  processImage (host := ExampleHost.exampleHost)
    {| name := "big.png"; size := 25 * 1024 * 1024 + 1; type := "image/png";
       bitmap := Some (mkRaster 1 1 [10; 20; 30; 255]) |}
    BatchFacts.sampleOptions = Rejected InvalidImage /\
  processImage (host := ExampleHost.exampleHost)
    {| name := "notes.txt"; size := 10; type := "text/plain"; bitmap := None |}
    BatchFacts.sampleOptions = Rejected InvalidImage /\
  exists blob,
    convertImage (host := ExampleHost.exampleHost)
      (BatchFacts.goodFile "one.png")
      {| format := "bmp"; quality := 100; brightness := 100; contrast := 100;
         rotation := 0; flipX := false; flipY := false; blur := 0;
         saturation := 100; sepia := 0; hueRotate := 0; invert := false;
         grayscale := false; pixelate := 1; emboss := false;
         tintColor := "none"; tintIntensity := 0 |}
    = Downloaded "one-converted.bmp" blob /\
    blobType blob = "image/png"%string.
Proof.
  split; [vm_compute; reflexivity|]. split; [vm_compute; reflexivity|].
  eexists. split; [vm_compute; reflexivity | reflexivity].
Qed.

End ConversionFacts.

(** ** The batch list of the application *)
Module AppFacts.
Import ImageProcessor App.

Lemma filterIndexFrom_delete (from index : nat) (prev : list File) :
  filterIndexFrom from index prev =
  if (index <? from)%nat then prev else delete (index - from)%nat prev.
Proof.
  revert from. induction prev as [|file rest IH]; intros from; cbn [filterIndexFrom].
  - by destruct (index <? from)%nat.
  - rewrite IH. destruct (Nat.eqb_spec from index) as [->|Hne].
    + replace (index <? S index)%nat with true by (symmetry; apply Nat.ltb_lt; lia).
      replace (index <? index)%nat with false by (symmetry; apply Nat.ltb_ge; lia).
      by rewrite Nat.sub_diag.
    + destruct (Nat.ltb_spec index from) as [Hlt|Hge].
      * by replace (index <? S from)%nat with true by (symmetry; apply Nat.ltb_lt; lia).
      * replace (index <? S from)%nat with false by (symmetry; apply Nat.ltb_ge; lia).
        replace (index - from)%nat with (S (index - S from)) by lia. done.
Qed.

Lemma delete_beyond (index : nat) (l : list File) :
  (length l <= index)%nat -> delete index l = l.
Proof.
  intros Hge. rewrite delete_take_drop, take_ge, drop_ge by lia.
  apply app_nil_r.
Qed.

Lemma handleBatchRemove_delete (index : nat) (prev : list File) :
  handleBatchRemove index prev = delete index prev.
Proof.
  unfold handleBatchRemove. rewrite filterIndexFrom_delete.
  by rewrite Nat.sub_0_r.
Qed.

(** X6: removing the entry at an index deletes that file and keeps the
    others in their order; an index past the end of the list changes
    nothing. *)
Theorem handleBatchRemove_deletes (index : nat) (prev : list File) :
  handleBatchRemove index prev = delete index prev /\
  ((index < length prev)%nat ->
     S (length (handleBatchRemove index prev)) = length prev) /\
  ((length prev <= index)%nat -> handleBatchRemove index prev = prev).
Proof.
  rewrite handleBatchRemove_delete. split; [done|]. split.
  - intros Hlt. rewrite length_delete; [lia|]. by apply lookup_lt_is_Some_2.
  - apply delete_beyond.
Qed.

(** What holds of the batch list at any time. *)
Definition batchInvariant (batchFiles : list File) : Prop :=
  (length batchFiles <= 10)%nat /\
  Forall (fun file => validateImage file = true) batchFiles.

Lemma batchStep_invariant (batchFiles : list File) (event : BatchEvent) :
  batchInvariant batchFiles -> batchInvariant (batchStep batchFiles event).
Proof.
  intros [Hlen Hvalid]. destruct event as [files|index]; cbn [batchStep].
  - unfold handleBatchAdd. cbv zeta. split.
    + rewrite length_take. lia.
    + apply Forall_take, Forall_app. split; [done|].
      apply List.Forall_forall. intros file Hin.
      by apply List.filter_In in Hin as [_ ?].
  - rewrite handleBatchRemove_delete. split.
    + pose proof (length_delete batchFiles index).
      destruct (batchFiles !! index) eqn:Hi.
      * rewrite length_delete by done. lia.
      * rewrite delete_beyond; [done|]. by apply lookup_ge_None.
    + by apply Forall_delete.
Qed.

Lemma foldl_batchStep_invariant (events : list BatchEvent) (batchFiles : list File) :
  batchInvariant batchFiles -> batchInvariant (foldl batchStep batchFiles events).
Proof.
  revert batchFiles. induction events as [|event events IH]; intros s Hs; [done|].
  cbn [foldl]. by apply IH, batchStep_invariant.
Qed.

(** X7: whatever files are dropped on the batch panel and whatever
    entries are removed, the batch list never holds more than ten files and
    holds only files that pass [validateImage]; so a batch conversion is
    never rejected for an invalid image. *)
Theorem batch_list_invariant (events : list BatchEvent) :
  (length (batchFilesAfter events) <= 10)%nat /\
  (forall file, In file (batchFilesAfter events) -> validateImage file = true) /\
  (forall (host : Host) (options : ProcessingOptions) (file : File),
     In file (batchFilesAfter events) ->
     processImage file options <> Rejected InvalidImage).
Proof.
  destruct (foldl_batchStep_invariant events [])
    as [Hlen Hvalid]; [split; [cbn; lia | constructor]|].
  rewrite List.Forall_forall in Hvalid.
  split; [done|]. split; [done|].
  intros host options file Hin Hrej.
  destruct (ConversionFacts.processImage_cases file options)
    as [[_ Hv] | [(H1 & _) | [(H1 & _) | [(H1 & _) | [tempCanvas Henc]]]]].
  - rewrite (Hvalid file Hin) in Hv. discriminate.
  - rewrite H1 in Hrej. discriminate.
  - rewrite H1 in Hrej. discriminate.
  - rewrite H1 in Hrej. discriminate.
  - rewrite (ConversionFacts.processImage_encoded _ _ _ Henc) in Hrej.
    revert Hrej. unfold encode, toBlobCallback.
    destruct (toBlob _ _ _); [|discriminate].
    destruct (_ && _); [|discriminate].
    destruct (imageCompression _ _ _); discriminate.
Qed.

End AppFacts.

(** ** The range of a clamped store *)
Module ClampFacts.

Lemma digits2_pos_bound (m : positive) : Z.pos m < 2 ^ Z.pos (digits2_pos m).
Proof.
  induction m as [m IH|m IH|]; cbn [digits2_pos];
    rewrite ?Pos2Z.inj_succ, ?Z.pow_succ_r by lia; [lia | lia | reflexivity].
Qed.

(** The mantissa of a binary64 number has at most 53 bits. *)
Lemma finite_mantissa (x : float) (s : bool) (m : positive) (e : Z) :
  Prim2SF x = S754_finite s m e -> Z.pos m < 2 ^ 53.
Proof.
  intros Hx. pose proof (FloatAxioms.Prim2SF_valid x) as Hvalid.
  rewrite Hx in Hvalid. unfold valid_binary, bounded in Hvalid.
  apply andb_true_iff in Hvalid as [Hcanon _].
  unfold canonical_mantissa, fexp in Hcanon.
  apply Z.eqb_eq in Hcanon.
  assert (Hd : Z.pos (digits2_pos m) <= 53)
    by (unfold FloatOps.prec in Hcanon; lia).
  eapply Z.lt_le_trans; [apply digits2_pos_bound|].
  apply Z.pow_le_mono_r; lia.
Qed.

(** A number strictly between 0 and 255 has its floor between 0 and 254. *)
Lemma floor_below_255 (x : float) (s : bool) (m : positive) (e : Z) :
  Prim2SF x = S754_finite s m e ->
  (x <=? 0)%float = false -> (255 <=? x)%float = false ->
  0 <= floorSF s m e <= 254.
Proof.
  intros Hx H0 H255.
  pose proof (finite_mantissa x s m e Hx) as Hm.
  rewrite FloatAxioms.leb_spec, Hx in H0, H255.
  replace (Prim2SF 0) with (S754_zero false) in H0 by reflexivity.
  replace (Prim2SF 255) with (S754_finite false 8972014882652160 (-45))
    in H255 by (vm_compute; reflexivity).
  unfold SFleb, SFcompare in H0, H255.
  destruct s; [discriminate|].
  change (Pos.compare_cont Eq 8972014882652160 m)
    with (Pos.compare 8972014882652160 m) in H255.
  unfold floorSF, signed.
  destruct (Z.compare_spec (-45) e) as [He|He|He]; [|discriminate|].
  - subst e. replace (0 <=? -45) with false by reflexivity.
    destruct (Pos.compare_spec 8972014882652160 m) as [Heq|Hlt|Hgt];
      try discriminate.
    apply Pos2Z.pos_lt_pos in Hgt.
    replace (2 ^ (- -45)) with 35184372088832 by (vm_compute; reflexivity).
    split; [apply Z.div_pos; lia|].
    apply Z.lt_succ_r. apply Z.div_lt_upper_bound; lia.
  - replace (0 <=? e) with false by (symmetry; apply Z.leb_gt; lia).
    assert (Hp : 2 ^ 46 <= 2 ^ (- e)) by (apply Z.pow_le_mono_r; lia).
    assert (H53 : 2 ^ 53 = 2 ^ 46 * 128) by (vm_compute; reflexivity).
    assert (H46 : 0 < 2 ^ 46) by (vm_compute; reflexivity).
    split; [apply Z.div_pos; lia|].
    assert (Z.pos m / 2 ^ (- e) < 128); [|lia].
    apply Z.div_lt_upper_bound; [lia|]. nia.
Qed.

(** Whatever number is stored in a [Uint8ClampedArray], the byte stored
    lies in 0..255. *)
Lemma ToUint8Clamp_isByte (x : Number) : isByte (ToUint8Clamp x).
Proof.
  unfold ToUint8Clamp, isByte.
  destruct (is_nan x); [lia|].
  destruct (x <=? 0)%float eqn:H0; [lia|].
  destruct (255 <=? x)%float eqn:H255; [lia|].
  unfold floorZ. destruct (Prim2SF x) as [s|s| |s m e] eqn:Hx; try lia.
  - cbv zeta. destruct (x <? _)%float; [lia|].
    destruct (_ <? x)%float; cbn; lia.
  - pose proof (floor_below_255 x s m e Hx H0 H255) as Hf.
    cbv zeta.
    destruct (x <? _)%float; [lia|].
    destruct (_ <? x)%float; [lia|].
    destruct (Z.even _); lia.
Qed.

Lemma setClamped_bytes (a : bytes) (i : nat) (x : Number) :
  Forall isByte a -> Forall isByte (setClamped a i x).
Proof. intros Ha. apply Forall_insert; [done | apply ToUint8Clamp_isByte]. Qed.

Lemma setClamped_length (a : bytes) (i : nat) (x : Number) :
  length (setClamped a i x) = length a.
Proof. apply length_insert. Qed.

End ClampFacts.

(** ** The emboss stage on a whole image *)
Module EmbossImageFacts.
Import Stages ClampFacts.

Lemma embossBody_bytes (w i : nat) (a : bytes) :
  Forall isByte a -> Forall isByte (embossBody w i a).
Proof.
  intros Ha. unfold embossBody. destruct (remIsZero i (w * 4)); [done|].
  cbv zeta. by repeat apply setClamped_bytes.
Qed.

Lemma emboss_bytes (canvas : Raster) :
  Forall isByte (data canvas) -> Forall isByte (data (emboss canvas)).
Proof.
  intros Hbytes. unfold emboss, putImageData, getImageData, eachPixel.
  cbn [data]. apply forPixelsFrom_invariant; [|done].
  intros k s Hs. by apply embossBody_bytes.
Qed.

(** X8: the emboss stage returns an image of the size of its input whose
    bytes all lie in 0..255. *)
Theorem emboss_keeps_image_shape (canvas : Raster) :
  wellFormed canvas ->
  wellFormed (emboss canvas) /\
  width (emboss canvas) = width canvas /\
  height (emboss canvas) = height canvas.
Proof.
  intros (Hw & Hh & Hlen & Hbytes).
  split; [|done]. unfold wellFormed.
  split; [exact Hw|]. split; [exact Hh|]. split.
  - unfold emboss, putImageData, getImageData, eachPixel.
    cbn [width height data].
    rewrite (forPixelsFrom_length _ (EmbossFacts.embossBody_length (width canvas))).
    exact Hlen.
  - by apply emboss_bytes.
Qed.

Lemma emboss_keeps_image_shape_witness :
  wellFormed (emboss EmbossFacts.sampleRow) /\
  width (emboss EmbossFacts.sampleRow) = 3%nat /\
  height (emboss EmbossFacts.sampleRow) = 1%nat.
Proof.
  exact (emboss_keeps_image_shape EmbossFacts.sampleRow
           EmbossFacts.sampleRow_wellFormed).
Defined.

(** X9: the loop updates the buffer in place, so each colour byte of a
    pixel that is not first in its row becomes 128 + 2 * (cur - prev)
    clamped to 0..255, where cur is the input byte and prev is the byte
    the stage has already stored for the left neighbour. *)
Theorem emboss_in_place (canvas : Raster) (p c : nat) (cur prev : Z) :
  wellFormed canvas ->
  (p mod width canvas <> 0)%nat -> (c < 3)%nat ->
  data canvas !! (4 * p + c)%nat = Some cur ->
  data (emboss canvas) !! (4 * (p - 1) + c)%nat = Some prev ->
  data (emboss canvas) !! (4 * p + c)%nat
  = Some (clampByte (128 + 2 * (cur - prev))).
Proof.
  intros Hwf Hp Hc Hcur Hprev.
  assert (Hbcur : isByte cur) by (by eapply EmbossFacts.wellFormed_byte).
  assert (Hbprev : isByte prev).
  { destruct Hwf as (_ & _ & _ & Hbytes).
    by apply (Forall_lookup_1 _ _ _ _ (emboss_bytes canvas Hbytes) Hprev). }
  rewrite <- EmbossFacts.emboss_store by done.
  by apply EmbossFacts.emboss_inner.
Qed.

(** In [sampleRow] the third pixel has the red input 30 and its left
    neighbour was stored as 148: 128 + 2 * (30 - 148) is clamped to 0. *)
Lemma emboss_in_place_witness :
  data (emboss EmbossFacts.sampleRow) !! 8%nat = Some 0.
Proof.
  apply (emboss_in_place EmbossFacts.sampleRow 2 0 30 148
           EmbossFacts.sampleRow_wellFormed);
    [by vm_compute | lia | reflexivity | by vm_compute].
Defined.

End EmbossImageFacts.

(** ** Background removal on arbitrary images *)
Module RemovalFacts.
Import BackgroundRemoval PlaneFacts SegmentationFacts ClampFacts.

(** X10: the edge map has one byte per pixel, and the outermost ring of
    pixels has the edge strength 0 whatever the image: the Sobel loops run
    over the inner pixels only. *)
Theorem sobel_border_is_zero (data : bytes) (w h : nat) :
  length (applySobelOperator data w h) = (w * h)%nat /\
  Forall isByte (applySobelOperator data w h) /\
  (forall x y : nat, (x < w)%nat -> (y < h)%nat ->
     (x = 0 \/ x + 1 = w \/ y = 0 \/ y + 1 = h)%nat ->
     applySobelOperator data w h !! (y * w + x)%nat = Some 0) /\
  ((w < 3 \/ h < 3)%nat -> applySobelOperator data w h = replicate (w * h) 0).
Proof.
  assert (Hlen : length (applySobelOperator data w h) = (w * h)%nat).
  { unfold applySobelOperator. rewrite fillPlane_planeFill, planeFill_length.
    apply length_replicate. }
  split; [done|]. split; [|split].
  - unfold applySobelOperator. rewrite fillPlane_planeFill.
    apply planeFill_bytes, newUint8Array_bytes.
  - intros x y Hx Hy Hring. by apply sobel_border.
  - intros Hsmall. unfold applySobelOperator.
    rewrite fillPlane_planeFill. unfold planeFill, rowFill.
    destruct Hsmall as [Hw|Hh].
    + replace (w - 1 - 1)%nat with 0%nat by lia. cbn [seq].
      apply foldl_skip. intros a y _. reflexivity.
    + replace (h - 1 - 1)%nat with 0%nat by lia. reflexivity.
Qed.

Lemma getZ_red (data data' : bytes) (P : Z) :
  (forall p, data !! (4 * p)%nat = data' !! (4 * p)%nat) ->
  getZ data (P * 4) = getZ data' (P * 4).
Proof.
  intros Hred. unfold getZ. destruct (P * 4 <? 0) eqn:Hneg; [done|].
  apply Z.ltb_ge in Hneg.
  replace (Z.to_nat (P * 4)) with (4 * Z.to_nat P)%nat by lia.
  apply AdvancedEffectsFacts.get_ext, Hred.
Qed.

Lemma fillPlane_ext (w : nat) (value value' : nat -> nat -> Number)
    (y0 y1 x0 x1 : nat) (plane : bytes) :
  (forall x y, value x y = value' x y) ->
  fillPlane w value y0 y1 x0 x1 plane = fillPlane w value' y0 y1 x0 x1 plane.
Proof.
  intros Hv. unfold fillPlane, forRange.
  apply foldl_ext_in. intros a y _. apply foldl_ext_in. intros a' x _.
  by rewrite Hv.
Qed.

(** X11: the edge map is computed from the red channel alone: two buffers
    with the same red bytes have the same edge map. *)
Theorem sobel_reads_red_only (data data' : bytes) (w h : nat) :
  (forall p : nat, data !! (4 * p)%nat = data' !! (4 * p)%nat) ->
  applySobelOperator data w h = applySobelOperator data' w h.
Proof.
  intros Hred. unfold applySobelOperator. apply fillPlane_ext.
  intros x y. unfold magnitudeAt.
  assert (Hconv : forall kernel,
            convolve kernel data w x y = convolve kernel data' w x y).
  { intros kernel. unfold convolve. apply windowFold_ext.
    intros kx ky acc _ _. cbv zeta. by rewrite (getZ_red data data'). }
  by rewrite !Hconv.
Qed.

(** Two 3 by 3 images with the red bytes of [edgeImage 0] and different
    green, blue and alpha bytes. *)
Definition recoloured : bytes :=
  let dark := [0; 9; 200; 7;  255; 0; 0; 0;  255; 80; 90; 100] in
  dark ++ dark ++ dark.

Lemma sobel_reads_red_only_witness :
  applySobelOperator (data (edgeImage 0)) 3 3 = applySobelOperator recoloured 3 3.
Proof.
  apply sobel_reads_red_only.
  intros [|[|[|[|[|[|[|[|[|p]]]]]]]]]; try reflexivity.
  replace (4 * S (S (S (S (S (S (S (S (S p)))))))))%nat
    with (36 + 4 * p)%nat by lia.
  reflexivity.
Defined.

(** *** Without smoothing and feathering *)

Lemma classify_at (img : Raster) (threshold tolerance : Number) (p : nat) :
  wellFormed img -> (p < width img * height img)%nat ->
  let sobelData := applySobelOperator (data img) (width img) (height img) in
  classify (data img) sobelData (width img) threshold tolerance
    (newUint8Array (width img * height img)) !! p
  = Some (ToUint8 (if gt (get sobelData p) threshold
                      || gt (colorDiffOf (get (data img) (4 * p))
                               (get (data img) (4 * p + 1))
                               (get (data img) (4 * p + 2))) tolerance
                   then 255 else 0)).
Proof.
  intros (Hw & Hh & Hlen & _) Hp sobelData. unfold classify.
  rewrite (pixelCount_exact _ _ Hlen).
  pose proof (fun k a => classifyBody_insert (data img) sobelData (width img)
                threshold tolerance k a Hw) as Hbody.
  rewrite (tabulate_hit _ (fun k => k) _ Hbody);
    [done | intros; lia | lia | unfold newUint8Array; rewrite length_replicate; lia].
Qed.

Lemma processImage_alpha (img : Raster) (threshold tolerance : Number)
    (smoothing featherSize : Z) (p : nat) (v : Z) :
  wellFormed img ->
  deriveMask img threshold tolerance smoothing featherSize !! p = Some v ->
  data (processImage img threshold tolerance smoothing featherSize)
    !! (4 * p + 3)%nat = Some v.
Proof.
  intros (Hw & Hh & Hlen & Hbytes) Hv.
  destruct (deriveMask_plane img threshold tolerance smoothing featherSize)
    as [Hmlen Hmbytes].
  set (mask := deriveMask img threshold tolerance smoothing featherSize) in *.
  assert (Hp : (p < width img * height img)%nat)
    by (rewrite <- Hmlen; by eapply lookup_lt_Some).
  unfold processImage, putImageData, getImageData, eachPixel. cbn [data].
  fold mask. rewrite (pixelCount_exact _ _ Hlen).
  rewrite (tabulate_hit _ (fun k => 4 * k + 3)%nat _ (applyMaskBody_insert mask))
    by (intros; lia).
  unfold get. rewrite Hv.
  assert (Hb : isByte v) by (by eapply Forall_lookup_1).
  rewrite ToUint8Clamp_ofZ by (unfold isByte in Hb; lia).
  unfold clampByte, isByte in *. f_equal. lia.
Qed.

(** X12: with smoothing and feathering off the mask is binary.  The
    alpha byte of a pixel becomes 255 when its edge strength exceeds the
    threshold or its distance from white exceeds the tolerance, and 0
    otherwise. *)
Theorem mask_is_binary_without_smoothing (img : Raster)
    (threshold tolerance : Number) (smoothing featherSize : Z) (p : nat) :
  wellFormed img -> smoothing <= 0 -> featherSize <= 0 ->
  (p < width img * height img)%nat ->
  let sobelData := applySobelOperator (data img) (width img) (height img) in
  let isForeground :=
    gt (get sobelData p) threshold
    || gt (colorDiffOf (get (data img) (4 * p)) (get (data img) (4 * p + 1))
             (get (data img) (4 * p + 2))) tolerance in
  let alpha := if isForeground then 255 else 0 in
  deriveMask img threshold tolerance smoothing featherSize !! p = Some alpha /\
  data (processImage img threshold tolerance smoothing featherSize)
    !! (4 * p + 3)%nat = Some alpha.
Proof.
  intros Hwf Hs Hf Hp sobelData isForeground alpha.
  assert (Hmask : deriveMask img threshold tolerance smoothing featherSize !! p
                  = Some alpha).
  { unfold deriveMask, getImageData.
    replace (0 <? smoothing) with false by (symmetry; apply Z.ltb_ge; lia).
    replace (0 <? featherSize) with false by (symmetry; apply Z.ltb_ge; lia).
    rewrite (classify_at img threshold tolerance p Hwf Hp). cbv zeta.
    fold sobelData. fold isForeground. unfold alpha.
    by destruct isForeground. }
  split; [done|]. by apply processImage_alpha.
Qed.

Lemma mask_is_binary_without_smoothing_witness :
  data (processImage samplePixels 20 30 0 0) !! 3%nat = Some 0 /\
  data (processImage samplePixels 20 30 0 0) !! 7%nat = Some 255.
Proof.
  split.
  - apply (mask_is_binary_without_smoothing samplePixels 20 30 0 0 0
             samplePixels_wellFormed); [lia | lia | simpl; lia].
  - apply (mask_is_binary_without_smoothing samplePixels 20 30 0 0 1
             samplePixels_wellFormed); [lia | lia | simpl; lia].
Defined.

Lemma applyMaskBody_bytes (mask : bytes) (i : nat) (a : bytes) :
  Forall isByte a -> Forall isByte (applyMaskBody mask i a).
Proof. intros Ha. unfold applyMaskBody. cbv zeta. by apply setClamped_bytes. Qed.

(** X13: for all parameter values background removal returns an image of
    the size of its input whose bytes all lie in 0..255. *)
Theorem background_removal_keeps_image_shape (img : Raster)
    (threshold tolerance : Number) (smoothing featherSize : Z) :
  wellFormed img ->
  let out := processImage img threshold tolerance smoothing featherSize in
  wellFormed out /\ width out = width img /\ height out = height img.
Proof.
  intros (Hw & Hh & Hlen & Hbytes) out. split; [|done].
  unfold out, wellFormed, processImage, putImageData, getImageData.
  cbn [width height data]. split; [done|]. split; [done|]. split.
  - unfold eachPixel. rewrite forPixelsFrom_length; [done|].
    intros i a. unfold applyMaskBody. cbv zeta. apply setClamped_length.
  - unfold eachPixel. apply forPixelsFrom_invariant; [|done].
    intros k s Hs. by apply applyMaskBody_bytes.
Qed.

Lemma background_removal_keeps_image_shape_witness :
  wellFormed (processImage samplePixels 20 30 1 2) /\
  width (processImage samplePixels 20 30 1 2) = 2%nat /\
  height (processImage samplePixels 20 30 1 2) = 1%nat.
Proof.
  exact (background_removal_keeps_image_shape samplePixels 20 30 1 2
           samplePixels_wellFormed).
Defined.

(** *** Background removal twice *)

(** Two buffers with the same colour bytes. *)
Definition sameColours (a a' : bytes) : Prop :=
  length a = length a' /\
  forall p c : nat, (c < 3)%nat -> a !! (4 * p + c)%nat = a' !! (4 * p + c)%nat.

Lemma forPixelsFrom_ext {St : Type} (body body' : nat -> St -> St) (n k : nat)
    (s : St) :
  (forall q s', body (4 * q)%nat s' = body' (4 * q)%nat s') ->
  forPixelsFrom n k body s = forPixelsFrom n k body' s.
Proof.
  intros Hbody. revert k s. induction n as [|n IH]; intros k s; [done|].
  cbn [forPixelsFrom]. by rewrite Hbody, IH.
Qed.

Lemma applySobelOperator_colours (a a' : bytes) (w h : nat) :
  sameColours a a' -> applySobelOperator a w h = applySobelOperator a' w h.
Proof.
  intros [_ Hcol]. unfold applySobelOperator. apply fillPlane_ext.
  intros x y. unfold magnitudeAt.
  assert (Hred : forall p, a !! (4 * p)%nat = a' !! (4 * p)%nat).
  { intros p. rewrite <- (Nat.add_0_r (4 * p)). apply Hcol. lia. }
  assert (Hconv : forall kernel, convolve kernel a w x y = convolve kernel a' w x y).
  { intros kernel. unfold convolve. apply windowFold_ext.
    intros kx ky acc _ _. cbv zeta. by rewrite (getZ_red a a'). }
  by rewrite !Hconv.
Qed.

Lemma classify_colours (a a' sobelData : bytes) (w : nat) (th tol : Number)
    (mask : bytes) :
  sameColours a a' ->
  classify a sobelData w th tol mask = classify a' sobelData w th tol mask.
Proof.
  intros [Hlen Hcol]. unfold classify, pixelCount. rewrite Hlen.
  apply forPixelsFrom_ext. intros q m. unfold classifyBody.
  destruct (w =? 0)%nat; [done|]. cbv zeta.
  rewrite (AdvancedEffectsFacts.get_ext a a' (4 * q)),
    (AdvancedEffectsFacts.get_ext a a' (4 * q + 1)),
    (AdvancedEffectsFacts.get_ext a a' (4 * q + 2)); [done | | |].
  - apply Hcol. lia.
  - apply Hcol. lia.
  - rewrite <- (Nat.add_0_r (4 * q)). apply Hcol. lia.
Qed.

(** The mask is derived from the colour bytes: the alpha bytes of the
    input do not matter. *)
Lemma deriveMask_colours (img img' : Raster) (th tol : Number)
    (smoothing featherSize : Z) :
  width img = width img' -> height img = height img' ->
  sameColours (data img) (data img') ->
  deriveMask img th tol smoothing featherSize
  = deriveMask img' th tol smoothing featherSize.
Proof.
  intros Hw Hh Hcol. unfold deriveMask, getImageData.
  rewrite <- Hw, <- Hh.
  rewrite <- (applySobelOperator_colours _ _ _ _ Hcol).
  by rewrite <- (classify_colours _ _ _ _ _ _ _ Hcol).
Qed.

(** X14: background removal never reads the alpha bytes of its input:
    two pixel arrays of the same size that agree in every red, green and
    blue byte give the same output, whatever their alpha bytes are.  The
    transparency an image had before is lost. *)
Theorem background_removal_ignores_input_alpha (img img' : Raster)
    (threshold tolerance : Number) (smoothing featherSize : Z) :
  width img = width img' -> height img = height img' ->
  sameColours (data img) (data img') ->
  processImage img threshold tolerance smoothing featherSize
  = processImage img' threshold tolerance smoothing featherSize.
Proof.
  intros Hw Hh Hcol.
  pose proof (deriveMask_colours img img' threshold tolerance smoothing
                featherSize Hw Hh Hcol) as Hmask.
  destruct Hcol as [Hlen Hcol].
  unfold processImage, putImageData, getImageData, eachPixel, pixelCount.
  rewrite <- Hmask, <- Hw, <- Hh, <- Hlen. f_equal.
  set (mask := deriveMask img threshold tolerance smoothing featherSize).
  set (n := ((length (data img) + 3) / 4)%nat).
  pose proof (applyMaskBody_insert mask) as Hbody.
  assert (Hpos : forall k k', (k < k')%nat -> (4 * k + 3 < 4 * k' + 3)%nat)
    by (intros; lia).
  apply list_eq. intros j.
  pose proof (Nat.div_mod_eq j 4) as Hdm.
  pose proof (Nat.mod_upper_bound j 4 ltac:(lia)) as Hm.
  destruct (decide (j mod 4 = 3)%nat) as [H3|H3].
  - destruct (decide (j < length (data img))%nat) as [Hj|Hj].
    + assert (Hq : (0 <= j / 4 < 0 + n)%nat).
      { split; [lia|]. unfold n.
        pose proof (Nat.div_mod_eq (length (data img) + 3) 4).
        pose proof (Nat.mod_upper_bound (length (data img) + 3) 4 ltac:(lia)).
        lia. }
      replace j with (4 * (j / 4) + 3)%nat by lia.
      rewrite !(tabulate_hit _ (fun k => 4 * k + 3)%nat _ Hbody Hpos) by lia.
      done.
    + rewrite !(proj2 (lookup_ge_None _ _)); [done | |];
        rewrite (tabulate_length _ _ _ Hbody); lia.
  - rewrite !(tabulate_other _ _ _ Hbody) by (intros q _; lia).
    replace j with (4 * (j / 4) + j mod 4)%nat by lia. apply Hcol. lia.
Qed.

(** The sample with its first pixel half transparent and its second
    pixel fully transparent. *)
Definition sampleFaded : Raster :=
  mkRaster 2 1 [250; 250; 250; 128;  10; 20; 30; 0].

Lemma background_removal_ignores_input_alpha_witness :
  processImage samplePixels 20 30 1 2 = processImage sampleFaded 20 30 1 2.
Proof.
  apply background_removal_ignores_input_alpha; [reflexivity | reflexivity |].
  split; [reflexivity|]. intros p c Hc.
  destruct p as [|[|p]];
    [destruct c as [|[|[|c]]]; (reflexivity || lia) ..|].
  cbn [data samplePixels sampleFaded].
  rewrite !(proj2 (lookup_ge_None _ _)); [done | |]; cbn [length]; lia.
Defined.

(** *** The name of the processed file *)

Lemma isExtension_dot (s t : string) : isExtension (s ++ String "." t) = false.
Proof.
  induction s as [|c s IH]; cbn [append isExtension].
  - by rewrite andb_false_r.
  - destruct (s ++ String "." t)%string eqn:E.
    + by destruct s.
    + rewrite IH. by rewrite andb_false_r.
Qed.

Lemma stripExtension_last (base ext : string) :
  isExtension ext = true -> stripExtension (base ++ String "." ext) = base.
Proof.
  intros Hext. induction base as [|c base IH]; cbn [append stripExtension].
  - by rewrite Hext.
  - rewrite isExtension_dot, andb_false_r. by rewrite IH.
Qed.

Lemma stripExtension_noDot (name : string) :
  ConversionFacts.noDot name -> stripExtension name = name.
Proof.
  induction name as [|c name IH]; intros Hname; [done|]. cbn [stripExtension].
  destruct (Ascii.eqb_spec c ".") as [->|Hc].
  - exfalso. apply (Hname "."%char); [by left | done].
  - cbn [andb]. f_equal. apply IH. intros c' Hc'. apply Hname. by right.
Qed.

(** X15: the file that background removal hands on is named after the
    source without its last extension, followed by [-nobg.png]: of several
    dots only the last one counts, and a name without a dot is kept
    whole. *)
Theorem processedName_strips_last_extension (base ext name : string) :
  (isExtension ext = true ->
     processedName (base ++ String "." ext) = (base ++ "-nobg.png")%string) /\
  (ConversionFacts.noDot name -> processedName name = (name ++ "-nobg.png")%string) /\
  processedName "holiday.final.jpeg" = "holiday.final-nobg.png"%string.
Proof.
  unfold processedName. split; [|split].
  - intros Hext. by rewrite stripExtension_last.
  - intros Hname. by rewrite stripExtension_noDot.
  - reflexivity.
Qed.

End RemovalFacts.

(** ** The pixel loops of the advanced effects on integers *)
Module EffectFacts.
Import AdvancedEffects AdvancedEffectsFacts ClampFacts.

(** *** Hexadecimal colours *)

Lemma hexDigit_range (c : ascii) (d : Z) : hexDigit c = Some d -> 0 <= d <= 15.
Proof.
  unfold hexDigit. cbv zeta.
  repeat match goal with
  | |- context [(?x <=? ?y) && (?u <=? ?v)] =>
      destruct (Z.leb_spec x y); destruct (Z.leb_spec u v); cbn [andb]
  end; intros [= <-]; lia.
Qed.

(** The three channels [hexToRgb] returns are integers in 0..255. *)
Lemma hexToRgb_channels (hex : string) :
  exists r g b : Z,
    isByte r /\ isByte g /\ isByte b /\
    hexToRgb hex = mkRGB (ofZ r) (ofZ g) (ofZ b).
Proof.
  assert (Hblack : exists r g b : Z,
            isByte r /\ isByte g /\ isByte b /\
            mkRGB 0 0 0 = mkRGB (ofZ r) (ofZ g) (ofZ b)).
  { exists 0, 0, 0. unfold isByte. repeat split; lia. }
  unfold hexToRgb. cbv zeta.
  destruct (list_ascii_of_string _)
    as [|c1 [|c2 [|c3 [|c4 [|c5 [|c6 [|c7 l]]]]]]]; cbn [map]; try exact Hblack;
    repeat match goal with
    | |- context [hexDigit ?c] =>
        let H := fresh "Hd" in destruct (hexDigit c) eqn:H; try exact Hblack
    end.
  apply hexDigit_range in Hd, Hd0, Hd1, Hd2, Hd3, Hd4.
  exists (16 * z + z0), (16 * z1 + z2), (16 * z3 + z4).
  unfold isByte. split; [lia|]. split; [lia|]. split; [lia|]. reflexivity.
Qed.

(** The strings the pattern of [hexToRgb] matches: six hexadecimal
    digits, after a [#] or without one; the digits in pairs give the three
    channels. *)
Definition hexDigits : string := "0123456789abcdefABCDEF".

Definition hexPair (c1 c0 : ascii) (v : Z) : Prop :=
  exists d1 d0, hexDigit c1 = Some d1 /\ hexDigit c0 = Some d0 /\ v = 16 * d1 + d0.

Definition sixDigits (digits : string) (r g b : Z) : Prop :=
  exists r1 r0 g1 g0 b1 b0,
    digits = String r1 (String r0 (String g1 (String g0 (String b1 (String b0
               EmptyString))))) /\
    hexPair r1 r0 r /\ hexPair g1 g0 g /\ hexPair b1 b0 b.

Definition hexColour (hex : string) (r g b : Z) : Prop :=
  sixDigits hex r g b \/ exists digits, hex = String "#" digits /\ sixDigits digits r g b.

Lemma hexDigit_digits (c : ascii) :
  is_Some (hexDigit c) <-> In c (list_ascii_of_string hexDigits).
Proof.
  assert (H : forallb (fun n =>
                Bool.eqb (match hexDigit (ascii_of_nat n) with
                          | Some _ => true
                          | None => false
                          end)
                         (existsb (Ascii.eqb (ascii_of_nat n))
                            (list_ascii_of_string hexDigits)))
                (seq 0 256) = true) by (vm_compute; reflexivity).
  rewrite forallb_forall in H.
  specialize (H (nat_of_ascii c)). rewrite ascii_nat_embedding in H.
  assert (Hc : In (nat_of_ascii c) (seq 0 256)).
  { apply in_seq. pose proof (nat_ascii_bounded c). lia. }
  apply H, Bool.eqb_prop in Hc. split.
  - intros [d Hd]. rewrite Hd in Hc. symmetry in Hc.
    apply existsb_exists in Hc as (c' & Hin & Heq).
    by apply Ascii.eqb_eq in Heq as ->.
  - intros Hin. destruct (hexDigit c) as [d|]; [by exists d|].
    assert (existsb (Ascii.eqb c) (list_ascii_of_string hexDigits) = true)
      as Habs; [|congruence].
    apply existsb_exists. exists c. split; [done | apply Ascii.eqb_refl].
Qed.

Lemma hexPair_byte (c1 c0 : ascii) (v : Z) : hexPair c1 c0 v -> isByte v.
Proof.
  intros (d1 & d0 & H1 & H0 & ->).
  apply hexDigit_range in H1, H0. unfold isByte. lia.
Qed.

Lemma hexToRgb_sixDigits (digits : string) (r g b : Z) :
  sixDigits digits r g b ->
  match map hexDigit (list_ascii_of_string digits) with
  | [Some a1; Some a0; Some b1; Some b0; Some c1; Some c0] =>
      mkRGB (ofZ (16 * a1 + a0)) (ofZ (16 * b1 + b0)) (ofZ (16 * c1 + c0))
  | _ => mkRGB 0 0 0
  end = mkRGB (ofZ r) (ofZ g) (ofZ b).
Proof.
  intros (r1 & r0 & g1 & g0 & b1 & b0 & -> & (dr1 & dr0 & Hr1 & Hr0 & ->) &
          (dg1 & dg0 & Hg1 & Hg0 & ->) & (db1 & db0 & Hb1 & Hb0 & ->)).
  cbn [list_ascii_of_string map]. by rewrite Hr1, Hr0, Hg1, Hg0, Hb1, Hb0.
Qed.

Lemma hexToRgb_unmatched (digits : string) :
  (forall r g b, ~ sixDigits digits r g b) ->
  match map hexDigit (list_ascii_of_string digits) with
  | [Some a1; Some a0; Some b1; Some b0; Some c1; Some c0] =>
      mkRGB (ofZ (16 * a1 + a0)) (ofZ (16 * b1 + b0)) (ofZ (16 * c1 + c0))
  | _ => mkRGB 0 0 0
  end = mkRGB 0 0 0.
Proof.
  intros Hno.
  destruct digits as [|r1 [|r0 [|g1 [|g0 [|b1 [|b0 [|c rest]]]]]]];
    cbn [list_ascii_of_string map]; try reflexivity;
    repeat match goal with
    | |- context [hexDigit ?c] =>
        let H := fresh "Hd" in destruct (hexDigit c) eqn:H; try reflexivity
    end.
  exfalso. eapply Hno. exists r1, r0, g1, g0, b1, b0. split; [reflexivity|].
  repeat split; eexists _, _; eauto.
Qed.

(** X16: [hexToRgb] reads six hexadecimal digits, after a [#] or without
    one, as three channels in 0..255, and yields black for every other
    string: a string of another length, a string with another character,
    the short form [#fff], a colour name.  The hexadecimal digits are the
    characters 0-9, a-f and A-F. *)
Theorem hexToRgb_bytes (hex : string) :
  (forall r g b, hexColour hex r g b ->
     hexToRgb hex = mkRGB (ofZ r) (ofZ g) (ofZ b) /\
     isByte r /\ isByte g /\ isByte b) /\
  ((forall r g b, ~ hexColour hex r g b) -> hexToRgb hex = mkRGB 0 0 0) /\
  (forall c, is_Some (hexDigit c) <-> In c (list_ascii_of_string hexDigits)).
Proof.
  split; [|split; [|apply hexDigit_digits]].
  - intros r g b Hhex.
    assert (Hbytes : isByte r /\ isByte g /\ isByte b).
    { destruct Hhex as [Hsix | (digits & _ & Hsix)];
        destruct Hsix as (? & ? & ? & ? & ? & ? & _ & Hr & Hg & Hb);
        (split; [|split]); eapply hexPair_byte; eassumption. }
    split; [|done]. unfold hexToRgb. cbv zeta.
    destruct Hhex as [Hsix | (digits & -> & Hsix)].
    + assert (Hfirst : match hex with
                       | String "#" rest => rest
                       | _ => hex
                       end = hex).
      { destruct Hsix as (r1 & ? & ? & ? & ? & ? & -> & (d1 & _ & Hd1 & _) & _).
        destruct (Ascii.eqb_spec r1 "#") as [->|Hne]; [discriminate Hd1|].
        destruct r1 as [[] [] [] [] [] [] [] []]; try reflexivity.
        by destruct Hne. }
      rewrite Hfirst. by apply hexToRgb_sixDigits.
    + by apply hexToRgb_sixDigits.
  - intros Hno. unfold hexToRgb. cbv zeta. apply hexToRgb_unmatched.
    intros r g b Hsix. apply (Hno r g b).
    destruct hex as [|c rest]; [by left|].
    destruct (Ascii.eqb_spec c "#") as [->|Hne]; [right; by eexists|].
    left. destruct c as [[] [] [] [] [] [] [] []]; try exact Hsix.
    by destruct Hne.
Qed.

(** The short form, a colour name, and strings of five and of seven
    digits are read as black; [#3F51b5] is read as (63, 81, 181). *)
Lemma hexToRgb_examples :
  hexToRgb "#fff" = mkRGB 0 0 0 /\
  hexToRgb "red" = mkRGB 0 0 0 /\
  hexToRgb "#12345" = mkRGB 0 0 0 /\
  hexToRgb "1234567" = mkRGB 0 0 0 /\
  hexToRgb "#3F51b5" = mkRGB 63 81 181 /\
  hexColour "#3F51b5" 63 81 181.
Proof.
  repeat (split; [vm_compute; reflexivity|]).
  right. exists "3F51b5"%string. split; [reflexivity|].
  exists "3"%char, "F"%char, "5"%char, "1"%char, "b"%char, "5"%char.
  split; [reflexivity|].
  repeat split; eexists _, _; repeat split; try (vm_compute; reflexivity).
Qed.

(** *** Sums of small integers are exact *)

Lemma ofZ_add (a b : Z) :
  0 <= a <= 510 -> 0 <= b <= 255 -> (ofZ a + ofZ b)%float = ofZ (a + b).
Proof.
  intros Ha Hb.
  assert (H : forallb (fun a => forallb (fun b =>
                PrimFloat.Leibniz.eqb (ofZ a + ofZ b) (ofZ (a + b)))
                (zRange 0 255)) (zRange 0 510) = true)
    by (vm_compute; reflexivity).
  apply FloatAxioms.Leibniz.eqb_spec.
  apply (forallb_zRange _ _ _ (forallb_zRange _ _ _ H a Ha) b Hb).
Qed.

(** Half of an integer, the tie rounded to the even neighbour. *)
Definition halfToEven (n : Z) : Z :=
  let q := n / 2 in
  if Z.even n then q else if Z.even q then q else q + 1.

Lemma half_ofZ (n : Z) :
  0 <= n <= 510 -> ToUint8Clamp (ofZ n / 2) = halfToEven n.
Proof.
  intros Hn.
  assert (H : forallb (fun n => ToUint8Clamp (ofZ n / 2) =? halfToEven n)
                (zRange 0 510) = true) by (vm_compute; reflexivity).
  apply Z.eqb_eq. revert n Hn. apply forallb_zRange, H.
Qed.

Lemma bright_ofZ (s : Z) :
  0 <= s <= 765 -> gt (ofZ s / (3 * 255)) 0.5 = (382 <? s).
Proof.
  intros Hs.
  assert (H : forallb (fun s => Bool.eqb (gt (ofZ s / (3 * 255)) 0.5) (382 <? s))
                (zRange 0 765) = true) by (vm_compute; reflexivity).
  apply eqb_prop. revert s Hs. apply forallb_zRange, H.
Qed.

(** *** Loads and stores within one pixel *)

Lemma get_setClamped_ne (a : bytes) (i j : nat) (x : Number) :
  i <> j -> get (setClamped a i x) j = get a j.
Proof. intros Hne. apply get_ext. unfold setClamped. by apply list_lookup_insert_ne. Qed.

Lemma lookup_setClamped_eq (a : bytes) (i : nat) (x : Number) (v : Z) :
  a !! i = Some v -> setClamped a i x !! i = Some (ToUint8Clamp x).
Proof.
  intros Hv. unfold setClamped. apply list_lookup_insert_eq.
  by eapply lookup_lt_Some.
Qed.

Lemma lookup_setClamped_ne (a : bytes) (i j : nat) (x : Number) :
  i <> j -> setClamped a i x !! j = a !! j.
Proof. intros Hne. unfold setClamped. by apply list_lookup_insert_ne. Qed.

(** Three stores to the colour bytes of the pixel at [i], each computed
    from the byte it replaces. *)
Definition storeChannels (f0 f1 f2 : Number -> Number) (i : nat) (data : bytes)
    : bytes :=
  let data := setClamped data i (f0 (get data i)) in
  let data := setClamped data (i + 1) (f1 (get data (i + 1))) in
  let data := setClamped data (i + 2) (f2 (get data (i + 2))) in
  data.

Lemma storeChannels_lookup (f0 f1 f2 : Number -> Number) (i : nat) (a : bytes)
    (r g b : Z) :
  a !! i = Some r -> a !! (i + 1)%nat = Some g -> a !! (i + 2)%nat = Some b ->
  storeChannels f0 f1 f2 i a !! i = Some (ToUint8Clamp (f0 (ofZ r))) /\
  storeChannels f0 f1 f2 i a !! (i + 1)%nat = Some (ToUint8Clamp (f1 (ofZ g))) /\
  storeChannels f0 f1 f2 i a !! (i + 2)%nat = Some (ToUint8Clamp (f2 (ofZ b))).
Proof.
  intros Hr Hg Hb. unfold storeChannels. cbv zeta.
  rewrite !get_setClamped_ne by lia.
  rewrite (get_Some _ _ _ Hr), (get_Some _ _ _ Hg), (get_Some _ _ _ Hb).
  split; [|split].
  - rewrite !lookup_setClamped_ne by lia. by eapply lookup_setClamped_eq.
  - rewrite lookup_setClamped_ne by lia.
    eapply lookup_setClamped_eq. rewrite lookup_setClamped_ne by lia. done.
  - eapply lookup_setClamped_eq. rewrite !lookup_setClamped_ne by lia. done.
Qed.

Lemma storeChannels_frame (f0 f1 f2 : Number -> Number) :
  storesColourOnly (storeChannels f0 f1 f2).
Proof.
  intros i a j Hj. unfold storeChannels. cbv zeta.
  by rewrite !lookup_setClamped_ne by lia.
Qed.

Lemma storeChannels_own (f0 f1 f2 : Number -> Number) :
  readsOwnPixel (storeChannels f0 f1 f2).
Proof.
  intros i a a' Hagree j Hj. unfold storeChannels. cbv zeta.
  rewrite !get_setClamped_ne by lia.
  rewrite (get_ext a a' i), (get_ext a a' (i + 1)), (get_ext a a' (i + 2))
    by (apply Hagree; lia).
  rewrite !lookup_setClamped.
  repeat match goal with
  | |- context [decide (?x = ?y)] => destruct (decide (x = y))
  end; rewrite ?lookup_setClamped; 
  repeat match goal with
  | |- context [decide (?x = ?y)] => destruct (decide (x = y)); try lia
  end; rewrite ?Hagree by lia; done.
Qed.

(** *** Split toning *)

Lemma splitToningBody_channels (highlights shadows : RGB) (i : nat) (data : bytes) :
  splitToningBody highlights shadows i data =
  let brightness :=
    ((get data i + get data (i + 1) + get data (i + 2)) / (3 * 255))%float in
  let tone := if gt brightness 0.5 then highlights else shadows in
  storeChannels (fun v => (v + AdvancedEffects.r tone) / 2)%float
    (fun v => (v + AdvancedEffects.g tone) / 2)%float
    (fun v => (v + AdvancedEffects.b tone) / 2)%float i data.
Proof. unfold splitToningBody. cbv zeta. by destruct (gt _ _). Qed.

Lemma splitToningBody_own (highlights shadows : RGB) :
  readsOwnPixel (splitToningBody highlights shadows).
Proof.
  intros i a a' Hagree j Hj. rewrite !splitToningBody_channels. cbv zeta.
  rewrite (get_ext a a' i), (get_ext a a' (i + 1)), (get_ext a a' (i + 2))
    by (apply Hagree; lia).
  by apply storeChannels_own.
Qed.

(** X17: split toning takes the highlight colour for a pixel whose
    colour bytes sum to 383 or more and the shadow colour otherwise, and
    replaces each colour byte by the mean of the byte and the tone's
    channel, a mean ending in one half rounded to the even neighbour. *)
Theorem splitToning_on_integers (highlightColor shadowColor : string)
    (data : bytes) (p : nat) (r g b : Z) :
  isByte r -> isByte g -> isByte b ->
  data !! (4 * p)%nat = Some r ->
  data !! (4 * p + 1)%nat = Some g ->
  data !! (4 * p + 2)%nat = Some b ->
  exists toneR toneG toneB : Z,
    (if 382 <? r + g + b then hexToRgb highlightColor else hexToRgb shadowColor)
    = mkRGB (ofZ toneR) (ofZ toneG) (ofZ toneB) /\
    isByte toneR /\ isByte toneG /\ isByte toneB /\
    let out := applySplitToning highlightColor shadowColor data in
    out !! (4 * p)%nat = Some (halfToEven (r + toneR)) /\
    out !! (4 * p + 1)%nat = Some (halfToEven (g + toneG)) /\
    out !! (4 * p + 2)%nat = Some (halfToEven (b + toneB)).
Proof.
  intros Hbr Hbg Hbb Hr Hg Hb.
  set (tone := if 382 <? r + g + b then hexToRgb highlightColor
               else hexToRgb shadowColor).
  assert (Htone : exists tr tg tb, isByte tr /\ isByte tg /\ isByte tb /\
            tone = mkRGB (ofZ tr) (ofZ tg) (ofZ tb)).
  { unfold tone. destruct (382 <? r + g + b);
      [destruct (hexToRgb_channels highlightColor) as (tr & tg & tb & H)
      |destruct (hexToRgb_channels shadowColor) as (tr & tg & tb & H)];
      exists tr, tg, tb; tauto. }
  destruct Htone as (tr & tg & tb & Htr & Htg & Htb & Htone).
  exists tr, tg, tb. split; [done|]. split; [done|]. split; [done|]. split; [done|].
  intros out.
  assert (Hp : (p < pixelCount data)%nat) by (by eapply (pixelCount_lookup _ p 1)).
  assert (Hout : forall j, (4 * p <= j < 4 * p + 4)%nat ->
            out !! j = splitToningBody (hexToRgb highlightColor)
                         (hexToRgb shadowColor) (4 * p) data !! j).
  { intros j Hj. unfold out, applySplitToning, eachPixel. cbv zeta.
    apply forPixelsFrom_own;
      auto using splitToningBody_frame, splitToningBody_own. }
  rewrite !Hout by lia. rewrite splitToningBody_channels. cbv zeta.
  rewrite (get_Some _ _ _ Hr), (get_Some _ _ _ Hg), (get_Some _ _ _ Hb).
  unfold isByte in *.
  rewrite !ofZ_add, bright_ofZ by lia. fold tone. rewrite Htone.
  cbn [AdvancedEffects.r AdvancedEffects.g AdvancedEffects.b].
  match goal with
  | |- context [storeChannels ?f0 ?f1 ?f2 (4 * p)%nat data] =>
      destruct (storeChannels_lookup f0 f1 f2 (4 * p) data r g b Hr Hg Hb)
        as (-> & -> & ->)
  end.
  rewrite !ofZ_add, !half_ofZ by lia. done.
Qed.

(** A grey pixel of sum 300 is toned with the shadow colour. *)
Lemma splitToning_on_integers_witness :
  exists toneR toneG toneB : Z,
    hexToRgb "#3f51b5" = mkRGB (ofZ toneR) (ofZ toneG) (ofZ toneB) /\
    applySplitToning "#ffeb3b" "#3f51b5" [100; 100; 100; 255] !! 0%nat
    = Some (halfToEven (100 + toneR)) /\
    applySplitToning "#ffeb3b" "#3f51b5" [100; 100; 100; 255] !! 1%nat
    = Some (halfToEven (100 + toneG)) /\
    applySplitToning "#ffeb3b" "#3f51b5" [100; 100; 100; 255] !! 2%nat
    = Some (halfToEven (100 + toneB)).
Proof.
  assert (Hbyte : isByte 100) by (unfold isByte; lia).
  destruct (splitToning_on_integers "#ffeb3b" "#3f51b5" [100; 100; 100; 255]
              0 100 100 100 Hbyte Hbyte Hbyte eq_refl eq_refl eq_refl)
    as (tr & tg & tb & Htone & _ & _ & _ & H0 & H1 & H2).
  exists tr, tg, tb. split; [exact Htone|]. split; [exact H0|].
  split; [exact H1 | exact H2].
Defined.

(** The shadow colour [#3f51b5] is (63, 81, 181): the means 81.5, 90.5 and
    140.5 of the grey pixel are stored as 82, 90 and 140. *)
Lemma splitToning_ties_to_even :
  applySplitToning "#ffeb3b" "#3f51b5" [100; 100; 100; 255] = [82; 90; 140; 255].
Proof. vm_compute. reflexivity. Qed.

(** *** Colour splash twice *)

Lemma grayOf_grey (y : Z) : isByte y -> grayOf y y y = y.
Proof.
  intros Hy.
  assert (H : forBytes (fun y => grayOf y y y =? y) = true)
    by (vm_compute; reflexivity).
  apply Z.eqb_eq. revert y Hy. apply forBytes_spec, H.
Qed.

Lemma colorSplashBody_length (t tol : Number) (i : nat) (a : bytes) :
  length (colorSplashBody t tol i a) = length a.
Proof.
  unfold colorSplashBody. destruct (rgbToHsl _ _ _) as [[h s] l].
  destruct (_ && _); [|done]. cbv zeta. by rewrite !setClamped_length.
Qed.

(** The body either keeps the pixel or stores its grey in the three
    colour bytes. *)
Lemma colorSplashBody_cases (t tol : Number) (i : nat) (a : bytes) (r g b : Z) :
  a !! i = Some r -> a !! (i + 1)%nat = Some g -> a !! (i + 2)%nat = Some b ->
  colorSplashBody t tol i a = a \/
  colorSplashBody t tol i a =
    storeChannels (fun _ => ofZ (grayOf r g b)) (fun _ => ofZ (grayOf r g b))
      (fun _ => ofZ (grayOf r g b)) i a.
Proof.
  intros Hr Hg Hb. unfold colorSplashBody.
  rewrite (get_Some _ _ _ Hr), (get_Some _ _ _ Hg), (get_Some _ _ _ Hb).
  destruct (rgbToHsl _ _ _) as [[h s] l].
  destruct (_ && _); [right | by left]. cbv zeta.
  unfold storeChannels, setClamped. cbv zeta.
  pose proof (ToUint8Clamp_isByte (0.2126 * ofZ r + 0.7152 * ofZ g + 0.0722 * ofZ b))
    as Hy. fold (grayOf r g b) in Hy |- *.
  rewrite !ToUint8Clamp_ofZ by (unfold isByte in Hy; lia).
  unfold clampByte, isByte in *.
  by replace (Z.max 0 (Z.min 255 (grayOf r g b))) with (grayOf r g b) by lia.
Qed.

(** On a pixel it has turned grey the body changes nothing. *)
Lemma colorSplashBody_twice (t tol : Number) (i : nat) (a : bytes) (r g b : Z)
    (j : nat) :
  a !! i = Some r -> a !! (i + 1)%nat = Some g -> a !! (i + 2)%nat = Some b ->
  colorSplashBody t tol i (colorSplashBody t tol i a) !! j
  = colorSplashBody t tol i a !! j.
Proof.
  intros Hr Hg Hb.
  destruct (colorSplashBody_cases t tol i a r g b Hr Hg Hb) as [E | E];
    rewrite !E; [done|]. clear E.
  set (y := grayOf r g b).
  assert (Hy : isByte y) by apply ToUint8Clamp_isByte.
  set (a' := storeChannels _ _ _ i a).
  destruct (storeChannels_lookup (fun _ => ofZ y) (fun _ => ofZ y)
              (fun _ => ofZ y) i a r g b Hr Hg Hb) as (H0 & H1 & H2).
  fold a' in H0, H1, H2.
  rewrite ToUint8Clamp_ofZ in H0, H1, H2 by (unfold isByte in Hy; lia).
  replace (clampByte y) with y in H0, H1, H2
    by (unfold clampByte, isByte in *; lia).
  destruct (colorSplashBody_cases t tol i a' y y y H0 H1 H2) as [-> | ->];
    [done|].
  rewrite grayOf_grey by done.
  destruct (storeChannels_lookup (fun _ => ofZ y) (fun _ => ofZ y)
              (fun _ => ofZ y) i a' y y y H0 H1 H2) as (H0' & H1' & H2').
  rewrite ToUint8Clamp_ofZ in H0', H1', H2' by (unfold isByte in Hy; lia).
  replace (clampByte y) with y in H0', H1', H2'
    by (unfold clampByte, isByte in *; lia).
  destruct (decide (j = i)) as [->|?]; [by rewrite H0', H0|].
  destruct (decide (j = i + 1)%nat) as [->|?]; [by rewrite H1', H1|].
  destruct (decide (j = i + 2)%nat) as [->|?]; [by rewrite H2', H2|].
  apply storeChannels_frame. lia.
Qed.

(** X18: colour splash is idempotent on an image buffer: a second pass
    with the same target hue and tolerance changes nothing, since the grey
    of a grey pixel is the pixel itself. *)
Theorem colorSplash_idempotent (targetHue hueTolerance : Number) (data : bytes) :
  (length data mod 4 = 0)%nat ->
  applyColorSplash targetHue hueTolerance
    (applyColorSplash targetHue hueTolerance data)
  = applyColorSplash targetHue hueTolerance data.
Proof.
  intros Hlen.
  set (out := applyColorSplash targetHue hueTolerance data).
  assert (Hlen' : length out = length data).
  { unfold out, applyColorSplash, eachPixel.
    apply forPixelsFrom_length, colorSplashBody_length. }
  assert (Hcount : pixelCount out = pixelCount data)
    by (unfold pixelCount; by rewrite Hlen').
  apply list_eq. intros j.
  destruct (decide (j < length data)%nat) as [Hj|Hj].
  - set (p := (j / 4)%nat).
    pose proof (Nat.div_mod_eq j 4) as Hdm. fold p in Hdm.
    pose proof (Nat.mod_upper_bound j 4 ltac:(lia)) as Hm.
    pose proof (Nat.div_mod_eq (length data) 4) as Hdl.
    assert (Hp4 : (4 * p + 3 < length data)%nat) by lia.
    assert (Hp : (p < pixelCount data)%nat).
    { unfold pixelCount.
      pose proof (Nat.div_mod_eq (length data + 3) 4).
      pose proof (Nat.mod_upper_bound (length data + 3) 4). lia. }
    assert (Hin : (4 * p <= j < 4 * p + 4)%nat) by lia.
    assert (Hout : forall j', (4 * p <= j' < 4 * p + 4)%nat ->
              out !! j' = colorSplashBody targetHue hueTolerance (4 * p)%nat data !! j').
    { intros j' Hj'. unfold out, applyColorSplash, eachPixel.
      apply forPixelsFrom_own;
        auto using colorSplashBody_frame, colorSplashBody_own. }
    destruct (lookup_lt_is_Some_2 data (4 * p) ltac:(lia)) as [r Hr].
    destruct (lookup_lt_is_Some_2 data (4 * p + 1) ltac:(lia)) as [g Hg].
    destruct (lookup_lt_is_Some_2 data (4 * p + 2) ltac:(lia)) as [b Hb].
    unfold applyColorSplash at 1. unfold eachPixel. rewrite Hcount.
    rewrite (forPixelsFrom_own _ (colorSplashBody_frame targetHue hueTolerance)
               _ p out j (colorSplashBody_own targetHue hueTolerance) Hp Hin).
    rewrite (colorSplashBody_own targetHue hueTolerance (4 * p)%nat out
               (colorSplashBody targetHue hueTolerance (4 * p)%nat data) Hout j Hin).
    rewrite Hout by done.
    by apply (colorSplashBody_twice _ _ _ _ r g b).
  - rewrite !(proj2 (lookup_ge_None _ _)); [done | lia |].
    unfold applyColorSplash at 1. unfold eachPixel.
    rewrite forPixelsFrom_length by apply colorSplashBody_length.
    fold out. lia.
Qed.

Lemma colorSplash_idempotent_witness :
  applyColorSplash 0 10 (applyColorSplash 0 10 [0; 255; 0; 255;  240; 0; 20; 255])
  = applyColorSplash 0 10 [0; 255; 0; 255;  240; 0; 20; 255].
Proof. apply colorSplash_idempotent. reflexivity. Defined.

(** *** The shape of the buffer *)

(** A buffer of [n] bytes, each in 0..255. *)
Definition shaped (n : nat) (a : bytes) : Prop :=
  length a = n /\ Forall isByte a.

Lemma setClamped_shaped (n : nat) (a : bytes) (i : nat) (x : Number) :
  shaped n a -> shaped n (setClamped a i x).
Proof.
  intros [Hlen Hb]. split; [by rewrite setClamped_length|].
  by apply setClamped_bytes.
Qed.

Lemma eachPixel_shaped (n : nat) (body : nat -> bytes -> bytes) (a : bytes) :
  (forall i a, shaped n a -> shaped n (body i a)) ->
  shaped n a -> shaped n (eachPixel body a).
Proof.
  intros Hbody Ha. unfold eachPixel.
  apply forPixelsFrom_invariant; [|done]. intros k s. apply Hbody.
Qed.

Lemma applyNoise_shaped (n : nat) (random : nat -> Number) (amount : Number)
    (s : list Z * nat) :
  shaped n (fst s) -> shaped n (fst (applyNoise random amount s)).
Proof.
  intros Hs. unfold applyNoise.
  apply (forPixelsFrom_invariant (fun s' => shaped n (fst s'))); [|done].
  intros k [a c] Ha. unfold noiseBody. cbn [fst] in *.
  by repeat apply setClamped_shaped.
Qed.

Lemma applyColorSplash_shaped (n : nat) (t tol : Number) (a : bytes) :
  shaped n a -> shaped n (applyColorSplash t tol a).
Proof.
  apply eachPixel_shaped. intros i a' Ha'. unfold colorSplashBody.
  destruct (rgbToHsl _ _ _) as [[h s] l]. destruct (_ && _); [|done].
  cbv zeta. by repeat apply setClamped_shaped.
Qed.

Lemma applyGamma_shaped `{Host} (n : nat) (gm : Number) (a : bytes) :
  shaped n a -> shaped n (applyGamma gm a).
Proof.
  apply eachPixel_shaped. intros i a' Ha'. unfold gammaBody. cbv zeta.
  by repeat apply setClamped_shaped.
Qed.

Lemma applyColorBalance_shaped (n : nat) (balance : RGB) (a : bytes) :
  shaped n a -> shaped n (applyColorBalance balance a).
Proof.
  apply eachPixel_shaped. intros i a' Ha'. unfold colorBalanceBody. cbv zeta.
  by repeat apply setClamped_shaped.
Qed.

Lemma applySplitToning_shaped (n : nat) (hl sh : string) (a : bytes) :
  shaped n a -> shaped n (applySplitToning hl sh a).
Proof.
  unfold applySplitToning. cbv zeta.
  apply eachPixel_shaped. intros i a' Ha'. unfold splitToningBody. cbv zeta.
  destruct (gt _ _); by repeat apply setClamped_shaped.
Qed.

(** X19: whatever the settings, the random numbers and the results of
    [Math.pow], the pixels of the processed file are as many bytes as the
    input has, each in 0..255. *)
Theorem effects_keep_buffer_shape `{Host} (settings : Settings)
    (random : nat -> Number) (img out : Raster) :
  applyAdvancedEffects settings random img = inr out ->
  Forall isByte (data img) ->
  length (data out) = length (data img) /\ Forall isByte (data out).
Proof.
  intros Hout Hbytes.
  assert (H0 : shaped (length (data img)) (data img)) by done.
  revert Hout. unfold applyAdvancedEffects, getImageData, putImageData.
  set (noisy := if gt (noiseAmount settings) 0 then _ else _).
  assert (H1 : shaped (length (data img)) (fst noisy)).
  { unfold noisy. destruct (gt (noiseAmount settings) 0); [|done].
    by apply applyNoise_shaped. }
  destruct noisy as [a1 cursor]. cbn [fst] in H1.
  destruct (if gt (glitchIntensity settings) 0 then _ else _)
    as [e|[canvas cursor']]; cbn; [discriminate|].
  intros [= <-]. cbn [data].
  set (a2 := if colorSplash settings then _ else a1).
  assert (H2 : shaped (length (data img)) a2).
  { unfold a2. destruct (colorSplash settings); [|done].
    by apply applyColorSplash_shaped. }
  set (a3 := if neq (gamma settings) 1 then _ else a2).
  assert (H3 : shaped (length (data img)) a3).
  { unfold a3. destruct (neq (gamma settings) 1); [|done].
    by apply applyGamma_shaped. }
  set (a4 := if _ || _ then _ else a3).
  assert (H4 : shaped (length (data img)) a4).
  { unfold a4. destruct (_ || _); [|done]. by apply applyColorBalance_shaped. }
  destruct (splitToning settings); [|done].
  by apply applySplitToning_shaped.
Qed.

Lemma effects_keep_buffer_shape_witness :
  exists out,
    applyAdvancedEffects (host := ExampleHost.exampleHost)
      AdvancedPipelineFacts.withSplitToning (fun _ => 0.5%float)
      AdvancedPipelineFacts.greyPixel = inr out /\
    length (data out) = 4%nat /\ Forall isByte (data out).
Proof.
  eexists. split; [vm_compute; reflexivity|].
  apply (effects_keep_buffer_shape (H := ExampleHost.exampleHost)
           AdvancedPipelineFacts.withSplitToning (fun _ => 0.5%float)
           AdvancedPipelineFacts.greyPixel).
  - vm_compute. reflexivity.
  - repeat constructor; unfold isByte; lia.
Defined.

(** *** Noise *)

(** The body of the noise loop when the calls of [Math.random()] made so
    far are as many as the pixels before the one at byte offset [i]. *)
Definition noiseAt (random : nat -> Number) (amount : Number) (i : nat)
    (data : bytes) : bytes :=
  fst (noiseBody random amount i (data, (i / 4)%nat)).

Lemma noiseAt_channels (random : nat -> Number) (amount : Number) (i : nat)
    (data : bytes) :
  noiseAt random amount i data =
  let noise := ((random (i / 4)%nat - 0.5) * amount)%float in
  storeChannels (fun v => Math_min 255 (Math_max 0 (v + noise)))
    (fun v => Math_min 255 (Math_max 0 (v + noise)))
    (fun v => Math_min 255 (Math_max 0 (v + noise))) i data.
Proof. reflexivity. Qed.

Lemma applyNoise_cursor (random : nat -> Number) (amount : Number)
    (n k : nat) (a : bytes) :
  forPixelsFrom n k (noiseBody random amount) (a, k) =
  (forPixelsFrom n k (noiseAt random amount) a, (k + n)%nat).
Proof.
  revert k a. induction n as [|n IH]; intros k a; cbn [forPixelsFrom].
  - by rewrite Nat.add_0_r.
  - assert (E : noiseBody random amount (4 * k) (a, k)
                = (noiseAt random amount (4 * k) a, S k)).
    { unfold noiseAt. rewrite SegmentationFacts.four_div. reflexivity. }
    rewrite E, IH. f_equal. lia.
Qed.

Lemma noiseAt_frame (random : nat -> Number) (amount : Number) :
  storesColourOnly (noiseAt random amount).
Proof. intros i a j Hj. rewrite noiseAt_channels. by apply storeChannels_frame. Qed.

Lemma noiseAt_own (random : nat -> Number) (amount : Number) :
  readsOwnPixel (noiseAt random amount).
Proof.
  intros i a a' Hagree j Hj. rewrite !noiseAt_channels.
  by apply storeChannels_own.
Qed.

(** X21: the noise loop calls [Math.random()] once per pixel, in the
    order of the pixels; pixel [p] gets the offset of call [p], the same
    for its three colour bytes, and each sum is clamped to 0..255 and
    rounded. *)
Theorem noise_one_draw_per_pixel (random : nat -> Number) (amount : Number)
    (data : bytes) (p : nat) (r g b : Z) :
  data !! (4 * p)%nat = Some r ->
  data !! (4 * p + 1)%nat = Some g ->
  data !! (4 * p + 2)%nat = Some b ->
  let result := applyNoise random amount (data, 0%nat) in
  let noise := ((random p - 0.5) * amount)%float in
  let noisy (v : Z) := ToUint8Clamp (Math_min 255 (Math_max 0 (ofZ v + noise))) in
  fst result !! (4 * p)%nat = Some (noisy r) /\
  fst result !! (4 * p + 1)%nat = Some (noisy g) /\
  fst result !! (4 * p + 2)%nat = Some (noisy b) /\
  snd result = pixelCount data.
Proof.
  intros Hr Hg Hb result noise noisy.
  assert (Hp : (p < pixelCount data)%nat) by (by eapply (pixelCount_lookup _ p 1)).
  assert (Hres : result = (eachPixel (noiseAt random amount) data, pixelCount data)).
  { unfold result, applyNoise, eachPixel. cbn [fst]. by rewrite applyNoise_cursor. }
  rewrite Hres. cbn [fst snd].
  assert (Hout : forall j, (4 * p <= j < 4 * p + 4)%nat ->
            eachPixel (noiseAt random amount) data !! j
            = noiseAt random amount (4 * p) data !! j).
  { intros j Hj. unfold eachPixel.
    apply forPixelsFrom_own; auto using noiseAt_frame, noiseAt_own. }
  rewrite !Hout by lia. rewrite noiseAt_channels, SegmentationFacts.four_div.
  cbv zeta. fold noise.
  match goal with
  | |- context [storeChannels ?f0 ?f1 ?f2 (4 * p)%nat data] =>
      destruct (storeChannels_lookup f0 f1 f2 (4 * p) data r g b Hr Hg Hb)
        as (-> & -> & ->)
  end.
  done.
Qed.

(** With the draw 0.75 and the amount 100 the grey 100 becomes 125. *)
Lemma noise_one_draw_per_pixel_witness :
  fst (applyNoise (fun _ => 0.75%float) 100 ([100; 100; 100; 255], 0%nat))
    !! 0%nat = Some 125 /\
  snd (applyNoise (fun _ => 0.75%float) 100 ([100; 100; 100; 255], 0%nat))
  = 1%nat.
Proof.
  destruct (noise_one_draw_per_pixel (fun _ => 0.75%float) 100
              [100; 100; 100; 255] 0 100 100 100 eq_refl eq_refl eq_refl)
    as (H0 & _ & _ & Hc).
  split; [|exact Hc].
  etransitivity; [exact H0|]. vm_compute. reflexivity.
Defined.

End EffectFacts.

(** ** The metadata editor: [MetadataEditor] *)
Module MetadataEditor.

(** *** Keywords *)

(** The part of the component state the keyword handlers use:
    [metadata.keywords] and the text of the input field. *)
Record KeywordState := {
  keywords : list string;
  newKeyword : string
}.

(** [keywords.includes(keyword)]. *)
Definition includes (keywords : list string) (keyword : string) : bool :=
  existsb (String.eqb keyword) keywords.

(** The empty string is falsy. *)
Definition truthy (s : string) : bool := negb (String.eqb s "").

Definition addKeyword (s : KeywordState) : KeywordState :=
  if truthy (newKeyword s) && negb (includes (keywords s) (newKeyword s))
  then {| keywords := keywords s ++ [newKeyword s]; newKeyword := "" |}
  else s.

Definition removeKeyword (keyword : string) (s : KeywordState) : KeywordState :=
  {| keywords := List.filter (fun k => negb (String.eqb k keyword)) (keywords s);
     newKeyword := newKeyword s |}.

Definition setNewKeyword (value : string) (s : KeywordState) : KeywordState :=
  {| keywords := keywords s; newKeyword := value |}.

(** What the user does with the keyword field: typing, the [Add] button
    (or the Enter key) and the remove button of a keyword. *)
Inductive KeywordEvent :=
| Typed (value : string)
| AddPressed
| RemovePressed (keyword : string).

Definition keywordStep (s : KeywordState) (event : KeywordEvent) : KeywordState :=
  match event with
  | Typed value => setNewKeyword value s
  | AddPressed => addKeyword s
  | RemovePressed keyword => removeKeyword keyword s
  end.

(** The state of [defaultMetadata] and of the empty input field. *)
Definition initialKeywords : KeywordState := {| keywords := []; newKeyword := "" |}.

Definition keywordsAfter (events : list KeywordEvent) : KeywordState :=
  foldl keywordStep initialKeywords events.

(** *** The EXIF reader *)

(** The bytes of the [ArrayBuffer] behind a [DataView]. *)
Definition byteLength (view : bytes) : Z := Z.of_nat (length view).

(** [view.getUint16(o)] and [view.getUint32(o)], big endian as the calls
    pass no flag; [None] is the [RangeError] of a read that does not lie
    within the buffer. *)
Definition inRange (view : bytes) (byteOffset size : Z) : bool :=
  (0 <=? byteOffset) && (byteOffset + size <=? byteLength view).

Definition byteAt (view : bytes) (byteOffset : Z) : Z :=
  match view !! Z.to_nat byteOffset with
  | Some v => v
  | None => 0
  end.

Definition getUint16 (view : bytes) (byteOffset : Z) : option Z :=
  if inRange view byteOffset 2
  then Some (byteAt view byteOffset * 256 + byteAt view (byteOffset + 1))
  else None.

Definition getUint32 (view : bytes) (byteOffset : Z) : option Z :=
  if inRange view byteOffset 4
  then Some (((byteAt view byteOffset * 256 + byteAt view (byteOffset + 1)) * 256
              + byteAt view (byteOffset + 2)) * 256
             + byteAt view (byteOffset + 3))
  else None.

(** The fields [extractExifData] can set.  The strings of the source are
    kept as the numbers they are built from: [exposureTime] is
    [n + '/' + d], [fNumber] is ['f/' + (n / d)] and [focalLength] is
    [n + 'mm']. *)
Record ExifData := {
  make : option string;
  model : option string;
  exposureTime : option (Z * Z);
  fNumber : option (Z * Z);
  iso : option Z;
  focalLength : option Z
}.

Definition noExif : ExifData :=
  {| make := None; model := None; exposureTime := None; fNumber := None;
     iso := None; focalLength := None |}.

(** The loop of [readExifString] over the bytes from its offset on, each
    read by [view.getUint8(offset + i)]: the characters up to the first 0
    byte; running off the end is the [RangeError] of the read. *)
Fixpoint readChars (rest : list Z) : option string :=
  match rest with
  | [] => None
  | charCode :: rest' =>
      if charCode =? 0 then Some EmptyString
      else option_map (String (ascii_of_nat (Z.to_nat charCode))) (readChars rest')
  end.

Definition readExifString (view : bytes) (offset : Z) : option string :=
  if inRange view offset 1 then readChars (drop (Z.to_nat offset) view)
  else None.

(** One iteration of the loop over the entries: the new [exifData], or
    [None] when a read raises. *)
Definition readEntry (view : bytes) (entryOffset : Z) (exifData : ExifData)
    : option ExifData :=
  match getUint16 view entryOffset with
  | None => None
  | Some tag =>
      if tag =? 0x010F then (* Make *)
        match readExifString view (entryOffset + 8) with
        | Some s =>
            Some {| make := Some s; model := model exifData;
                    exposureTime := exposureTime exifData;
                    fNumber := fNumber exifData; iso := iso exifData;
                    focalLength := focalLength exifData |}
        | None => None
        end
      else if tag =? 0x0110 then (* Model *)
        match readExifString view (entryOffset + 8) with
        | Some s =>
            Some {| make := make exifData; model := Some s;
                    exposureTime := exposureTime exifData;
                    fNumber := fNumber exifData; iso := iso exifData;
                    focalLength := focalLength exifData |}
        | None => None
        end
      else if tag =? 0x829A then (* Exposure Time *)
        match getUint32 view (entryOffset + 8), getUint32 view (entryOffset + 12) with
        | Some n, Some d =>
            Some {| make := make exifData; model := model exifData;
                    exposureTime := Some (n, d);
                    fNumber := fNumber exifData; iso := iso exifData;
                    focalLength := focalLength exifData |}
        | _, _ => None
        end
      else if tag =? 0x829D then (* F-Number *)
        match getUint32 view (entryOffset + 8), getUint32 view (entryOffset + 12) with
        | Some n, Some d =>
            Some {| make := make exifData; model := model exifData;
                    exposureTime := exposureTime exifData;
                    fNumber := Some (n, d); iso := iso exifData;
                    focalLength := focalLength exifData |}
        | _, _ => None
        end
      else if tag =? 0x8827 then (* ISO *)
        match getUint16 view (entryOffset + 8) with
        | Some v =>
            Some {| make := make exifData; model := model exifData;
                    exposureTime := exposureTime exifData;
                    fNumber := fNumber exifData; iso := Some v;
                    focalLength := focalLength exifData |}
        | None => None
        end
      else if tag =? 0x920A then (* Focal Length *)
        match getUint32 view (entryOffset + 8) with
        | Some v =>
            Some {| make := make exifData; model := model exifData;
                    exposureTime := exposureTime exifData;
                    fNumber := fNumber exifData; iso := iso exifData;
                    focalLength := Some v |}
        | None => None
        end
      else Some exifData
  end.

(** [for (let i = 0; i < numEntries; i++) { ...; entryOffset += 12 }].  A
    read that raises ends the function in its [catch] block, which returns
    [exifData] as the entries before have left it. *)
Fixpoint readEntries (numEntries : nat) (view : bytes) (entryOffset : Z)
    (exifData : ExifData) : ExifData :=
  match numEntries with
  | O => exifData
  | S numEntries' =>
      match readEntry view entryOffset exifData with
      | Some exifData' => readEntries numEntries' view (entryOffset + 12) exifData'
      | None => exifData
      end
  end.

(** The body of [if (view.getUint16(offset) === 0xFFE1)], up to its
    [break]. *)
Definition readApp1 (view : bytes) (offset : Z) : ExifData :=
  match getUint32 view (offset + 4) with
  | None => noExif
  | Some exifHeader =>
      if exifHeader =? 0x45786966 then (* 'Exif' *)
        let tiffOffset := offset + 10 in
        match getUint16 view tiffOffset with
        | None => noExif
        | Some byteOrder =>
            if byteOrder =? 0x4949 then (* Little-endian *)
              match getUint32 view (tiffOffset + 4) with
              | None => noExif
              | Some ifdOffset =>
                  match getUint16 view (tiffOffset + ifdOffset) with
                  | None => noExif
                  | Some numEntries =>
                      let entryOffset := tiffOffset + ifdOffset + 2 in
                      readEntries (Z.to_nat numEntries) view entryOffset noExif
                  end
              end
            else noExif
        end
      else noExif
  end.

(** [while (offset < view.byteLength)], at most [fuel] iterations;
    [None] when the iterations do not suffice. *)
Fixpoint scanSegments (fuel : nat) (view : bytes) (offset : Z)
    : option ExifData :=
  match fuel with
  | O => None
  | S fuel' =>
      if offset <? byteLength view then
        match getUint16 view offset with
        | None => Some noExif
        | Some marker =>
            if marker =? 0xFFE1 then (* APP1 marker *) Some (readApp1 view offset)
            else
              match getUint16 view (offset + 2) with
              | None => Some noExif
              | Some size => scanSegments fuel' view (offset + 2 + size)
              end
        end
      else Some noExif
  end.

Definition extractExifDataFuel (fuel : nat) (view : bytes) : option ExifData :=
  match getUint16 view 0 with
  | Some marker =>
      if marker =? 0xFFD8 (* JPEG *) then scanSegments fuel view 2
      else Some noExif
  | None => Some noExif
  end.

(** The loop advances by two bytes at least in every iteration. *)
Definition extractExifData (view : bytes) : option ExifData :=
  extractExifDataFuel (S (length view)) view.

End MetadataEditor.

(** ** Facts about the metadata editor *)
Module MetadataFacts.
Import MetadataEditor.

(** *** Keywords *)

Lemma includes_In (ks : list string) (k : string) :
  includes ks k = true <-> In k ks.
Proof.
  unfold includes. rewrite existsb_exists. split.
  - intros (k' & Hin & Heq). apply String.eqb_eq in Heq. by subst.
  - intros Hin. exists k. split; [done | apply String.eqb_refl].
Qed.

(** What holds of the keyword list at any time. *)
Definition keywordInvariant (s : KeywordState) : Prop :=
  List.NoDup (keywords s) /\ ~ In EmptyString (keywords s).

Lemma keywordStep_invariant (s : KeywordState) (event : KeywordEvent) :
  keywordInvariant s -> keywordInvariant (keywordStep s event).
Proof.
  intros [Hnd Hne]. destruct event as [value| |keyword]; cbn [keywordStep].
  - done.
  - unfold addKeyword.
    destruct (truthy (newKeyword s)) eqn:Htruthy; [|done].
    destruct (includes (keywords s) (newKeyword s)) eqn:Hinc; [done|].
    cbn [andb negb]. split; cbn [keywords].
    + apply List.NoDup_app; [done | repeat constructor; by intros [] |].
      intros k Hk [<-|[]].
      apply includes_In in Hk. congruence.
    + rewrite in_app_iff. intros [Hin|[Heq|[]]]; [done|].
      unfold truthy in Htruthy. rewrite Heq in Htruthy. discriminate.
  - split; cbn [removeKeyword keywords].
    + by apply List.NoDup_filter.
    + intros Hin. apply List.filter_In in Hin. tauto.
Qed.

(** X22: whatever is typed, added and removed, the keyword list never
    holds a keyword twice and never holds the empty keyword. *)
Theorem keywords_stay_distinct (events : list KeywordEvent) :
  List.NoDup (keywords (keywordsAfter events)) /\
  ~ In EmptyString (keywords (keywordsAfter events)).
Proof.
  unfold keywordsAfter.
  assert (H : forall s, keywordInvariant s ->
            keywordInvariant (foldl keywordStep s events)).
  { induction events as [|event events IH]; intros s Hs; [done|].
    cbn [foldl]. by apply IH, keywordStep_invariant. }
  apply H. split; [constructor | by intros []].
Qed.

Lemma filter_fresh (ks : list string) (k : string) :
  ~ In k ks -> List.filter (fun k' => negb (String.eqb k' k)) ks = ks.
Proof.
  induction ks as [|k' ks IH]; intros Hk; [done|]. cbn [List.filter].
  destruct (String.eqb_spec k' k) as [->|Hne]; cbn [negb].
  - exfalso. apply Hk. by left.
  - f_equal. apply IH. intros Hin. apply Hk. by right.
Qed.

(** X23: adding a keyword and removing it again restores the list; a
    keyword that is empty or already in the list is not added, and removing
    a keyword the list does not hold changes nothing. *)
Theorem keyword_add_then_remove (s : KeywordState) :
  let k := newKeyword s in
  (k <> EmptyString -> ~ In k (keywords s) ->
     keywords (addKeyword s) = keywords s ++ [k] /\
     newKeyword (addKeyword s) = EmptyString /\
     keywords (removeKeyword k (addKeyword s)) = keywords s) /\
  (k = EmptyString \/ In k (keywords s) -> addKeyword s = s) /\
  (forall other, ~ In other (keywords s) ->
     keywords (removeKeyword other s) = keywords s).
Proof.
  intros k. split; [|split].
  - intros Hne Hfresh. unfold addKeyword. fold k.
    assert (Ht : truthy k = true).
    { unfold truthy. by destruct (String.eqb_spec k EmptyString). }
    assert (Hi : includes (keywords s) k = false).
    { destruct (includes (keywords s) k) eqn:Hinc; [|done].
      by apply includes_In in Hinc. }
    rewrite Ht, Hi. cbn [andb negb keywords newKeyword removeKeyword].
    split; [done|]. split; [done|].
    rewrite List.filter_app, filter_fresh by done. cbn [List.filter].
    rewrite String.eqb_refl. cbn [negb]. apply app_nil_r.
  - intros Hk. unfold addKeyword. fold k. destruct Hk as [->|Hin].
    + done.
    + apply includes_In in Hin. rewrite Hin. by rewrite andb_false_r.
  - intros other Hother. cbn [removeKeyword keywords]. by apply filter_fresh.
Qed.

(** *** The EXIF reader *)

Lemma byteAt_byte (view : bytes) (o : Z) :
  Forall isByte view -> 0 <= byteAt view o <= 255.
Proof.
  intros Hb. unfold byteAt. destruct (view !! Z.to_nat o) as [v|] eqn:Hv; [|lia].
  by apply (Forall_lookup_1 _ _ _ _ Hb Hv).
Qed.

Lemma getUint16_nonneg (view : bytes) (o v : Z) :
  Forall isByte view -> getUint16 view o = Some v -> 0 <= v.
Proof.
  intros Hb. unfold getUint16. destruct (inRange view o 2); [|done].
  intros [= <-].
  pose proof (byteAt_byte view o Hb). pose proof (byteAt_byte view (o + 1) Hb). lia.
Qed.

(** The loop over the segments ends within as many iterations as the
    buffer has bytes left. *)
Lemma scanSegments_returns (view : bytes) (fuel : nat) (offset : Z) :
  Forall isByte view -> Z.max 0 (byteLength view - offset) < Z.of_nat fuel ->
  exists exifData, scanSegments fuel view offset = Some exifData.
Proof.
  intros Hb. revert offset. induction fuel as [|fuel IH]; intros offset Hfuel;
    [lia|].
  cbn [scanSegments].
  destruct (Z.ltb_spec offset (byteLength view)) as [Hlt|Hge]; [|by eexists].
  destruct (getUint16 view offset) as [marker|]; [|by eexists].
  destruct (marker =? 65505); [by eexists|].
  destruct (getUint16 view (offset + 2)) as [size|] eqn:Hsize; [|by eexists].
  apply IH. pose proof (getUint16_nonneg view _ _ Hb Hsize). lia.
Qed.

(** X24: on every buffer the EXIF reader returns: its loop over the
    segments ends, and every failed read is caught. *)
Theorem extractExifData_returns (view : bytes) :
  Forall isByte view -> exists exifData, extractExifData view = Some exifData.
Proof.
  intros Hb. unfold extractExifData, extractExifDataFuel.
  destruct (getUint16 view 0) as [marker|]; [|by eexists].
  destruct (marker =? 65496); [|by eexists].
  apply scanSegments_returns; [done|]. unfold byteLength. lia.
Qed.

(** X25: a buffer that does not start with the two bytes FF D8 of the
    JPEG marker, a buffer of fewer than two bytes among them, yields no
    field. *)
Theorem extractExifData_not_jpeg (view : bytes) :
  Forall isByte view -> (forall rest, view <> 255 :: 216 :: rest) ->
  extractExifData view = Some noExif.
Proof.
  intros Hb Hstart. unfold extractExifData, extractExifDataFuel, getUint16.
  destruct (inRange view 0 2) eqn:Hrange; [|done].
  destruct (Z.eqb_spec (byteAt view 0 * 256 + byteAt view (0 + 1)) 65496)
    as [Heq|]; [|done].
  exfalso. unfold byteAt in Heq.
  destruct view as [|v0 [|v1 rest]]; [done | done |].
  change (v0 * 256 + v1 = 65496) in Heq. apply Forall_cons in Hb as [Hv0 Hb].
  apply Forall_cons in Hb as [Hv1 _]. unfold isByte in *.
  apply (Hstart rest). f_equal; [|f_equal]; lia.
Qed.

(** The start of a JPEG file whose first segment is an EXIF block: the
    markers FF D8 and FF E1, the two bytes of the length of the segment,
    [Exif] and two zero bytes, and the first eight bytes of the TIFF
    header: the byte order mark ([II] is 73 73, [MM] is 77 77), the number
    42 in that byte order and the four bytes of the offset of the first
    directory. *)
Definition exifStart (size1 size0 order1 order0 magic1 magic0 b0 b1 b2 b3 : Z)
    : bytes :=
  [255; 216; 255; 225; size1; size0; 69; 120; 105; 102; 0; 0;
   order1; order0; magic1; magic0; b0; b1; b2; b3].

Lemma inRange_start (pre rest : bytes) (o size : Z) :
  0 <= o -> o + size <= Z.of_nat (length pre) ->
  inRange (pre ++ rest) o size = true.
Proof.
  intros Ho Hsize. unfold inRange, byteLength. rewrite length_app.
  apply andb_true_iff. split; apply Z.leb_le; lia.
Qed.

Lemma byteAt_start (pre rest : bytes) (o : Z) :
  0 <= o < Z.of_nat (length pre) -> byteAt (pre ++ rest) o = byteAt pre o.
Proof.
  intros Ho. unfold byteAt. by rewrite lookup_app_l by lia.
Qed.

Lemma getUint16_start (pre rest : bytes) (o : Z) :
  0 <= o -> o + 2 <= Z.of_nat (length pre) ->
  getUint16 (pre ++ rest) o
  = Some (byteAt pre o * 256 + byteAt pre (o + 1)).
Proof.
  intros Ho Hsize. unfold getUint16.
  rewrite inRange_start, !byteAt_start by lia. done.
Qed.

Lemma getUint32_start (pre rest : bytes) (o : Z) :
  0 <= o -> o + 4 <= Z.of_nat (length pre) ->
  getUint32 (pre ++ rest) o
  = Some (((byteAt pre o * 256 + byteAt pre (o + 1)) * 256
           + byteAt pre (o + 2)) * 256 + byteAt pre (o + 3)).
Proof.
  intros Ho Hsize. unfold getUint32.
  rewrite inRange_start, !byteAt_start by lia. done.
Qed.

(** X26: the EXIF block of a JPEG file in the usual layout is not read.
    A block whose byte order mark is not [II], the big-endian [MM] among
    them, is skipped.  In a block in little-endian byte order ([II]) the
    offset of the directory is read big-endian, so that a first offset byte
    of 1 or more (8 in the usual layout) points past the end of every file
    of up to 16 MiB, the read fails and no field is set. *)
Theorem exif_in_usual_layout_is_not_read
    (size1 size0 order1 order0 magic1 magic0 b0 b1 b2 b3 : Z) (rest : bytes) :
  let view :=
    exifStart size1 size0 order1 order0 magic1 magic0 b0 b1 b2 b3 ++ rest in
  isByte order1 -> isByte order0 ->
  isByte b0 -> isByte b1 -> isByte b2 -> isByte b3 ->
  (order1, order0) <> (73, 73) \/ (1 <= b0 /\ byteLength view <= 2 ^ 24) ->
  extractExifData view = Some noExif.
Proof.
  intros view Ho1 Ho0 Hb0 Hb1 Hb2 Hb3 Horder.
  unfold extractExifData, extractExifDataFuel, view.
  rewrite getUint16_start by (cbn; lia).
  replace (byteAt _ 0 * 256 + byteAt _ (0 + 1) =? 65496) with true
    by reflexivity.
  cbn [scanSegments].
  replace (2 <? byteLength _) with true
    by (symmetry; apply Z.ltb_lt; unfold byteLength; rewrite length_app; cbn; lia).
  rewrite getUint16_start by (cbn; lia).
  replace (byteAt _ 2 * 256 + byteAt _ (2 + 1) =? 65505) with true
    by reflexivity.
  f_equal. unfold readApp1.
  rewrite getUint32_start by (cbn; lia).
  replace (_ =? 1165519206) with true by reflexivity.
  cbv zeta. rewrite getUint16_start by (cbn; lia).
  change (byteAt (exifStart size1 size0 order1 order0 magic1 magic0 b0 b1 b2 b3)
            (2 + 10)) with order1.
  change (byteAt (exifStart size1 size0 order1 order0 magic1 magic0 b0 b1 b2 b3)
            (2 + 10 + 1)) with order0.
  destruct (Z.eqb_spec (order1 * 256 + order0) 18761) as [Hii|Hother];
    [|reflexivity].
  destruct Horder as [Hne | [Hb Hlen]].
  { exfalso. apply Hne. unfold isByte in *. f_equal; lia. }
  rewrite getUint32_start by (cbn; lia).
  change (byteAt (exifStart size1 size0 order1 order0 magic1 magic0 b0 b1 b2 b3)
            (2 + 10 + 4)) with b0.
  change (byteAt (exifStart size1 size0 order1 order0 magic1 magic0 b0 b1 b2 b3)
            (2 + 10 + 4 + 1)) with b1.
  change (byteAt (exifStart size1 size0 order1 order0 magic1 magic0 b0 b1 b2 b3)
            (2 + 10 + 4 + 2)) with b2.
  change (byteAt (exifStart size1 size0 order1 order0 magic1 magic0 b0 b1 b2 b3)
            (2 + 10 + 4 + 3)) with b3.
  unfold getUint16 at 1.
  replace (inRange _ _ 2) with false; [done|].
  symmetry. unfold inRange. apply andb_false_iff. right. apply Z.leb_gt.
  fold view. unfold isByte in *.
  assert (2 ^ 24 = 16777216) by reflexivity. lia.
Qed.

(** A JPEG file without EXIF block, a PNG signature, and two JPEG files
    whose EXIF block has the usual header and one directory entry (the
    make [Canon]): one in little-endian byte order ([II], 42 as 2A 00, the
    offset 8 as 08 00 00 00), one in big-endian byte order ([MM], 00 2A,
    00 00 00 08). *)
Definition plainJpeg : bytes := [255; 216; 255; 224; 0; 4; 0; 0; 255; 217].

Definition pngSignature : bytes := [137; 80; 78; 71; 13; 10; 26; 10].

Definition littleEndianExif : bytes :=
  exifStart 0 34 73 73 42 0 8 0 0 0
  ++ [1; 0;  15; 1;  2; 0;  6; 0; 0; 0;  67; 97; 110; 111; 110; 0].

Definition bigEndianExif : bytes :=
  exifStart 0 34 77 77 0 42 0 0 0 8
  ++ [0; 1;  1; 15;  0; 2;  0; 0; 0; 6;  67; 97; 110; 111; 110; 0].

Lemma extractExifData_returns_witness :
  exists exifData, extractExifData plainJpeg = Some exifData.
Proof.
  apply extractExifData_returns.
  repeat constructor; unfold isByte; lia.
Defined.

Lemma extractExifData_not_jpeg_witness :
  extractExifData pngSignature = Some noExif.
Proof.
  apply extractExifData_not_jpeg.
  - repeat constructor; unfold isByte; lia.
  - intros rest. discriminate.
Defined.

Lemma exif_in_usual_layout_is_not_read_witness :
  extractExifData littleEndianExif = Some noExif /\
  extractExifData bigEndianExif = Some noExif.
Proof.
  split.
  - apply (exif_in_usual_layout_is_not_read 0 34 73 73 42 0 8 0 0 0).
    1-6: unfold isByte; lia.
    right. split; [lia|]. vm_compute. discriminate.
  - apply (exif_in_usual_layout_is_not_read 0 34 77 77 0 42 0 0 0 8).
    1-6: unfold isByte; lia.
    left. discriminate.
Defined.

(** The reader does set a field when the header says [II] and the offset
    of the directory and the entries are stored big-endian all the same. *)
Lemma exif_read_when_stored_big_endian :
  extractExifData
    (exifStart 0 34 73 73 42 0 0 0 0 8
     ++ [0; 1;  1; 15;  0; 2;  0; 0; 0; 6;  67; 97; 110; 111; 110; 0])
  = Some {| make := Some "Canon"%string; model := None; exposureTime := None;
            fNumber := None; iso := None; focalLength := None |}.
Proof. vm_compute. reflexivity. Qed.

End MetadataFacts.

(** ** The conversions on concrete numbers

    The values ECMAScript prescribes for the typed-array stores and for
    [Math.round], [Math.floor] and [Math.max], at the boundary cases. *)
Module JSExamples.

Example clamp_tie_rounds_to_even_down : ToUint8Clamp 2.5 = 2.
Proof. vm_compute. reflexivity. Qed.

Example clamp_tie_rounds_to_even_up : ToUint8Clamp 3.5 = 4.
Proof. vm_compute. reflexivity. Qed.

Example clamp_half_is_zero : ToUint8Clamp 0.5 = 0.
Proof. vm_compute. reflexivity. Qed.

Example clamp_below_top_tie : ToUint8Clamp 254.5 = 254.
Proof. vm_compute. reflexivity. Qed.

Example clamp_rounds_fraction : ToUint8Clamp 52.468 = 52.
Proof. vm_compute. reflexivity. Qed.

Example clamp_saturates_above : ToUint8Clamp 300 = 255.
Proof. vm_compute. reflexivity. Qed.

Example clamp_saturates_below : ToUint8Clamp (-3) = 0.
Proof. vm_compute. reflexivity. Qed.

Example clamp_nan_is_zero : ToUint8Clamp nan = 0.
Proof. vm_compute. reflexivity. Qed.

Example uint8_wraps_at_256 : ToUint8 256 = 0.
Proof. vm_compute. reflexivity. Qed.

Example uint8_truncates_then_wraps : ToUint8 257.9 = 1.
Proof. vm_compute. reflexivity. Qed.

Example uint8_negative_wraps : ToUint8 (-1.5) = 255.
Proof. vm_compute. reflexivity. Qed.

Example round_tie_goes_up : Math_round 2.5 = 3%float.
Proof. vm_compute. reflexivity. Qed.

Example round_negative_tie_goes_up : Math_round (-2.5) = (-2)%float.
Proof. vm_compute. reflexivity. Qed.

Example round_just_below_half : Math_round 0.49999999999999994 = 0%float.
Proof. vm_compute. reflexivity. Qed.

Example floor_negative : Math_floor (-2.5) = (-3)%float.
Proof. vm_compute. reflexivity. Qed.

Example max_of_zero_and_negative : Math_max 0 (-5) = 0%float.
Proof. vm_compute. reflexivity. Qed.

Example load_outside_is_nan : get [1;2] 5%nat = nan.
Proof. vm_compute. reflexivity. Qed.

End JSExamples.
